(** * Order extraction, grouping and sorting engine of [order_processor.py]

    A shallow embedding of the text-level core of the PDF order processor:
    page classification, label/packing-slip grouping, item extraction,
    hazmat and duplicate tracking, and the bucket sorter.

    Modelling conventions.
    - A page is its extracted text ([page.get_text()]), a document is the
      list of its pages, and the input folder is a list of named documents.
    - Text is a [string] whose characters are the code points below 256.
      Every literal and every regular expression of the source is ASCII;
      [str.lower], [str.strip], [\s] and [\d] are modelled on that range.
    - Python integers are [Z]; positions returned by [str.find] keep the
      [-1] sentinel of the source.
    - An order dictionary is a record; the order objects held by the output
      buckets are references into the batch list [orders], modelled by
      their index in it. *)

From Stdlib Require Import ZArith Ascii String List Lia Permutation Sorted DecimalString.
From stdpp Require Import base decidable option list gmap strings sorting.

Local Open Scope Z_scope.

(** ** Python string primitives *)

Module PyStr.

Definition zlen (s : string) : Z := Z.of_nat (String.length s).

Fixpoint drop (n : nat) (s : string) : string :=
  match n, s with
  | O, _ => s
  | S n', String _ s' => drop n' s'
  | S _, EmptyString => EmptyString
  end.

Fixpoint take (n : nat) (s : string) : string :=
  match n, s with
  | O, _ => EmptyString
  | S n', String c s' => String c (take n' s')
  | S _, EmptyString => EmptyString
  end.

(** Index normalisation of slices and of [find]'s start argument:
    a negative index counts from the end, then clamps to [0, len]. *)
Definition norm_index (len i : Z) : Z :=
  let i' := if i <? 0 then i + len else i in
  Z.max 0 (Z.min len i').

(** [s[a:b]] *)
Definition slice (s : string) (a b : Z) : string :=
  let a' := norm_index (zlen s) a in
  let b' := norm_index (zlen s) b in
  take (Z.to_nat (b' - a')) (drop (Z.to_nat a') s).

(** [s[a:]] *)
Definition slice_from (s : string) (a : Z) : string :=
  drop (Z.to_nat (norm_index (zlen s) a)) s.

(** [s.startswith(p)] *)
Fixpoint startswith (p s : string) : bool :=
  match p, s with
  | EmptyString, _ => true
  | String a p', String b s' => if Ascii.eqb a b then startswith p' s' else false
  | String _ _, EmptyString => false
  end.

(** [sub in s] *)
Fixpoint contains (sub s : string) : bool :=
  startswith sub s ||
  match s with
  | EmptyString => false
  | String _ s' => contains sub s'
  end.

(** First position of [sub] in [s], the head of [s] being at [pos]. *)
Fixpoint find_at (sub s : string) (pos : Z) : Z :=
  if startswith sub s then pos
  else match s with
       | EmptyString => -1
       | String _ s' => find_at sub s' (pos + 1)
       end.

(** [s.find(sub, start)] *)
Definition find_from (s sub : string) (start : Z) : Z :=
  let st := if start <? 0 then Z.max 0 (start + zlen s) else start in
  if zlen s <? st then -1
  else find_at sub (drop (Z.to_nat st) s) st.

(** [s.find(sub)] *)
Definition find (s sub : string) : Z := find_from s sub 0.

(** Last position of [sub] in [s]; [best] is the last one seen so far. *)
Fixpoint rfind_at (sub s : string) (pos best : Z) : Z :=
  let best' := if startswith sub s then pos else best in
  match s with
  | EmptyString => best'
  | String _ s' => rfind_at sub s' (pos + 1) best'
  end.

(** [s.rfind(sub)] *)
Definition rfind (s sub : string) : Z := rfind_at sub s 0 (-1).

Definition code (c : ascii) : N := N_of_ascii c.

(** [c.isspace()], which is also the class [\s] of [re]. *)
Definition isspace (c : ascii) : bool :=
  let n := code c in
  ((9 <=? n) && (n <=? 13) || (28 <=? n) && (n <=? 32)
   || (n =? 133) || (n =? 160))%N.

Definition isdigit (c : ascii) : bool :=
  let n := code c in ((48 <=? n) && (n <=? 57))%N.

Definition isupper (c : ascii) : bool :=
  let n := code c in ((65 <=? n) && (n <=? 90))%N.

Definition islower (c : ascii) : bool :=
  let n := code c in ((97 <=? n) && (n <=? 122))%N.

Definition isalnum (c : ascii) : bool := isdigit c || isupper c || islower c.

(** Upper-case letters of the range: A-Z and the accented capitals
    192-222 except the multiplication sign 215. *)
Definition has_lower (c : ascii) : bool :=
  let n := code c in
  isupper c || ((192 <=? n) && (n <=? 222) && negb (n =? 215))%N.

Definition lower_char (c : ascii) : ascii :=
  if has_lower c then ascii_of_N (code c + 32) else c.

(** [s.lower()] *)
Fixpoint lower (s : string) : string :=
  match s with
  | EmptyString => EmptyString
  | String c s' => String (lower_char c) (lower s')
  end.

(** [s.lstrip()] *)
Fixpoint lstrip (s : string) : string :=
  match s with
  | EmptyString => EmptyString
  | String c s' => if isspace c then lstrip s' else s
  end.

(** [s.rstrip()] *)
Fixpoint rstrip (s : string) : string :=
  match s with
  | EmptyString => EmptyString
  | String c s' =>
      match rstrip s' with
      | EmptyString => if isspace c then EmptyString else String c EmptyString
      | r => String c r
      end
  end.

(** [s.strip()] *)
Definition strip (s : string) : string := rstrip (lstrip s).

(** [s.split(sep)] for a one-character separator: never empty. *)
Fixpoint split_char (sep : ascii) (s : string) : list string :=
  match s with
  | EmptyString => [EmptyString]
  | String c s' =>
      if Ascii.eqb c sep then EmptyString :: split_char sep s'
      else match split_char sep s' with
           | w :: ws => String c w :: ws
           | [] => [String c EmptyString]
           end
  end.

(** [s.split()]: maximal runs of non-blank characters. *)
Fixpoint split_ws_go (cur : option string) (s : string) : list string :=
  match s with
  | EmptyString => option_list cur
  | String c s' =>
      if isspace c then option_list cur ++ split_ws_go None s'
      else split_ws_go (Some (from_option (fun w => w +:+ String c EmptyString)
                                          (String c EmptyString) cur)) s'
  end.

Definition split_ws (s : string) : list string := split_ws_go None s.

(** [sep.join(parts)] *)
Fixpoint join (sep : string) (parts : list string) : string :=
  match parts with
  | [] => EmptyString
  | [p] => p
  | p :: rest => p +:+ sep +:+ join sep rest
  end.

(** [s.endswith(suffix)] *)
Definition endswith (s suffix : string) : bool :=
  let n := String.length s in
  let k := String.length suffix in
  (k <=? n)%nat && String.eqb (drop (n - k) s) suffix.

(** [int(s)] for a run of decimal digits. *)
Fixpoint int_of_digits_acc (acc : Z) (s : string) : Z :=
  match s with
  | EmptyString => acc
  | String c s' => int_of_digits_acc (10 * acc + (Z.of_N (code c) - 48)) s'
  end.

Definition int_of_digits (s : string) : Z := int_of_digits_acc 0 s.

(** Longest prefix whose characters satisfy [p], and what follows it. *)
Fixpoint span (p : ascii -> bool) (s : string) : string * string :=
  match s with
  | EmptyString => (EmptyString, EmptyString)
  | String c s' =>
      if p c then let '(a, b) := span p s' in (String c a, b)
      else (EmptyString, s)
  end.

End PyStr.

(** ** Page classification *)

Definition HAZMAT_KEYWORDS : list string :=
  ["deo"; "deodorant"; "perfume"; "parfum"; "freshener"; "edp"; "edt"; "extrait"].

Inductive page_type := label | packing_slip.

Global Instance page_type_eq_dec : EqDecision page_type.
Proof. solve_decision. Defined.

Definition packing_slip_indicators : list string :=
  ["Order ID:"; "Product Name"; "SKU"; "Qty Total:"; "Packing Slip"; "Ship To:"].

Definition label_indicators : list string :=
  ["SHIP FROM:"; "DELIVER TO:"; "Tracking Number:"; "Carrier:"; "Service:"].

(** [sum(1 for indicator in indicators if indicator in page_text)] *)
Fixpoint indicator_count (indicators : list string) (page_text : string) : Z :=
  match indicators with
  | [] => 0
  | indicator :: rest =>
      (if PyStr.contains indicator page_text then 1 else 0)
      + indicator_count rest page_text
  end.

Definition detect_page_type (page_text : string) : page_type :=
  let packing_slip_count := indicator_count packing_slip_indicators page_text in
  let label_count := indicator_count label_indicators page_text in
  if PyStr.contains "Product Name" page_text && PyStr.contains "SKU" page_text
  then packing_slip
  else if label_count <? packing_slip_count then packing_slip
  else label.

(** ** Grouping a label with the packing slips that follow it *)

Record label_group := {
  label_page : string;
  label_index : nat;
  packing_slips : list string;
  packing_slip_indices : list nat
}.

Global Instance label_group_eq_dec : EqDecision label_group.
Proof. solve_decision. Defined.

(** The inner [while j < total_pages] loop: [rest] holds the pages from
    index [j] on; the result is the slips collected, their indices and the
    value of [j] when the loop stops. *)
Fixpoint look_ahead (rest : list string) (j : nat)
  : list string * list nat * nat :=
  match rest with
  | [] => ([], [], j)
  | next_text :: rest' =>
      match detect_page_type next_text with
      | packing_slip =>
          let '(slips, indices, j') := look_ahead rest' (S j) in
          (next_text :: slips, j :: indices, j')
      | label => ([], [], j)
      end
  end.

(** The outer [while i < total_pages] loop; [None] only when the fuel is
    exhausted before the loop condition fails. *)
Fixpoint group_loop (fuel : nat) (pdf_document : list string) (i : nat)
    (groups : list label_group) : option (list label_group) :=
  match pdf_document !! i with
  | None => Some groups
  | Some page_text =>
      match fuel with
      | O => None
      | S fuel' =>
          match detect_page_type page_text with
          | label =>
              let '(slips, indices, j) :=
                look_ahead (drop (S i) pdf_document) (S i) in
              let groups' :=
                match slips with
                | [] => groups
                | _ :: _ =>
                    groups ++ [ {| label_page := page_text;
                                   label_index := i;
                                   packing_slips := slips;
                                   packing_slip_indices := indices |} ]
                end in
              group_loop fuel' pdf_document j groups'
          | packing_slip => group_loop fuel' pdf_document (S i) groups
          end
      end
  end.

Definition group_label_with_packing_slips (pdf_document : list string)
  : option (list label_group) :=
  group_loop (length pdf_document) pdf_document 0%nat [].

(** ** The compiled regular expressions

    Each pattern of the source is a sequence of literals and greedy
    character-class runs whose neighbours are disjoint, so matching at a
    position is deterministic and needs no backtracking. *)

Module Re.
Import PyStr.

Definition nonempty (s : string) : bool :=
  match s with EmptyString => false | String _ _ => true end.

(** Consume the literal [lit] under [re.IGNORECASE]. *)
Fixpoint eat_ci (lit s : string) : option string :=
  match lit, s with
  | EmptyString, _ => Some s
  | String a lit', String b s' =>
      if Ascii.eqb (lower_char a) (lower_char b) then eat_ci lit' s' else None
  | String _ _, EmptyString => None
  end.

(** Consume the literal [lit], case-sensitively. *)
Fixpoint eat (lit s : string) : option string :=
  match lit, s with
  | EmptyString, _ => Some s
  | String a lit', String b s' =>
      if Ascii.eqb a b then eat lit' s' else None
  | String _ _, EmptyString => None
  end.

(** An optional single character, as in [:?]. *)
Definition eat_opt (c : ascii) (s : string) : string :=
  match s with
  | String b s' => if Ascii.eqb b c then s' else s
  | EmptyString => s
  end.

(** [pattern.search(s)]: the match at the leftmost position that has one. *)
Fixpoint search {A} (match_at : string -> option A) (s : string) : option A :=
  match match_at s with
  | Some r => Some r
  | None =>
      match s with
      | EmptyString => None
      | String _ s' => search match_at s'
      end
  end.

(** A match of [SKU_QTY_PATTERN]: its span and its two groups. *)
Record sku_qty_match := {
  m_start : Z;
  m_end : Z;
  m_sku : string;
  m_qty : string
}.

(** [(T\d+)\s+(\d+)] at the head of [s]: groups and length of the match. *)
Definition SKU_QTY_PATTERN_at (s : string) : option (string * string * nat) :=
  match s with
  | String "T"%char s1 =>
      let '(d1, s2) := span isdigit s1 in
      let '(w, s3) := span isspace s2 in
      let '(d2, _) := span isdigit s3 in
      if nonempty d1 && nonempty w && nonempty d2
      then Some (String "T"%char d1, d2,
                 S (String.length d1 + String.length w + String.length d2))
      else None
  | _ => None
  end.

(** The scan of [finditer]: [skip] characters of the current match are
    still to be passed, [pos] is the position of the head of [s]. *)
Fixpoint SKU_QTY_PATTERN_scan (skip : nat) (pos : Z) (s : string)
  : list sku_qty_match :=
  match s with
  | EmptyString => []
  | String _ s' =>
      match skip with
      | S k => SKU_QTY_PATTERN_scan k (pos + 1) s'
      | O =>
          match SKU_QTY_PATTERN_at s with
          | Some (g1, g2, len) =>
              {| m_start := pos; m_end := pos + Z.of_nat len;
                 m_sku := g1; m_qty := g2 |}
              :: SKU_QTY_PATTERN_scan (Nat.pred len) (pos + 1) s'
          | None => SKU_QTY_PATTERN_scan O (pos + 1) s'
          end
      end
  end.

(** [list(SKU_QTY_PATTERN.finditer(s))] *)
Definition SKU_QTY_PATTERN_finditer (s : string) : list sku_qty_match :=
  SKU_QTY_PATTERN_scan O 0 s.

(** [SKU_QTY_PATTERN.search(s)] as a truth value. *)
Definition SKU_QTY_PATTERN_search (s : string) : bool :=
  bool_decide (is_Some (search SKU_QTY_PATTERN_at s)).

(** [Order ID:[\s]*(\d+)], group 1. *)
Definition ORDER_ID_PATTERN_at (s : string) : option string :=
  s1 ← eat "Order ID:" s;
  let '(_, s2) := span isspace s1 in
  let '(d, _) := span isdigit s2 in
  if nonempty d then Some d else None.

(** The tail [:?\s*([A-Za-z0-9]+)] shared by the tracking patterns. *)
Definition tracking_tail (s : string) : option string :=
  let s1 := eat_opt ":"%char s in
  let '(_, s2) := span isspace s1 in
  let '(g, _) := span isalnum s2 in
  if nonempty g then Some g else None.

(** [Tracking\s*Number:?\s*([A-Za-z0-9]+)], ignoring case. *)
Definition TRACKING_PATTERN_0_at (s : string) : option string :=
  s1 ← eat_ci "Tracking" s;
  let '(_, s2) := span isspace s1 in
  s3 ← eat_ci "Number" s2;
  tracking_tail s3.

(** [Tracking:?\s*([A-Za-z0-9]+)], ignoring case. *)
Definition TRACKING_PATTERN_1_at (s : string) : option string :=
  s1 ← eat_ci "Tracking" s;
  tracking_tail s1.

(** [TRK\s*#:?\s*([A-Za-z0-9]+)], ignoring case. *)
Definition TRACKING_PATTERN_2_at (s : string) : option string :=
  s1 ← eat_ci "TRK" s;
  let '(_, s2) := span isspace s1 in
  s3 ← eat "#" s2;
  tracking_tail s3.

Definition TRACKING_PATTERNS : list (string -> option string) :=
  [TRACKING_PATTERN_0_at; TRACKING_PATTERN_1_at; TRACKING_PATTERN_2_at].

(** [Qty\s+Total:\s+(\d+)], ignoring case, group 1. *)
Definition QTY_TOTAL_PATTERN_at (s : string) : option string :=
  s1 ← eat_ci "Qty" s;
  let '(w1, s2) := span isspace s1 in
  if nonempty w1 then
    s3 ← eat_ci "Total:" s2;
    let '(w2, s4) := span isspace s3 in
    let '(d, _) := span isdigit s4 in
    if nonempty w2 && nonempty d then Some d else None
  else None.

End Re.

(** ** Field and item extraction *)

Record item := {
  product_name : string;
  variation : string;
  sku : string;
  qty : Z
}.

Global Instance item_eq_dec : EqDecision item.
Proof. solve_decision. Defined.

Definition newline : ascii := "010"%char.

(** Lines 179-198 of [extract_items]: the variation and the raw product
    name derived from the stripped name span [product_text]. *)
Definition split_variation (product_text : string) : string * string :=
  let default_pos := PyStr.rfind product_text "Default" in
  if negb (default_pos =? -1) then
    ("Default", PyStr.strip (PyStr.slice product_text 0 default_pos))
  else
    let lines := PyStr.split_char newline product_text in
    match lines with
    | [] => (EmptyString, EmptyString) (* [str.split] never returns [] *)
    | _ :: _ =>
        let variation := PyStr.strip (List.last lines EmptyString) in
        let product_name :=
          if (1 <? length lines)%nat
          then PyStr.strip (PyStr.join (String newline EmptyString) (removelast lines))
          else product_text in
        if Re.SKU_QTY_PATTERN_search variation
        then (EmptyString, product_text)
        else (variation, product_name)
    end.

(** Lines 200-205: drop the header lines, then collapse blanks. *)
Definition clean_product_name (product_name : string) : string :=
  let kept :=
    List.filter
      (fun line => negb (existsb (fun kw => PyStr.contains kw line) ["SKU"; "Seller"]))
      (PyStr.split_char newline product_name) in
  let product_name := PyStr.join (String newline EmptyString) kept in
  PyStr.join " " (PyStr.split_ws product_name).

(** The item built from the stripped name span and the two groups. *)
Definition make_item (product_text : string) (m : Re.sku_qty_match) : item :=
  let '(variation, product_name) := split_variation product_text in
  {| product_name := clean_product_name product_name;
     variation := if String.eqb variation "Default" then EmptyString else variation;
     sku := Re.m_sku m;
     qty := PyStr.int_of_digits (Re.m_qty m) |}.

(** The stripped name span of match [i], or [None] where the loop body
    executes [continue]. *)
Definition name_span (product_section : string)
    (sku_qty_matches : list Re.sku_qty_match) (i : nat) (m : Re.sku_qty_match)
  : option string :=
  name_start ←
    match i with
    | O =>
        let header_end :=
          PyStr.find_from product_section "Qty"
            (PyStr.find product_section "Seller SKU") in
        if header_end =? -1 then None else Some (header_end + 3)
    | S i' => Re.m_end <$> sku_qty_matches !! i'
    end;
  let name_end := Re.m_start m in
  Some (PyStr.strip (PyStr.slice product_section name_start name_end)).

(** The product section [page_content[product_section_start:qty_total_position]],
    when there is one. *)
Definition product_section_of (page_content : string) : option string :=
  let product_section_start := PyStr.find page_content "Product Name" in
  if product_section_start =? -1 then None
  else
    let qty_total_position :=
      PyStr.find_from page_content "Qty Total:" product_section_start in
    let qty_total_position :=
      if qty_total_position =? -1 then PyStr.zlen page_content
      else qty_total_position in
    Some (PyStr.slice page_content product_section_start qty_total_position).

Definition extract_items (page_content : string) : list item :=
  match product_section_of page_content with
  | None => []
  | Some product_section =>
      let sku_qty_matches := Re.SKU_QTY_PATTERN_finditer product_section in
      omap id
        (imap (fun i m =>
                 (fun product_text => make_item product_text m)
                   <$> name_span product_section sku_qty_matches i m)
              sku_qty_matches)
  end.

Definition extract_order_id (page_text : string) : option string :=
  Re.search Re.ORDER_ID_PATTERN_at page_text.

(** The first pattern of [TRACKING_PATTERNS] that matches decides. *)
Fixpoint first_tracking_match (patterns : list (string -> option string))
    (page_text : string) : option string :=
  match patterns with
  | [] => None
  | pattern :: rest =>
      match Re.search pattern page_text with
      | Some g => Some (PyStr.strip g)
      | None => first_tracking_match rest page_text
      end
  end.

Definition extract_tracking_number (page_text : string) : option string :=
  first_tracking_match Re.TRACKING_PATTERNS page_text.

(** [QTY_TOTAL_PATTERN.search(page_text)] with [int(group(1))] applied. *)
Definition search_qty_total (page_text : string) : option Z :=
  PyStr.int_of_digits <$> Re.search Re.QTY_TOTAL_PATTERN_at page_text.

(** ** Orders and the sorter *)

Record order := {
  items : list item;
  qty_total : Z;
  pages : string * list string;
  source_pdf : string;
  page_numbers : nat * list nat;
  is_hazmat : bool;
  order_id : option string;
  tracking_number : option string;
  num_packing_slips : nat
}.

(** [list.sort] and [sorted] are stable; [ltb] is the [<] the sort uses. *)
Section py_sort.
Context {A : Type} (ltb : A -> A -> bool).

Fixpoint insert_sorted (x : A) (l : list A) : list A :=
  match l with
  | [] => [x]
  | y :: l' => if ltb y x then y :: insert_sorted x l' else x :: l
  end.

Fixpoint py_sorted (l : list A) : list A :=
  match l with
  | [] => []
  | x :: l' => insert_sorted x (py_sorted l')
  end.
End py_sort.

(** [<] on the tuples [(sku, qty)]. *)
Definition tuple_ltb (a b : string * Z) : bool :=
  match String.compare a.1 b.1 with
  | Lt => true
  | Eq => a.2 <? b.2
  | Gt => false
  end.

(** [(item['sku'], item['qty'])] *)
Definition sku_qty (it : item) : string * Z := (sku it, qty it).

(** [tuple(sorted([(item['sku'], item['qty']) for item in order['items']]))] *)
Definition fingerprint (o : order) : list (string * Z) :=
  py_sorted tuple_ltb (sku_qty <$> items o).

(** Reading a [defaultdict(int)]. *)
Definition occurrences (sku_occurrences : gmap string Z) (s : string) : Z :=
  default 0 (sku_occurrences !! s).

(** The sku of an order passing [len(order['items']) == 1 and
    order['qty_total'] == 1]. *)
Definition single_unit_sku (o : order) : option string :=
  match items o with
  | [it] => if qty_total o =? 1 then Some (sku it) else None
  | _ => None
  end.

Definition count_order (sku_occurrences : gmap string Z) (o : order)
  : gmap string Z :=
  match single_unit_sku o with
  | Some s => <[s := occurrences sku_occurrences s + 1]> sku_occurrences
  | None => sku_occurrences
  end.

Definition sku_occurrences (orders : list order) : gmap string Z :=
  foldl count_order ∅ orders.

Record high_qty_info := {
  hq_count : Z;
  hq_product_name : string;
  hq_is_hazmat : bool;
  hq_orders : list nat
}.

(** The first order with [len(order['items']) == 1 and
    order['items'][0]['sku'] == sku]. *)
Definition first_order_of_sku (orders : list order) (s : string) : option order :=
  List.find
    (fun o => match items o with
              | [it] => bool_decide (sku it = s)
              | _ => false
              end)
    orders.

Definition high_qty_entry (orders : list order) (s : string) (count : Z)
  : option high_qty_info :=
  if 100 <=? count then
    o ← first_order_of_sku orders s;
    it ← head (items o);
    Some {| hq_count := count;
            hq_product_name := product_name it;
            hq_is_hazmat := is_hazmat o;
            hq_orders := [] |}
  else None.

Definition initial_high_qty_skus (orders : list order)
    (sku_occurrences : gmap string Z) : gmap string high_qty_info :=
  map_imap (high_qty_entry orders) sku_occurrences.

(** [order_fingerprints]: fingerprint to the indices carrying it, in
    increasing order. *)
Definition add_fingerprint (m : gmap (list (string * Z)) (list nat))
    (i : nat) (o : order) : gmap (list (string * Z)) (list nat) :=
  let fp := fingerprint o in
  <[fp := default [] (m !! fp) ++ [i]]> m.

Fixpoint fingerprints_loop (i : nat) (rest : list order)
    (m : gmap (list (string * Z)) (list nat))
  : gmap (list (string * Z)) (list nat) :=
  match rest with
  | [] => m
  | o :: rest' => fingerprints_loop (S i) rest' (add_fingerprint m i o)
  end.

Definition order_fingerprints (orders : list order)
  : gmap (list (string * Z)) (list nat) :=
  fingerprints_loop 0%nat orders ∅.

(** The eight bucket variables of [sort_orders]. *)
Inductive leaf :=
  | warehouse_hazmat
  | warehouse_ground
  | packingroom_hazmat_single_item
  | packingroom_hazmat_single_sku
  | packingroom_hazmat_multi_sku
  | packingroom_ground_single_item
  | packingroom_ground_single_sku
  | packingroom_ground_multi_sku.

Global Instance leaf_eq_dec : EqDecision leaf.
Proof. solve_decision. Defined.

Definition all_leaves : list leaf :=
  [warehouse_hazmat; warehouse_ground;
   packingroom_hazmat_single_item; packingroom_hazmat_single_sku;
   packingroom_hazmat_multi_sku;
   packingroom_ground_single_item; packingroom_ground_single_sku;
   packingroom_ground_multi_sku].

(** The state of the categorisation loop: the bucket variables, each a
    list of references to orders, and [high_qty_skus]. *)
Record sort_state := {
  bucket : leaf -> list nat;
  high_qty : gmap string high_qty_info
}.

(** [b.extend(identical_orders)] *)
Definition extend (b : leaf) (identical_orders : list nat) (st : sort_state)
  : sort_state :=
  {| bucket := fun b' => if decide (b' = b) then bucket st b' ++ identical_orders
                         else bucket st b';
     high_qty := high_qty st |}.

(** [high_qty_skus[sku]['orders'].append(orders[idx])] for every [idx]. *)
Definition collect_high_qty (s : string) (identical_orders : list nat)
    (st : sort_state) : sort_state :=
  {| bucket := bucket st;
     high_qty :=
       alter (fun info =>
                {| hq_count := hq_count info;
                   hq_product_name := hq_product_name info;
                   hq_is_hazmat := hq_is_hazmat info;
                   hq_orders := hq_orders info ++ identical_orders |})
             s (high_qty st) |}.

(** The packing-room bucket of a representative order. *)
Definition packingroom_leaf (o : order) : leaf :=
  if is_hazmat o then
    match items o with
    | [_] => if qty_total o =? 1 then packingroom_hazmat_single_item
             else packingroom_hazmat_single_sku
    | _ => packingroom_hazmat_multi_sku
    end
  else
    match items o with
    | [_] => if qty_total o =? 1 then packingroom_ground_single_item
             else packingroom_ground_single_sku
    | _ => packingroom_ground_multi_sku
    end.

(** The sku under which a representative is collected as high-quantity. *)
Definition high_qty_sku_of (hq : gmap string high_qty_info) (o : order)
  : option string :=
  match single_unit_sku o with
  | Some s => if decide (is_Some (hq !! s)) then Some s else None
  | None => None
  end.

(** Warehouse eligibility of a representative. *)
Definition warehouse_eligible (sku_occurrences : gmap string Z) (o : order)
  : bool :=
  match single_unit_sku o with
  | Some s => 5 <=? occurrences sku_occurrences s
  | None => false
  end.

(** One iteration of [for i, order in enumerate(orders)]; [None] stands
    for a [KeyError] or [IndexError]. *)
Definition categorize (sku_occurrences : gmap string Z)
    (order_fingerprints : gmap (list (string * Z)) (list nat))
    (st : sort_state) (i : nat) (o : order) : option sort_state :=
  fingerprint_indices ← order_fingerprints !! fingerprint o;
  first ← head fingerprint_indices;
  if decide (i ≠ first) then Some st
  else
    match high_qty_sku_of (high_qty st) o with
    | Some s => Some (collect_high_qty s fingerprint_indices st)
    | None =>
        if warehouse_eligible sku_occurrences o then
          if is_hazmat o then Some (extend warehouse_hazmat fingerprint_indices st)
          else Some (extend warehouse_ground fingerprint_indices st)
        else Some (extend (packingroom_leaf o) fingerprint_indices st)
    end.

Fixpoint categorize_loop (sku_occurrences : gmap string Z)
    (order_fingerprints : gmap (list (string * Z)) (list nat))
    (i : nat) (rest : list order) (st : sort_state) : option sort_state :=
  match rest with
  | [] => Some st
  | o :: rest' =>
      st' ← categorize sku_occurrences order_fingerprints st i o;
      categorize_loop sku_occurrences order_fingerprints (S i) rest' st'
  end.

(** [l.sort(key=key)], or with [reverse=True]: the keys are computed
    first, and a key that raises aborts the sort. *)
Definition sort_by_key (key : nat -> option Z) (reverse : bool) (l : list nat)
  : option (list nat) :=
  keyed ← mapM (fun x => (fun k => (x, k)) <$> key x) l;
  Some (fst <$> py_sorted
                  (fun a b : nat * Z =>
                     if reverse then b.2 <? a.2 else a.2 <? b.2)
                  keyed).

(** [lambda x: -sku_occurrences[x['items'][0]['sku']]] *)
Definition warehouse_key (orders : list order) (sku_occurrences : gmap string Z)
    (x : nat) : option Z :=
  o ← orders !! x;
  it ← head (items o);
  Some (- occurrences sku_occurrences (sku it)).

(** [get_order_frequency] *)
Definition get_order_frequency (orders : list order)
    (fingerprint_counts : gmap (list (string * Z)) Z) (x : nat) : option Z :=
  o ← orders !! x;
  fingerprint_counts !! fingerprint o.

Definition is_warehouse_leaf (b : leaf) : bool :=
  match b with
  | warehouse_hazmat | warehouse_ground => true
  | _ => false
  end.

(** The result of [sort_orders]: the sorted leaf buckets and
    [high_qty_skus]; the ['all'] entries are concatenations of leaves. *)
Record sorted_orders := {
  leaf_bucket : leaf -> list nat;
  high_qty_skus : gmap string high_qty_info
}.

Definition warehouse_all (r : sorted_orders) : list nat :=
  leaf_bucket r warehouse_hazmat ++ leaf_bucket r warehouse_ground.

Definition packingroom_hazmat_all (r : sorted_orders) : list nat :=
  leaf_bucket r packingroom_hazmat_single_item
  ++ leaf_bucket r packingroom_hazmat_single_sku
  ++ leaf_bucket r packingroom_hazmat_multi_sku.

Definition packingroom_ground_all (r : sorted_orders) : list nat :=
  leaf_bucket r packingroom_ground_single_item
  ++ leaf_bucket r packingroom_ground_single_sku
  ++ leaf_bucket r packingroom_ground_multi_sku.

Definition packingroom_all (r : sorted_orders) : list nat :=
  packingroom_hazmat_all r ++ packingroom_ground_all r.

Definition sort_leaf (orders : list order) (sku_occurrences : gmap string Z)
    (fingerprint_counts : gmap (list (string * Z)) Z) (st : sort_state)
    (b : leaf) : option (list nat) :=
  if is_warehouse_leaf b
  then sort_by_key (warehouse_key orders sku_occurrences) false (bucket st b)
  else sort_by_key (get_order_frequency orders fingerprint_counts) true
                   (bucket st b).

Definition sort_orders (orders : list order) : option sorted_orders :=
  let occ := sku_occurrences orders in
  let hq := initial_high_qty_skus orders occ in
  let fps := order_fingerprints orders in
  let fingerprint_counts := (fun indices => Z.of_nat (length indices)) <$> fps in
  st ← categorize_loop occ fps 0%nat orders
         {| bucket := fun _ => []; high_qty := hq |};
  let sorted := sort_leaf orders occ fingerprint_counts st in
  wh ← sorted warehouse_hazmat;
  wg ← sorted warehouse_ground;
  phi ← sorted packingroom_hazmat_single_item;
  phs ← sorted packingroom_hazmat_single_sku;
  phm ← sorted packingroom_hazmat_multi_sku;
  pgi ← sorted packingroom_ground_single_item;
  pgs ← sorted packingroom_ground_single_sku;
  pgm ← sorted packingroom_ground_multi_sku;
  Some {| leaf_bucket := fun b =>
            match b with
            | warehouse_hazmat => wh
            | warehouse_ground => wg
            | packingroom_hazmat_single_item => phi
            | packingroom_hazmat_single_sku => phs
            | packingroom_hazmat_multi_sku => phm
            | packingroom_ground_single_item => pgi
            | packingroom_ground_single_sku => pgs
            | packingroom_ground_multi_sku => pgm
            end;
          high_qty_skus := high_qty st |}.

(** ** The batch driver [process_pdfs]

    The annotations stamped on in-memory pages and the contents of the
    written documents are outside the model; the statistics, the orders
    handed to the sorter and which files are written are inside it. *)

(** The locals of the batch loop. *)
Record batch_state := {
  all_orders : list order;
  all_tracking_numbers : gset string;
  duplicate_tracking_numbers : gset string;
  duplicate_details : list string;
  total_orders : Z;
  multi_slip_orders : Z;
  max_slips_per_order : Z
}.

Definition initial_batch_state : batch_state :=
  {| all_orders := [];
     all_tracking_numbers := ∅;
     duplicate_tracking_numbers := ∅;
     duplicate_details := [];
     total_orders := 0;
     multi_slip_orders := 0;
     max_slips_per_order := 1 |}.

(** [f"{x}"] for an optional string. *)
Definition str_of_option (x : option string) : string :=
  match x with
  | Some s => s
  | None => "None"
  end.

(** Truth value of an optional string, as in [if tracking_number:]. *)
Definition truthy (x : option string) : bool :=
  match x with
  | Some s => Re.nonempty s
  | None => false
  end.

(** [f"Tracking: {tracking_number}, Order: {order_id}"] *)
Definition duplicate_detail (tracking_number order_id : option string) : string :=
  "Tracking: " +:+ str_of_option tracking_number
  +:+ ", Order: " +:+ str_of_option order_id.

(** The duplicate check, lines 1052-1059 and again lines 1101-1109. *)
Definition check_duplicate (tracking_number order_id : option string)
    (st : batch_state) : batch_state :=
  if truthy tracking_number then
    let t := str_of_option tracking_number in
    let seen := bool_decide (t ∈ all_tracking_numbers st) in
    {| all_orders := all_orders st;
       all_tracking_numbers := all_tracking_numbers st ∪ {[ t ]};
       duplicate_tracking_numbers :=
         if seen then duplicate_tracking_numbers st ∪ {[ t ]}
         else duplicate_tracking_numbers st;
       duplicate_details :=
         if seen
         then duplicate_details st ++ [duplicate_detail tracking_number order_id]
         else duplicate_details st;
       total_orders := total_orders st + 1;
       multi_slip_orders := multi_slip_orders st;
       max_slips_per_order := max_slips_per_order st |}
  else st.

(** [any(keyword.lower() in page_text.lower() for keyword in hazmat_keywords)] *)
Definition hazmat_in (hazmat_keywords : list string) (page_text : string) : bool :=
  existsb (fun keyword => PyStr.contains (PyStr.lower keyword) (PyStr.lower page_text))
          hazmat_keywords.

(** The locals updated by the loop over the packing slips of a group. *)
Record slip_acc := {
  acc_items : list item;
  acc_qty_total : Z;
  acc_order_id : option string;
  acc_tracking_number : option string;
  acc_is_hazmat : bool
}.

Definition process_slip (hazmat_keywords : list string) (label_text : string)
    (acc : slip_acc) (page_text : string) : slip_acc :=
  {| acc_order_id :=
       match acc_order_id acc with
       | None => extract_order_id page_text
       | Some _ => acc_order_id acc
       end;
     acc_tracking_number :=
       match acc_tracking_number acc with
       | None => extract_tracking_number label_text
       | Some _ => acc_tracking_number acc
       end;
     acc_items := acc_items acc ++ extract_items page_text;
     acc_qty_total :=
       match search_qty_total page_text with
       | Some n => acc_qty_total acc + n
       | None => acc_qty_total acc
       end;
     acc_is_hazmat :=
       if hazmat_in hazmat_keywords page_text then true else acc_is_hazmat acc |}.

Definition add_order (o : order) (st : batch_state) : batch_state :=
  {| all_orders := all_orders st ++ [o];
     all_tracking_numbers := all_tracking_numbers st;
     duplicate_tracking_numbers := duplicate_tracking_numbers st;
     duplicate_details := duplicate_details st;
     total_orders := total_orders st;
     multi_slip_orders := multi_slip_orders st;
     max_slips_per_order := max_slips_per_order st |}.

Definition note_slip_count (n : nat) (st : batch_state) : batch_state :=
  if (1 <? n)%nat then
    {| all_orders := all_orders st;
       all_tracking_numbers := all_tracking_numbers st;
       duplicate_tracking_numbers := duplicate_tracking_numbers st;
       duplicate_details := duplicate_details st;
       total_orders := total_orders st;
       multi_slip_orders := multi_slip_orders st + 1;
       max_slips_per_order := Z.max (max_slips_per_order st) (Z.of_nat n) |}
  else st.

(** The order built from a group by the multi-slip branch. *)
Definition order_of_group (hazmat_keywords : list string) (pdf_file : string)
    (g : label_group) : order :=
  let acc :=
    foldl (process_slip hazmat_keywords (label_page g))
          {| acc_items := []; acc_qty_total := 0; acc_order_id := None;
             acc_tracking_number := None; acc_is_hazmat := false |}
          (packing_slips g) in
  {| items := acc_items acc;
     qty_total := acc_qty_total acc;
     pages := (label_page g, packing_slips g);
     source_pdf := pdf_file;
     page_numbers := (label_index g, packing_slip_indices g);
     is_hazmat := acc_is_hazmat acc;
     order_id := acc_order_id acc;
     tracking_number := acc_tracking_number acc;
     num_packing_slips := length (packing_slips g) |}.

(** Body of [for group in label_groups]. *)
Definition process_group (hazmat_keywords : list string) (pdf_file : string)
    (st : batch_state) (g : label_group) : batch_state :=
  let st := note_slip_count (length (packing_slips g)) st in
  let o := order_of_group hazmat_keywords pdf_file g in
  add_order o (check_duplicate (tracking_number o) (order_id o) st).

(** The order built from the pages [i] and [i + 1] by the fallback branch. *)
Definition order_of_pair (hazmat_keywords : list string) (pdf_file : string)
    (i : nat) (label_text page_text : string) : order :=
  {| items := extract_items page_text;
     qty_total := default 0 (search_qty_total page_text);
     pages := (label_text, [page_text]);
     source_pdf := pdf_file;
     page_numbers := (i, [S i]);
     is_hazmat := hazmat_in hazmat_keywords page_text;
     order_id := extract_order_id page_text;
     tracking_number := extract_tracking_number label_text;
     num_packing_slips := 1 |}.

(** [for i in range(0, total_pages, 2)] with its [if i + 1 < total_pages];
    [rest] holds the pages from index [i] on. *)
Fixpoint fallback_loop (hazmat_keywords : list string) (pdf_file : string)
    (i : nat) (rest : list string) (st : batch_state) : batch_state :=
  match rest with
  | label_text :: page_text :: rest' =>
      let o := order_of_pair hazmat_keywords pdf_file i label_text page_text in
      fallback_loop hazmat_keywords pdf_file (S (S i)) rest'
        (add_order o (check_duplicate (tracking_number o) (order_id o) st))
  | _ => st
  end.

(** Body of [for pdf_file in pdf_files]. *)
Definition process_document (hazmat_keywords : list string)
    (st : batch_state) (file : string * list string) : option batch_state :=
  let '(pdf_file, pdf_document) := file in
  label_groups ← group_label_with_packing_slips pdf_document;
  match label_groups with
  | _ :: _ => Some (foldl (process_group hazmat_keywords pdf_file) st label_groups)
  | [] => Some (fallback_loop hazmat_keywords pdf_file 0%nat pdf_document st)
  end.

Fixpoint process_documents (hazmat_keywords : list string)
    (files : list (string * list string)) (st : batch_state)
  : option batch_state :=
  match files with
  | [] => Some st
  | file :: rest =>
      st' ← process_document hazmat_keywords st file;
      process_documents hazmat_keywords rest st'
  end.

(** Values of the result dictionary. *)
Inductive pyval :=
  | VBool (b : bool)
  | VInt (z : Z)
  | VStr (s : string)
  | VList (l : list string).

(** Effects on the output folder. *)
Inductive fs_effect :=
  | MakeDirs
  | SaveFile (name : string).

(** [str(n)] for an integer. *)
Definition str_of_Z (n : Z) : string :=
  DecimalString.NilZero.string_of_int (Z.to_int n).

(** The orders kept in a warehouse bucket once the high-quantity sku
    [s] is written out: [len(order['items']) != 1 or
    order['items'][0]['sku'] != sku]. *)
Definition keeps (orders : list order) (s : string) (x : nat) : bool :=
  match orders !! x with
  | Some o =>
      match items o with
      | [it] => negb (bool_decide (sku it = s))
      | _ => true
      end
  | None => true
  end.

Definition remove_high_qty (orders : list order) (r : sorted_orders)
    (entry : string * high_qty_info) : sorted_orders :=
  let '(s, info) := entry in
  if 100 <=? hq_count info then
    {| leaf_bucket := fun b =>
         if decide (b = (if hq_is_hazmat info then warehouse_hazmat
                         else warehouse_ground))
         then List.filter (keeps orders s) (leaf_bucket r b)
         else leaf_bucket r b;
       high_qty_skus := high_qty_skus r |}
  else r.

(** [sku_occurrences[sku] += 1] inserts a key the first time it is
    counted: [keys] are the keys inserted so far. *)
Fixpoint sku_keys (keys : list string) (orders : list order) : list string :=
  match orders with
  | [] => keys
  | o :: orders' =>
      match single_unit_sku o with
      | Some s => sku_keys (if decide (s ∈ keys) then keys else keys ++ [s]) orders'
      | None => sku_keys keys orders'
      end
  end.

(** The keys of [sku_occurrences] in the order of their insertion.  The
    entries of [high_qty_skus] are inserted while iterating over
    [sku_occurrences.items()], so they follow the same order. *)
Definition sku_order (orders : list order) : list string := sku_keys [] orders.

(** [high_qty_skus.items()] *)
Definition high_qty_items (orders : list order) (r : sorted_orders)
  : list (string * high_qty_info) :=
  omap (fun s => (fun info => (s, info)) <$> high_qty_skus r !! s)
       (sku_order orders).

(** The per-sku files, in the order of the loop.  Every order of a group
    contributes its label page, so the document of a group has no page
    exactly when the group is empty; [sku_pdf.save] raises on a document
    without pages, and nothing catches it. *)
Fixpoint high_qty_files (entries : list (string * high_qty_info))
  : option (list fs_effect) :=
  match entries with
  | [] => Some []
  | (s, info) :: entries' =>
      if 100 <=? hq_count info then
        match hq_orders info with
        | [] => None
        | _ :: _ =>
            files ← high_qty_files entries';
            Some (SaveFile ("sku_" +:+ s +:+ "_" +:+ str_of_Z (hq_count info)
                            +:+ ".pdf") :: files)
        end
      else high_qty_files entries'
  end.

(** The files written after sorting, in the order of the source, or
    [None] where writing a per-sku file raises. *)
Definition write_outputs (orders : list order) (r : sorted_orders)
  : option (list fs_effect) :=
  let entries := high_qty_items orders r in
  files ← high_qty_files entries;
  let r := foldl (remove_high_qty orders) r entries in
  Some (files
        ++ match warehouse_all r with
           | [] => []
           | _ :: _ => [SaveFile "warehouse_labels.pdf";
                        SaveFile "warehouse_picklist.xlsx"]
           end
        ++ match packingroom_all r with
           | [] => []
           | _ :: _ => [SaveFile "packingroom_labels.pdf";
                        SaveFile "packingroom_pick_list.csv"]
           end).

(** [process_pdfs]: [input_folder] lists the directory entries with the
    pages of each; [time_str] is the formatted elapsed time.  The result
    is [None] when an exception is raised. *)
Definition process_pdfs (input_folder : list (string * list string))
    (hazmat_keywords : list string) (time_str : string)
  : option (gmap string pyval * list fs_effect) :=
  let pdf_files :=
    List.filter (fun f => PyStr.endswith (PyStr.lower f.1) ".pdf") input_folder in
  match pdf_files with
  | [] => Some ({[ "success" := VBool false ]}, [])
  | _ :: _ =>
      st ← process_documents hazmat_keywords pdf_files initial_batch_state;
      sorted ← sort_orders (all_orders st);
      files ← write_outputs (all_orders st) sorted;
      Some (list_to_map
              [("success", VBool true);
               ("total_orders", VInt (total_orders st));
               ("duplicate_orders",
                VInt (Z.of_nat (size (duplicate_tracking_numbers st))));
               ("duplicate_details", VList (duplicate_details st));
               ("processing_time", VStr time_str);
               ("multi_slip_orders", VInt (multi_slip_orders st));
               ("max_slips_per_order", VInt (max_slips_per_order st))],
            MakeDirs :: files)
  end.

(** ** Notions used to state the properties *)

(** [sub] occurs in [s]. *)
Definition substring_of (sub s : string) : Prop :=
  exists pre post, s = pre +:+ sub +:+ post.

(** [keyword] occurs in [text], ignoring case. *)
Definition occurs_ci (keyword text : string) : Prop :=
  substring_of (PyStr.lower keyword) (PyStr.lower text).

(** The variation rule of [extract_items] on the name span
    [product_text] of an item [it]. *)
Definition variation_rule (product_text : string) (it : item) : Prop :=
  let last_line :=
    PyStr.strip (List.last (PyStr.split_char newline product_text) EmptyString) in
  (substring_of "Default" product_text ->
   variation it = EmptyString
   /\ product_name it
      = clean_product_name
          (PyStr.strip
             (PyStr.slice product_text 0 (PyStr.rfind product_text "Default"))))
  /\ (~ substring_of "Default" product_text ->
      Re.SKU_QTY_PATTERN_search last_line = true ->
      variation it = EmptyString
      /\ product_name it = clean_product_name product_text)
  /\ (~ substring_of "Default" product_text ->
      Re.SKU_QTY_PATTERN_search last_line = false ->
      variation it = last_line).

(** What the extraction scenario lists of an item. *)
Definition sku_qty_variation (it : item) : string * Z * string :=
  (sku it, qty it, variation it).

(** A cluster as the grouping scenario writes it. *)
Definition cluster_indices (g : label_group) : nat * list nat :=
  (label_index g, packing_slip_indices g).

(** The grouping scan in the words of its description, over the
    classification of the pages: [grouping_scan types i cs] says that the
    scan started at page [i] emits the clusters [cs]. *)
Inductive grouping_scan (types : list page_type)
  : nat -> list (nat * list nat) -> Prop :=
  | scan_exhausted i :
      types !! i = None ->
      grouping_scan types i []
  | scan_cluster i j cs :
      types !! i = Some label ->
      (S i < j)%nat ->
      (forall k, (i < k < j)%nat -> types !! k = Some packing_slip) ->
      types !! j <> Some packing_slip ->
      grouping_scan types j cs ->
      grouping_scan types i ((i, seq (S i) (j - S i)) :: cs)
  | scan_isolated_label i cs :
      types !! i = Some label ->
      types !! (S i) <> Some packing_slip ->
      grouping_scan types (S i) cs ->
      grouping_scan types i cs
  | scan_orphan_slip i cs :
      types !! i = Some packing_slip ->
      grouping_scan types (S i) cs ->
      grouping_scan types i cs.

(** The fingerprint of the order referenced by [j]. *)
Definition fp_of (orders : list order) (j : nat) : option (list (string * Z)) :=
  fingerprint <$> orders !! j.

(** The references below [k] of the orders carrying the fingerprint [fp]. *)
Definition group_upto (orders : list order) (k : nat) (fp : list (string * Z))
  : list nat :=
  List.filter (fun j => bool_decide (fp_of orders j = Some fp)) (seq 0 k).

(** The references of the orders carrying the fingerprint [fp]. *)
Definition fingerprint_group (orders : list order) (fp : list (string * Z))
  : list nat :=
  group_upto orders (length orders) fp.

(** A dictionary entry exists once its list has received an element. *)
Definition opt_nonempty {A : Type} (l : list A) : option (list A) :=
  match l with
  | [] => None
  | _ :: _ => Some l
  end.

(** Where the categorisation loop sends a fingerprint group. *)
Inductive destination :=
  | to_high_qty (s : string)
  | to_leaf (b : leaf).

Global Instance destination_eq_dec : EqDecision destination.
Proof. solve_decision. Defined.

(** The destination chosen from the representative [o] of a group. *)
Definition destination_of (hq : gmap string high_qty_info)
    (occ : gmap string Z) (o : order) : destination :=
  match high_qty_sku_of hq o with
  | Some s => to_high_qty s
  | None =>
      if warehouse_eligible occ o then
        to_leaf (if is_hazmat o then warehouse_hazmat else warehouse_ground)
      else to_leaf (packingroom_leaf o)
  end.

(** The representative of the order [j] (the first order of the batch
    with its fingerprint) and the destination of its group. *)
Definition placement (orders : list order) (j : nat)
  : option (nat * destination) :=
  o ← orders !! j;
  r ← head (fingerprint_group orders (fingerprint o));
  o' ← orders !! r;
  Some (r, destination_of
             (initial_high_qty_skus orders (sku_occurrences orders))
             (sku_occurrences orders) o').

(** The order [j] is placed at [d] by a representative below [k]. *)
Definition placed_before (orders : list order) (k : nat) (d : destination)
    (j : nat) : bool :=
  match placement orders j with
  | Some (r, d') => bool_decide (r < k)%nat && bool_decide (d' = d)
  | None => false
  end.

(** The order [j] joins the orders placed at [d] when the iteration on
    the order [o] of index [k] places its group there. *)
Definition joins (orders : list order) (k : nat) (o : order) (d : destination)
    (j : nat) : bool :=
  bool_decide (head (fingerprint_group orders (fingerprint o)) = Some k)
  && bool_decide
       (destination_of (initial_high_qty_skus orders (sku_occurrences orders))
                       (sku_occurrences orders) o = d)
  && bool_decide (fp_of orders j = Some (fingerprint o)).

(** The orders placed at [d] in the whole batch. *)
Definition placed_at (orders : list order) (d : destination) : list nat :=
  List.filter (placed_before orders (length orders) d) (seq 0 (length orders)).

(** State of the categorisation loop once the orders below [k] are done:
    every container holds, up to order, the groups whose representative
    is below [k]. *)
Definition categorize_inv (orders : list order) (k : nat) (st : sort_state)
  : Prop :=
  (forall b,
      bucket st b
      ≡ₚ List.filter (placed_before orders k (to_leaf b)) (seq 0 (length orders)))
  /\ (forall s,
         match high_qty st !! s with
         | Some info =>
             is_Some (initial_high_qty_skus orders (sku_occurrences orders) !! s)
             /\ hq_orders info
                ≡ₚ List.filter (placed_before orders k (to_high_qty s))
                               (seq 0 (length orders))
         | None =>
             initial_high_qty_skus orders (sku_occurrences orders) !! s = None
         end).

(** The order [x] was extracted into a high-quantity group of [r]. *)
Definition in_high_qty_group (r : sorted_orders) (x : nat) : Prop :=
  exists s info, high_qty_skus r !! s = Some info /\ x ∈ hq_orders info.

(** Number of occurrences of the reference [x] in a bucket. *)
Definition occurrences_in (x : nat) (l : list nat) : nat :=
  length (List.filter (Nat.eqb x) l).

(** The hazmat rule on an order and its own packing slips. *)
Definition hazmat_rule (hazmat_keywords : list string) (o : order) : Prop :=
  is_hazmat o = true <->
  exists keyword page_text,
    keyword ∈ hazmat_keywords /\ page_text ∈ (pages o).2 /\
    occurs_ci keyword page_text.

(** The order of the tuples [(sku, qty)] that [sorted] follows. *)
Definition tuple_le (a b : string * Z) : Prop := tuple_ltb b a = false.

(** An order that carries nothing but its items, for examples. *)
Definition order_with_items (its : list item) (total : Z) (hazmat : bool)
  : order :=
  {| items := its; qty_total := total; pages := (EmptyString, []);
     source_pdf := EmptyString; page_numbers := (0%nat, []);
     is_hazmat := hazmat; order_id := None; tracking_number := None;
     num_packing_slips := 1 |}.

Definition item_of (s : string) (q : Z) : item :=
  {| product_name := EmptyString; variation := EmptyString; sku := s; qty := q |}.

(** The first order of the batch without items. *)
Definition first_empty_order (orders : list order) : option order :=
  List.find (fun o => bool_decide (items o = [])) orders.

(** The pages of a group are the pages found at its indices, and there
    is at least one packing slip. *)
Definition group_pages_ok (doc : list string) (g : label_group) : Prop :=
  doc !! label_index g = Some (label_page g)
  /\ packing_slips g <> []
  /\ Forall2 (fun idx page => doc !! idx = Some page)
             (packing_slip_indices g) (packing_slips g).

(** The clusters of a document, as index pairs. *)
Definition clusters_of (pdf_document : list string)
  : option (list (nat * list nat)) :=
  (fun groups : list label_group => cluster_indices <$> groups)
    <$> group_label_with_packing_slips pdf_document.

(** ** Further notions used to state properties *)

(** A cluster taken alone: a label page followed by at least one packing
    slip, the slips being the pages right after the label. *)
Definition cluster_shape (doc : list string) (g : label_group) : Prop :=
  doc !! label_index g = Some (label_page g)
  /\ detect_page_type (label_page g) = label
  /\ packing_slips g <> []
  /\ packing_slip_indices g
     = seq (S (label_index g)) (length (packing_slips g))
  /\ Forall (fun page => detect_page_type page = packing_slip) (packing_slips g)
  /\ Forall2 (fun idx page => doc !! idx = Some page)
             (packing_slip_indices g) (packing_slips g).

(** Clusters laid out in page order from page [i] on, without overlap. *)
Fixpoint clusters_in_order (i : nat) (cs : list (nat * list nat)) : Prop :=
  match cs with
  | [] => True
  | (l, slips) :: rest =>
      (i <= l)%nat /\ clusters_in_order (S l + length slips) rest
  end.

(** A label page immediately followed by a packing slip, at page [k]. *)
Definition label_then_slip (doc : list string) (k : nat) : Prop :=
  detect_page_type <$> doc !! k = Some label
  /\ detect_page_type <$> doc !! S k = Some packing_slip.

(** Every character of [s] satisfies [p]. *)
Fixpoint all_chars (p : ascii -> bool) (s : string) : bool :=
  match s with
  | EmptyString => true
  | String c s' => p c && all_chars p s'
  end.

(** The groups of a match of the sku/qty pattern: "T" and digits, then
    digits; the match is not empty. *)
Definition match_wf (m : Re.sku_qty_match) : Prop :=
  (exists digits,
      Re.m_sku m = String "T"%char digits
      /\ digits <> EmptyString
      /\ all_chars PyStr.isdigit digits = true)
  /\ Re.m_qty m <> EmptyString
  /\ all_chars PyStr.isdigit (Re.m_qty m) = true
  /\ Re.m_start m < Re.m_end m.

(** [header_end] of [extract_items]: where "Qty" is found from the
    position of "Seller SKU" on, or [-1]. *)
Definition header_end_of (product_section : string) : Z :=
  PyStr.find_from product_section "Qty"
    (PyStr.find product_section "Seller SKU").

(** What a match contributes to an item: its sku and its quantity. *)
Definition match_sku_qty (m : Re.sku_qty_match) : string * Z :=
  (Re.m_sku m, PyStr.int_of_digits (Re.m_qty m)).

(** Number of orders carrying the tracking number [t]. *)
Definition carrying (t : string) (orders : list order) : nat :=
  length (List.filter (fun o => bool_decide (tracking_number o = Some t)) orders).

(** Number of orders with a tracking number that is not empty. *)
Definition tracked (orders : list order) : nat :=
  length (List.filter (fun o => truthy (tracking_number o)) orders).

(** What the batch statistics say about the orders collected so far. *)
Definition tracking_inv (st : batch_state) : Prop :=
  total_orders st = Z.of_nat (tracked (all_orders st))
  /\ total_orders st
     = (Z.of_nat (size (all_tracking_numbers st))
        + Z.of_nat (length (duplicate_details st)))
  /\ (EmptyString ∉ all_tracking_numbers st)
  /\ (duplicate_tracking_numbers st ⊆ all_tracking_numbers st)
  /\ forall t,
      t <> EmptyString ->
      (t ∈ all_tracking_numbers st <-> (1 <= carrying t (all_orders st))%nat)
      /\ (t ∈ duplicate_tracking_numbers st
          <-> (2 <= carrying t (all_orders st))%nat).

(** Number of orders with more than one packing slip. *)
Definition multi_slip (orders : list order) : nat :=
  length (List.filter (fun o => (1 <? num_packing_slips o)%nat) orders).

(** The largest number of packing slips of an order, and at least 1. *)
Definition most_slips (orders : list order) : Z :=
  foldr Z.max 1 ((fun o => Z.of_nat (num_packing_slips o)) <$> orders).

Definition slip_inv (st : batch_state) : Prop :=
  multi_slip_orders st = Z.of_nat (multi_slip (all_orders st))
  /\ max_slips_per_order st = most_slips (all_orders st)
  /\ Forall (fun o => num_packing_slips o = length (pages o).2
                      /\ (1 <= num_packing_slips o)%nat)
            (all_orders st).

(** Number of single-item orders with [qty_total = 1] whose sku is [s]. *)
Definition single_unit_count (s : string) (orders : list order) : nat :=
  length (List.filter (fun o => bool_decide (single_unit_sku o = Some s)) orders).

(** The first order of the batch with the fingerprint of [o]: the
    representative that decides where the orders identical to [o] go. *)
Definition representative (orders : list order) (o : order) : option order :=
  List.find (fun o' => bool_decide (fingerprint o' = fingerprint o)) orders.

(** Occurrence count of the sku of the first item of the order [x]. *)
Definition sku_frequency (orders : list order) (x : nat) : Z :=
  match orders !! x with
  | Some o =>
      match items o with
      | it :: _ => occurrences (sku_occurrences orders) (sku it)
      | [] => 0
      end
  | None => 0
  end.

(** Number of orders of the batch with the fingerprint of the order [x]. *)
Definition order_frequency (orders : list order) (x : nat) : Z :=
  match orders !! x with
  | Some o => Z.of_nat (length (fingerprint_group orders (fingerprint o)))
  | None => 0
  end.

(** The order that a keyed sort leaves between neighbours. *)
Definition key_order (key : nat -> option Z) (reverse : bool) (x y : nat)
  : Prop :=
  match key x, key y with
  | Some kx, Some ky => if reverse then ky <= kx else kx <= ky
  | _, _ => False
  end.

(** The fields of a high-quantity entry that the categorisation leaves
    alone. *)
Definition hq_fields (info : high_qty_info) : Z * string * bool :=
  (hq_count info, hq_product_name info, hq_is_hazmat info).

(** Where the classification rule sends the orders whose representative
    is [rep]. *)
Definition ruled_destination (orders : list order) (rep : order) : destination :=
  match single_unit_sku rep with
  | Some s =>
      if 100 <=? occurrences (sku_occurrences orders) s then to_high_qty s
      else if 5 <=? occurrences (sku_occurrences orders) s then
        to_leaf (if is_hazmat rep then warehouse_hazmat else warehouse_ground)
      else to_leaf (packingroom_leaf rep)
  | None => to_leaf (packingroom_leaf rep)
  end.

(** The order [x] is held by the container that [d] names. *)
Definition held_at (r : sorted_orders) (d : destination) (x : nat) : Prop :=
  match d with
  | to_high_qty s =>
      exists info, high_qty_skus r !! s = Some info /\ x ∈ hq_orders info
  | to_leaf b => x ∈ leaf_bucket r b
  end.

(** ** Page numbers and label counts of the warehouse file *)

(** The text inserted on a packing slip. *)
Inductive stamp :=
  | PageNumber (page_number : Z)
  | PageNumberWithSlipCount (page_number slip_number total_slips : Z)
  | LabelCount (s : string) (current_count total_count : Z).

Definition stamp_text (t : stamp) : string :=
  match t with
  | PageNumber n => "Page: " +:+ str_of_Z n
  | PageNumberWithSlipCount n i m =>
      "Page: " +:+ str_of_Z n +:+ " (Slip " +:+ str_of_Z i +:+ " of "
      +:+ str_of_Z m +:+ ")"
  | LabelCount s k n =>
      "SKU: " +:+ s +:+ " (" +:+ str_of_Z k +:+ " of " +:+ str_of_Z n +:+ ")"
  end.

(** [sku_counts[order['items'][0]['sku']] += 1] for the one-item orders. *)
Definition count_sku (orders : list order) (sku_counts : gmap string Z)
    (x : nat) : gmap string Z :=
  match orders !! x with
  | Some o =>
      match items o with
      | [it] => <[sku it := occurrences sku_counts (sku it) + 1]> sku_counts
      | _ => sku_counts
      end
  | None => sku_counts
  end.

Definition sku_counts (orders : list order) (all : list nat) : gmap string Z :=
  foldl (count_sku orders) ∅ all.

(** State of the loop over [sorted_orders['warehouse']['all']]: the next
    page number, the label counters, the page number stored in each order,
    and the texts inserted so far, each with the order and the index of
    the page of its source document that receives it. *)
Record label_state := {
  page_number : Z;
  sku_counters : gmap string Z;
  order_page_number : gmap nat Z;
  stamps : list (nat * nat * stamp)
}.

(** The body of the loop over [enumerate(order['page_numbers'][1])]. *)
Definition stamp_slip (sku_counts : gmap string Z) (x : nat) (o : order)
    (n : Z) (st : gmap string Z * list (nat * nat * stamp))
    (slip : nat * nat) : gmap string Z * list (nat * nat * stamp) :=
  let '(counters, out) := st in
  let '(j, slip_index) := slip in
  let total_slips := length (page_numbers o).2 in
  let out :=
    out ++ [(x, slip_index,
             if (1 <? total_slips)%nat
             then PageNumberWithSlipCount n (Z.of_nat j + 1) (Z.of_nat total_slips)
             else PageNumber n)] in
  match j, items o with
  | O, [it] =>
      if 5 <=? occurrences sku_counts (sku it) then
        let current_count := occurrences counters (sku it) + 1 in
        (<[sku it := current_count]> counters,
         out ++ [(x, slip_index,
                  LabelCount (sku it) current_count
                             (occurrences sku_counts (sku it)))])
      else (counters, out)
  | _, _ => (counters, out)
  end.

(** The body of the loop over the orders of the warehouse file. *)
Definition stamp_order (orders : list order) (sku_counts : gmap string Z)
    (st : label_state) (x : nat) : label_state :=
  match orders !! x with
  | Some o =>
      let '(counters, out) :=
        foldl (stamp_slip sku_counts x o (page_number st))
              (sku_counters st, stamps st)
              (imap (fun j slip_index => (j, slip_index)) (page_numbers o).2) in
      {| page_number := page_number st + 1;
         sku_counters := counters;
         order_page_number := <[x := page_number st]> (order_page_number st);
         stamps := out |}
  | None => st
  end.

Definition stamp_warehouse (orders : list order) (all : list nat) : label_state :=
  foldl (stamp_order orders (sku_counts orders all))
        {| page_number := 1; sku_counters := ∅; order_page_number := ∅;
           stamps := [] |}
        all.

(** ** The warehouse pick list *)

Record picklist_entry := {
  pl_product_name : string;
  pl_quantity : Z;
  pl_pages : list Z
}.

(** A dictionary in the order of insertion of its keys. *)
Fixpoint entry_of {V : Type} (s : string) (d : list (string * V)) : option V :=
  match d with
  | [] => None
  | (k, v) :: d' => if decide (k = s) then Some v else entry_of s d'
  end.

Fixpoint update_entry {V : Type} (s : string) (f : V -> V)
    (d : list (string * V)) : list (string * V) :=
  match d with
  | [] => []
  | (k, v) :: d' =>
      if decide (k = s) then (k, f v) :: d' else (k, v) :: update_entry s f d'
  end.

(** The body of the loop over [order['items']]; [page] is the
    [page_number] of the order where it has one. *)
Definition picklist_item (page : option Z)
    (items_by_sku : list (string * picklist_entry)) (it : item)
  : list (string * picklist_entry) :=
  let items_by_sku :=
    match entry_of (sku it) items_by_sku with
    | Some _ => items_by_sku
    | None =>
        items_by_sku
        ++ [(sku it,
             {| pl_product_name :=
                  if decide (variation it = EmptyString) then product_name it
                  else variation it +:+ " " +:+ product_name it;
                pl_quantity := 0;
                pl_pages := [] |})]
    end in
  update_entry (sku it)
    (fun e => {| pl_product_name := pl_product_name e;
                 pl_quantity := pl_quantity e + qty it;
                 pl_pages := match page with
                             | Some p => pl_pages e ++ [p]
                             | None => pl_pages e
                             end |})
    items_by_sku.

Definition picklist_order (orders : list order) (pages : gmap nat Z)
    (items_by_sku : list (string * picklist_entry)) (x : nat)
  : list (string * picklist_entry) :=
  match orders !! x with
  | Some o => foldl (picklist_item (pages !! x)) items_by_sku (items o)
  | None => items_by_sku
  end.

(** [hazmat_items_by_sku], [ground_items_by_sku] *)
Definition items_by_sku (orders : list order) (pages : gmap nat Z)
    (bucket : list nat) : list (string * picklist_entry) :=
  foldl (picklist_order orders pages) [] bucket.

(** The loop that closes a range at every page that does not follow the
    previous one; a range is kept as [(start, prev)]. *)
Fixpoint page_ranges_loop (start prev : Z) (rest : list Z) : list (Z * Z) :=
  match rest with
  | [] => [(start, prev)]
  | p :: rest' =>
      if decide (p ≠ prev + 1) then (start, prev) :: page_ranges_loop p p rest'
      else page_ranges_loop start p rest'
  end.

Definition page_ranges (pages : list Z) : list (Z * Z) :=
  match pages with
  | [] => []
  | p :: rest => page_ranges_loop p p rest
  end.

Definition range_text (range : Z * Z) : string :=
  let '(start, prev) := range in
  if decide (start = prev) then str_of_Z start
  else str_of_Z start +:+ "-" +:+ str_of_Z prev.

(** The cell [Pages] of a row of the pick list. *)
Definition page_text (pages : list Z) : string :=
  let pages := py_sorted Z.ltb pages in
  match pages with
  | [] => EmptyString
  | _ :: _ => PyStr.join ", " (range_text <$> page_ranges pages)
  end.

(** The pages that a range stands for. *)
Definition pages_of_range (range : Z * Z) : list Z :=
  let '(start, prev) := range in
  (fun k => start + Z.of_nat k) <$> seq 0 (Z.to_nat (prev - start + 1)).

(** Neighbouring ranges are not contiguous. *)
Fixpoint ranges_apart (ranges : list (Z * Z)) : Prop :=
  match ranges with
  | r1 :: ((r2 :: _) as rest) => r2.1 ≠ r1.2 + 1 /\ ranges_apart rest
  | _ => True
  end.

(** The items of the orders of a bucket, each with the order that carries
    it, in the order of the loops. *)
Definition bucket_items (orders : list order) (bucket : list nat)
  : list (nat * item) :=
  x ← bucket;
  match orders !! x with
  | Some o => (fun it => (x, it)) <$> items o
  | None => []
  end.

(** The one-item orders of sku [s] among [all] that have a packing slip. *)
Definition labelled (orders : list order) (s : string) (x : nat) : bool :=
  match orders !! x with
  | Some o =>
      match items o, (page_numbers o).2 with
      | [it], _ :: _ => bool_decide (sku it = s)
      | _, _ => false
      end
  | None => false
  end.

Definition label_counts (s : string) (out : list (nat * nat * stamp))
  : list (Z * Z) :=
  omap (fun e : nat * nat * stamp =>
          match e.2 with
          | LabelCount s' k n => if decide (s' = s) then Some (k, n) else None
          | _ => None
          end)
       out.

(** The items of sku [s] in a bucket, each with the page number of its
    order where it has one. *)
Definition sku_items (orders : list order) (pages : gmap nat Z)
    (bucket : list nat) (s : string) : list (option Z * item) :=
  List.filter (fun p => bool_decide (sku p.2 = s))
              ((fun p : nat * item => (pages !! p.1, p.2))
                 <$> bucket_items orders bucket).

(** The name of an item in the pick list. *)
Definition picklist_name (it : item) : string :=
  if decide (variation it = EmptyString) then product_name it
  else variation it +:+ " " +:+ product_name it.

(** The row that a list of items of one sku amounts to. *)
Definition row_of (its : list (option Z * item)) : option picklist_entry :=
  match its with
  | [] => None
  | (_, it) :: _ =>
      Some {| pl_product_name := picklist_name it;
              pl_quantity := foldr Z.add 0 ((fun p => qty p.2) <$> its);
              pl_pages := omap fst its |}
  end.

(** The order [x] has exactly one item, of sku [s]. *)
Definition one_item_of (orders : list order) (s : string) (x : nat) : bool :=
  match orders !! x with
  | Some o =>
      match items o with
      | [it] => bool_decide (sku it = s)
      | _ => false
      end
  | None => false
  end.

(** * Properties *)

(** ** Strings *)

Section string_facts.
Import PyStr.

Lemma append_nil_l (b : string) : EmptyString +:+ b = b.
Proof. reflexivity. Qed.

Lemma append_cons (c : ascii) (a b : string) :
  String c a +:+ b = String c (a +:+ b).
Proof. reflexivity. Qed.

Lemma append_assoc (a b c : string) : (a +:+ b) +:+ c = a +:+ (b +:+ c).
Proof.
  induction a as [|x a IH]; [done|]. by rewrite !append_cons, IH.
Qed.

Lemma append_empty_r (a : string) : a +:+ EmptyString = a.
Proof. induction a as [|x a IH]; [done|]. by rewrite append_cons, IH. Qed.

Lemma startswith_spec (p s : string) :
  startswith p s = true <-> exists post, s = p +:+ post.
Proof.
  revert s. induction p as [|a p IH]; intros s; simpl.
  - split; [eauto|done].
  - destruct s as [|b s].
    + split; [done|]. intros [post H]. discriminate.
    + destruct (Ascii.eqb_spec a b) as [->|Hne].
      * rewrite IH. split; intros [post H]; exists post.
        -- by rewrite append_cons, H.
        -- rewrite append_cons in H. congruence.
      * split; [done|]. intros [post H]. rewrite append_cons in H. congruence.
Qed.

Lemma contains_spec (sub s : string) :
  contains sub s = true <-> substring_of sub s.
Proof.
  unfold substring_of. induction s as [|c s IH]; simpl.
  - rewrite orb_false_r, startswith_spec. split.
    + intros [post H]. by exists EmptyString, post.
    + intros ([|x pre] & post & H); [by exists post|discriminate].
  - rewrite orb_true_iff, startswith_spec, IH. split.
    + intros [[post H]|(pre & post & H)].
      * by exists EmptyString, post.
      * exists (String c pre), post. by rewrite append_cons, H.
    + intros ([|x pre] & post & H).
      * left. by exists post.
      * right. exists pre, post. rewrite append_cons in H. congruence.
Qed.

Lemma substring_of_dec (sub s : string) :
  substring_of sub s \/ ~ substring_of sub s.
Proof.
  rewrite <- contains_spec. destruct (contains sub s); [by left|by right].
Qed.

Lemma substring_of_trans (a b c : string) :
  substring_of a b -> substring_of b c -> substring_of a c.
Proof.
  intros (p1 & q1 & ->) (p2 & q2 & ->).
  exists (p2 +:+ p1), (q1 +:+ q2). by rewrite !append_assoc.
Qed.
End string_facts.

(** ** Page classification *)

(** C7.  With both "Product Name" and "SKU" in the text the page is a
    packing slip whatever the counts; otherwise it is a packing slip exactly
    when the packing-slip indicators matched strictly more often than the
    label indicators, and a label in every other case, ties included. *)
Theorem detect_page_type_rule (page_text : string) :
  (substring_of "Product Name" page_text -> substring_of "SKU" page_text ->
   detect_page_type page_text = packing_slip)
  /\ (~ (substring_of "Product Name" page_text /\ substring_of "SKU" page_text) ->
      indicator_count label_indicators page_text
        < indicator_count packing_slip_indicators page_text ->
      detect_page_type page_text = packing_slip)
  /\ (~ (substring_of "Product Name" page_text /\ substring_of "SKU" page_text) ->
      indicator_count packing_slip_indicators page_text
        <= indicator_count label_indicators page_text ->
      detect_page_type page_text = label).
Proof.
  unfold detect_page_type. split; [|split].
  - intros H1%contains_spec H2%contains_spec. by rewrite H1, H2.
  - intros Hno Hlt.
    destruct (PyStr.contains "Product Name" page_text) eqn:E1,
             (PyStr.contains "SKU" page_text) eqn:E2; cbn [andb];
      try (exfalso; apply Hno; split; by apply contains_spec);
      by apply Z.ltb_lt in Hlt as ->.
  - intros Hno Hle.
    destruct (PyStr.contains "Product Name" page_text) eqn:E1,
             (PyStr.contains "SKU" page_text) eqn:E2; cbn [andb];
      try (exfalso; apply Hno; split; by apply contains_spec);
      by apply Z.ltb_ge in Hle as ->.
Qed.

Lemma detect_page_type_rule_witness :
  detect_page_type "Invoice Product Name and SKU list" = packing_slip
  /\ detect_page_type "Order ID: 7 Ship To: here Carrier: X" = packing_slip
  /\ detect_page_type "Order ID: 7 Carrier: X" = label.
Proof.
  split; [|split].
  - apply (proj1 (detect_page_type_rule _)); apply contains_spec; reflexivity.
  - apply (proj1 (proj2 (detect_page_type_rule _))).
    + intros [H _]. apply contains_spec in H. discriminate H.
    + reflexivity.
  - apply (proj2 (proj2 (detect_page_type_rule _))).
    + intros [H _]. apply contains_spec in H. discriminate H.
    + vm_compute. discriminate.
Defined.

(** ** Grouping *)

Section grouping_facts.

(** What the look-ahead returns: a run of packing slips, maximal. *)
Lemma look_ahead_spec (rest : list string) (j : nat) :
  exists n : nat,
    look_ahead rest j = (take n rest, seq j n, (j + n)%nat)
    /\ (n <= length rest)%nat
    /\ (forall k, (k < n)%nat ->
                  detect_page_type <$> rest !! k = Some packing_slip)
    /\ detect_page_type <$> rest !! n <> Some packing_slip.
Proof.
  revert j. induction rest as [|p rest IH]; intros j.
  - exists 0%nat. simpl. rewrite Nat.add_0_r. repeat split; [lia|lia|done].
  - simpl. destruct (detect_page_type p) eqn:Hp.
    + exists 0%nat. simpl. rewrite Nat.add_0_r, Hp.
      repeat split; [lia|lia|done].
    + destruct (IH (S j)) as (n & -> & Hn & Hslips & Hstop).
      exists (S n). simpl. replace (j + S n)%nat with (S j + n)%nat by lia.
      repeat split; [lia| |done].
      intros [|k] Hk; simpl; [by rewrite Hp|]. apply Hslips. lia.
Qed.

Lemma take_drop_lookup (doc : list string) (i n : nat) :
  (n <= length (drop i doc))%nat ->
  Forall2 (fun idx page => doc !! idx = Some page)
          (seq i n) (take n (drop i doc)).
Proof.
  revert i. induction n as [|n IH]; intros i Hn; simpl; [constructor|].
  destruct (drop i doc) as [|p rest] eqn:Hd; simpl in *; [lia|].
  assert (doc !! i = Some p) as Hi.
  { rewrite <- (Nat.add_0_r i), <- lookup_drop, Hd. done. }
  assert (drop (S i) doc = rest) as Hrest.
  { replace (S i) with (i + 1)%nat by lia.
    rewrite <- drop_drop, Hd. done. }
  constructor; [done|]. rewrite <- Hrest. apply IH. rewrite Hrest. lia.
Qed.

Lemma group_loop_spec (doc : list string) (fuel i : nat)
    (groups : list label_group) :
  (length doc - i <= fuel)%nat ->
  exists gs,
    group_loop fuel doc i groups = Some (groups ++ gs)
    /\ grouping_scan (detect_page_type <$> doc) i (cluster_indices <$> gs)
    /\ Forall (group_pages_ok doc) gs.
Proof.
  revert i groups. induction fuel as [|fuel IH]; intros i groups Hfuel.
  - exists []. rewrite app_nil_r.
    assert (doc !! i = None) as Hi by (apply lookup_ge_None; lia).
    simpl. rewrite Hi. split; [done|]. split; [|constructor].
    constructor. by rewrite list_lookup_fmap, Hi.
  - simpl. destruct (doc !! i) as [page_text|] eqn:Hi.
    2:{ exists []. rewrite app_nil_r. split; [done|].
        split; [|constructor]. constructor.
        by rewrite list_lookup_fmap, Hi. }
    assert (i < length doc)%nat as Hlt by (by eapply lookup_lt_Some).
    assert ((detect_page_type <$> doc) !! i
            = Some (detect_page_type page_text)) as Hty
      by (by rewrite list_lookup_fmap, Hi).
    destruct (detect_page_type page_text) eqn:Hp.
    + destruct (look_ahead_spec (drop (S i) doc) (S i))
        as (n & -> & Hn & Hslips & Hstop).
      assert (forall k, (detect_page_type <$> doc) !! (S i + k)%nat
                        = detect_page_type <$> drop (S i) doc !! k) as Hshift.
      { intros k. by rewrite list_lookup_fmap, lookup_drop. }
      destruct n as [|n].
      * simpl. rewrite Nat.add_0_r.
        destruct (IH (S i) groups) as (gs & -> & Hscan & Hok);
          [clear -Hfuel Hlt; lia|].
        exists gs. split; [done|]. split; [|done].
        apply scan_isolated_label; [done| |done].
        specialize (Hshift 0%nat). rewrite Nat.add_0_r in Hshift.
        by rewrite Hshift.
      * destruct (take (S n) (drop (S i) doc)) as [|s0 slips] eqn:Htake.
        { apply (f_equal length) in Htake. rewrite length_take in Htake.
          change (length (@nil string)) with 0%nat in Htake. lia. }
        cbv beta iota. rewrite <- Htake.
        set (g := {| label_page := page_text; label_index := i;
                     packing_slips := take (S n) (drop (S i) doc);
                     packing_slip_indices := seq (S i) (S n) |}).
        destruct (IH (S i + S n)%nat (groups ++ [g])) as (gs & -> & Hscan & Hok).
        { rewrite length_drop in Hn. lia. }
        exists (g :: gs). rewrite <- app_assoc. split; [done|]. split.
        -- rewrite fmap_cons.
           replace (cluster_indices g)
             with (i, seq (S i) (S i + S n - S i)%nat)
             by (unfold cluster_indices, g;
                 cbn [label_index packing_slip_indices];
                 do 2 f_equal; lia).
           apply scan_cluster; [done|lia| | |done].
           ++ intros k Hk. replace k with (S i + (k - S i))%nat by lia.
              rewrite Hshift. apply Hslips. lia.
           ++ by rewrite Hshift.
        -- constructor; [|done]. split; [done|]. split.
           ++ cbn [packing_slips g]. rewrite Htake. done.
           ++ by apply take_drop_lookup.
    + destruct (IH (S i) groups) as (gs & -> & Hscan & Hok); [lia|].
      exists gs. split; [done|]. split; [|done].
      by apply scan_orphan_slip.
Qed.

(** The description determines the clusters. *)
Lemma grouping_scan_deterministic (types : list page_type) (i : nat)
    (cs1 cs2 : list (nat * list nat)) :
  grouping_scan types i cs1 -> grouping_scan types i cs2 -> cs1 = cs2.
Proof.
  intros H1. revert cs2.
  induction H1 as [i Hi|i j cs Hi Hj Hslips Hstop _ IH
                   |i cs Hi Hnext _ IH|i cs Hi _ IH];
    intros cs2 H2; inversion H2; subst; try congruence.
  - assert (j = j0) as <-.
    { destruct (Nat.lt_total j j0) as [Hlt|[->|Hgt]]; [|done|].
      - exfalso. apply Hstop. match goal with H : forall k, _ -> _ |- _ =>
          apply H end. lia.
      - exfalso. match goal with H : types !! j0 <> _ |- _ => apply H end.
        apply Hslips. lia. }
    f_equal. by apply IH.
  - exfalso. match goal with H : types !! S i <> _ |- _ => apply H end.
    apply Hslips. lia.
  - exfalso. apply Hnext. match goal with H : forall k, _ -> _ |- _ =>
      apply H end. lia.
  - by apply IH.
  - by apply IH.
Qed.
End grouping_facts.

(** C5.  The scan always terminates with a result, and its clusters are
    those of the description: a label takes the packing slips that follow
    it up to the next label or the end, a cluster is emitted only when at
    least one slip was taken, and a slip met outside a run is skipped.  On a
    document classified [Label, Slip, Slip, Label, Slip] the clusters are
    (0, [1, 2]) and (3, [4]). *)
Theorem group_label_with_packing_slips_scan (pdf_document : list string) :
  (exists groups,
      group_label_with_packing_slips pdf_document = Some groups
      /\ grouping_scan (detect_page_type <$> pdf_document) 0
                       (cluster_indices <$> groups)
      /\ Forall (group_pages_ok pdf_document) groups)
  /\ (detect_page_type <$> pdf_document
      = [label; packing_slip; packing_slip; label; packing_slip] ->
      clusters_of pdf_document
      = Some [(0%nat, [1%nat; 2%nat]); (3%nat, [4%nat])]).
Proof.
  destruct (group_loop_spec pdf_document (length pdf_document) 0 [])
    as (gs & Hrun & Hscan & Hok); [lia|].
  split.
  - exists gs. by repeat split.
  - intros Htypes. unfold clusters_of, group_label_with_packing_slips.
    rewrite Hrun. simpl.
    f_equal. eapply grouping_scan_deterministic; [exact Hscan|].
    rewrite Htypes.
    apply (scan_cluster _ 0 3); [done|lia| |done|].
    { intros k Hk. assert (k = 1 \/ k = 2)%nat as [-> | ->] by lia; done. }
    apply (scan_cluster _ 3 5); [done|lia| |done|].
    { intros k Hk. assert (k = 4)%nat as -> by lia. done. }
    by apply scan_exhausted.
Qed.

Lemma group_label_with_packing_slips_scan_witness :
  clusters_of ["SHIP FROM: depot"; "Product Name SKU"; "Packing Slip";
               "Carrier: UPS"; "Order ID: 12"]
  = Some [(0%nat, [1%nat; 2%nat]); (3%nat, [4%nat])].
Proof.
  apply (proj2 (group_label_with_packing_slips_scan _)). reflexivity.
Defined.

(** ** Item extraction *)

Section extraction_facts.
Import PyStr.

Lemma rfind_at_spec (sub s : string) (pos best : Z) :
  0 <= pos ->
  (contains sub s = false -> rfind_at sub s pos best = best)
  /\ (contains sub s = true -> pos <= rfind_at sub s pos best).
Proof.
  revert pos best. induction s as [|c s IH]; intros pos best Hpos; simpl.
  - rewrite orb_false_r. destruct (startswith sub EmptyString); split; (done || lia).
  - destruct (IH (pos + 1) (if startswith sub (String c s) then pos else best))
      as [Hnone Hsome]; [lia|].
    destruct (contains sub s) eqn:Hc.
    + rewrite orb_true_r. split; [done|]. intros _.
      specialize (Hsome eq_refl). lia.
    + rewrite orb_false_r. rewrite (Hnone eq_refl).
      destruct (startswith sub (String c s)); split; (done || lia).
Qed.

Lemma rfind_missing (s sub : string) :
  rfind s sub = -1 <-> ~ substring_of sub s.
Proof.
  rewrite <- contains_spec. unfold rfind.
  destruct (rfind_at_spec sub s 0 (-1)) as [Hnone Hsome]; [lia|].
  destruct (contains sub s).
  - specialize (Hsome eq_refl). split; [lia|]. intros H. by destruct H.
  - split; [done|]. intros _. by apply Hnone.
Qed.

Lemma lstrip_suffix (s : string) : exists pre, s = pre +:+ lstrip s.
Proof.
  induction s as [|c s [pre IH]]; simpl; [by exists EmptyString|].
  destruct (isspace c).
  - exists (String c pre). by rewrite append_cons, <- IH.
  - by exists EmptyString.
Qed.

Lemma rstrip_prefix (s : string) : exists post, s = rstrip s +:+ post.
Proof.
  induction s as [|c s [post IH]]; simpl; [by exists EmptyString|].
  destruct (rstrip s) as [|c' r].
  - destruct (isspace c).
    + by exists (String c s).
    + exists s. by rewrite append_cons.
  - exists post. by rewrite append_cons, <- IH.
Qed.

Lemma strip_substring (s : string) : substring_of (strip s) s.
Proof.
  unfold strip. destruct (lstrip_suffix s) as [pre Hpre].
  destruct (rstrip_prefix (lstrip s)) as [post Hpost].
  exists pre, post. by rewrite <- Hpost.
Qed.

Lemma split_char_nonempty (sep : ascii) (s : string) : split_char sep s <> [].
Proof.
  destruct s as [|c s]; simpl; [done|].
  destruct (Ascii.eqb c sep); [done|]. by destruct (split_char sep s).
Qed.

Lemma join_cons_cons (sep p q : string) (rest : list string) :
  join sep (p :: q :: rest) = p +:+ sep +:+ join sep (q :: rest).
Proof. reflexivity. Qed.

Lemma join_split_char (sep : ascii) (s : string) :
  join (String sep EmptyString) (split_char sep s) = s.
Proof.
  induction s as [|c s IH]; [done|]. simpl.
  pose proof (split_char_nonempty sep s) as Hne.
  destruct (split_char sep s) as [|w ws] eqn:Hs; [done|].
  destruct (Ascii.eqb_spec c sep) as [->|Hc].
  - rewrite join_cons_cons, IH. reflexivity.
  - destruct ws as [|w' ws].
    + simpl in *. by rewrite IH.
    + rewrite join_cons_cons in *. by rewrite append_cons, IH.
Qed.

Lemma join_last_suffix (sep : string) (l : list string) :
  l <> [] -> exists pre, join sep l = pre +:+ List.last l EmptyString.
Proof.
  induction l as [|p l IH]; [done|]. intros _.
  destruct l as [|q l]; [by exists EmptyString|].
  destruct IH as [pre IH]; [done|].
  exists (p +:+ sep +:+ pre). rewrite join_cons_cons, IH.
  change (List.last (p :: q :: l) EmptyString) with (List.last (q :: l) EmptyString).
  by rewrite !append_assoc.
Qed.

Lemma last_line_substring (sep : ascii) (s : string) :
  substring_of (List.last (split_char sep s) EmptyString) s.
Proof.
  destruct (join_last_suffix (String sep EmptyString) (split_char sep s)) as [pre H];
    [apply split_char_nonempty|].
  rewrite join_split_char in H. exists pre, EmptyString.
  by rewrite append_empty_r.
Qed.

(** Lines 179-209 of [extract_items] follow the variation rule. *)
Lemma make_item_variation (product_text : string) (m : Re.sku_qty_match) :
  variation_rule product_text (make_item product_text m).
Proof.
  unfold variation_rule, make_item, split_variation.
  pose proof (rfind_missing product_text "Default") as Hr.
  pose proof (split_char_nonempty newline product_text) as Hne.
  destruct (rfind product_text "Default" =? -1) eqn:Hfind.
  - apply Z.eqb_eq in Hfind. apply Hr in Hfind. simpl.
    destruct (split_char newline product_text) as [|l0 ls] eqn:Hsplit; [done|].
    rewrite <- Hsplit.
    set (last_line := strip (List.last (split_char newline product_text) EmptyString)).
    assert (last_line <> "Default") as Hlast.
    { intros Heq. apply Hfind. rewrite <- Heq.
      eapply substring_of_trans; [apply strip_substring|].
      apply last_line_substring. }
    split; [done|]. split.
    + intros _ Hs. rewrite Hs. simpl. done.
    + intros _ Hs. rewrite Hs. simpl.
      by rewrite (proj2 (String.eqb_neq _ _) Hlast).
  - apply Z.eqb_neq in Hfind. simpl.
    assert (substring_of "Default" product_text) as Hin.
    { destruct (substring_of_dec "Default" product_text) as [H|H]; [done|].
      by apply Hr in H. }
    split; [done|]. split; intros Hno; by destruct Hno.
Qed.
End extraction_facts.

Section pattern_in_span.
Import PyStr.

Lemma length_append_str (a b : string) :
  String.length (a +:+ b) = (String.length a + String.length b)%nat.
Proof. induction a as [|c a IH]; [done|]. rewrite append_cons. simpl. by rewrite IH. Qed.

Lemma drop_append (a b : string) : drop (String.length a) (a +:+ b) = b.
Proof. induction a as [|c a IH]; [done|]. by rewrite append_cons. Qed.

Lemma take_drop_str (n : nat) (s : string) : take n s +:+ drop n s = s.
Proof.
  revert s. induction n as [|n IH]; intros [|c s]; try done.
  simpl. rewrite append_cons. by rewrite IH.
Qed.

Lemma length_take_le (n : nat) (s : string) :
  (String.length (take n s) <= n)%nat.
Proof.
  revert s. induction n as [|n IH]; intros [|c s]; simpl; try lia.
  specialize (IH s). lia.
Qed.

Lemma length_take_str (n : nat) (s : string) :
  (n <= String.length s)%nat -> String.length (take n s) = n.
Proof.
  revert s. induction n as [|n IH]; intros [|c s]; simpl; try lia.
  intros H. rewrite IH; lia.
Qed.

Lemma span_append (p : ascii -> bool) (s a b : string) :
  span p s = (a, b) -> s = a +:+ b.
Proof.
  revert a b. induction s as [|c s IH]; intros a b; simpl.
  - by intros [= <- <-].
  - destruct (p c).
    + destruct (span p s) as [a' b'] eqn:Hs. intros [= <- <-].
      rewrite append_cons. by rewrite (IH a' b' eq_refl).
    + by intros [= <- <-].
Qed.

(** What follows the prefix taken by [span] is not touched by text added
    at the end. *)
Lemma span_stop (p : ascii -> bool) (s a b q : string) :
  span p s = (a, b) -> b <> EmptyString -> span p (s +:+ q) = (a, b +:+ q).
Proof.
  revert a b. induction s as [|c s IH]; intros a b; simpl.
  - by intros [= <- <-].
  - rewrite ?append_cons. simpl. destruct (p c) eqn:Hc.
    + destruct (span p s) as [a' b'] eqn:Hs. intros [= <- <-] Hb.
      by rewrite (IH a' b' eq_refl Hb).
    + intros [= <- <-] _. by rewrite ?append_cons.
Qed.

Lemma span_nonempty (p : ascii -> bool) (s q : string) :
  Re.nonempty (span p s).1 = true -> Re.nonempty (span p (s +:+ q)).1 = true.
Proof.
  destruct s as [|c s]; [done|]. rewrite append_cons. simpl.
  destruct (p c); [|done].
  by destruct (span p s), (span p (s +:+ q)).
Qed.

Lemma span_head (p : ascii -> bool) (s : string) :
  Re.nonempty (span p s).1 = true -> s <> EmptyString.
Proof. by destruct s. Qed.

(** A match of the sku/qty pattern stays a match when text is added after
    it. *)
Lemma SKU_QTY_PATTERN_at_append (s q : string) :
  is_Some (Re.SKU_QTY_PATTERN_at s) -> is_Some (Re.SKU_QTY_PATTERN_at (s +:+ q)).
Proof.
  unfold Re.SKU_QTY_PATTERN_at. destruct s as [|c s1]; [by intros [? ?]|].
  rewrite append_cons.
  destruct (Ascii.eqb_spec c "T") as [->|Hc].
  2:{ destruct c as [[] [] [] [] [] [] [] []]; try done; by intros [? ?]. }
  destruct (span isdigit s1) as [d1 s2] eqn:H1.
  destruct (span isspace s2) as [w s3] eqn:H2.
  destruct (span isdigit s3) as [d2 s4] eqn:H3.
  destruct (Re.nonempty d1) eqn:Hd1; [|by intros [? ?]].
  destruct (Re.nonempty w) eqn:Hw; [|by intros [? ?]].
  destruct (Re.nonempty d2) eqn:Hd2; [|by intros [? ?]].
  intros _.
  assert (s3 <> EmptyString) as Hs3
    by (apply (span_head isdigit); by rewrite H3).
  assert (s2 <> EmptyString) as Hs2
    by (apply (span_head isspace); by rewrite H2).
  rewrite (span_stop isdigit s1 d1 s2 q H1 Hs2).
  rewrite (span_stop isspace s2 w s3 q H2 Hs3).
  pose proof (span_nonempty isdigit s3 q) as Hq. rewrite H3 in Hq.
  specialize (Hq Hd2). destruct (span isdigit (s3 +:+ q)) as [d2' s4'].
  simpl in Hq. rewrite Hd1, Hw, Hq. by eexists.
Qed.

Lemma SKU_QTY_PATTERN_at_nonempty (s : string) :
  is_Some (Re.SKU_QTY_PATTERN_at s) -> s <> EmptyString.
Proof. destruct s; [by intros [? ?]|done]. Qed.

Lemma search_found {A} (match_at : string -> option A) (s : string) :
  is_Some (Re.search match_at s)
  <-> exists pre suffix, s = pre +:+ suffix /\ is_Some (match_at suffix).
Proof.
  induction s as [|c s IH]; simpl.
  - destruct (match_at EmptyString) eqn:Hm.
    + split; [|by eexists]. intros _. exists EmptyString, EmptyString.
      by rewrite Hm.
    + split; [by intros [? ?]|]. intros ([|? pre] & suffix & Heq & Hs).
      * rewrite append_nil_l in Heq. subst suffix. rewrite Hm in Hs.
        by destruct Hs.
      * by rewrite append_cons in Heq.
  - destruct (match_at (String c s)) eqn:Hm.
    + split; [|by eexists]. intros _. exists EmptyString, (String c s).
      by rewrite Hm.
    + rewrite IH. split.
      * intros (pre & suffix & -> & Hs). by exists (String c pre), suffix.
      * intros ([|c' pre] & suffix & Heq & Hs).
        -- rewrite append_nil_l in Heq. subst suffix. rewrite Hm in Hs.
           by destruct Hs.
        -- rewrite append_cons in Heq. injection Heq as -> ->.
           by exists pre, suffix.
Qed.

(** The bounds of the matches of a scan. *)
Lemma SKU_QTY_PATTERN_scan_bounds (s : string) (skip : nat) (pos : Z)
    (m : Re.sku_qty_match) :
  m ∈ Re.SKU_QTY_PATTERN_scan skip pos s ->
  pos + Z.of_nat skip <= Re.m_start m /\ Re.m_start m < Re.m_end m.
Proof.
  revert skip pos. induction s as [|c s IH]; intros skip pos;
    cbn [Re.SKU_QTY_PATTERN_scan]; [by intros H; apply not_elem_of_nil in H|].
  destruct skip as [|k].
  - destruct (Re.SKU_QTY_PATTERN_at (String c s)) as [[[g1 g2] len]|] eqn:Hm.
    + intros H. apply elem_of_cons in H as [->|H].
      * simpl. split; [lia|]. unfold Re.SKU_QTY_PATTERN_at in Hm.
        destruct (Ascii.eqb_spec c "T") as [->|Hc].
        2:{ destruct c as [[] [] [] [] [] [] [] []]; try done. }
        destruct (span isdigit s) as [d1 s2].
        destruct (span isspace s2) as [w s3].
        destruct (span isdigit s3) as [d2 s4].
        destruct (_ && _); [|done]. injection Hm as _ _ <-. lia.
      * apply IH in H. lia.
    + intros H. apply IH in H. lia.
  - intros H. apply IH in H. lia.
Qed.

(** No match starts between the place where a scan resumes and its first
    match. *)
Lemma SKU_QTY_PATTERN_scan_first (s : string) (skip : nat) (pos : Z)
    (m : Re.sku_qty_match) (k : nat) :
  Re.SKU_QTY_PATTERN_scan skip pos s !! 0%nat = Some m ->
  pos + Z.of_nat skip <= pos + Z.of_nat k < Re.m_start m ->
  Re.SKU_QTY_PATTERN_at (drop k s) = None.
Proof.
  revert skip pos k. induction s as [|c s IH]; intros skip pos k;
    cbn [Re.SKU_QTY_PATTERN_scan]; [done|].
  destruct skip as [|k0].
  - destruct (Re.SKU_QTY_PATTERN_at (String c s)) as [[[g1 g2] len]|] eqn:Hm.
    + intros [= <-]. simpl. lia.
    + intros H Hk. destruct k as [|k]; [done|]. simpl.
      apply (IH 0%nat (pos + 1) k H). lia.
  - intros H Hk. destruct k as [|k]; [lia|]. simpl.
    apply (IH k0 (pos + 1) k H). lia.
Qed.

(** No match starts between the end of a match of a scan and the start of
    the next one. *)
Lemma SKU_QTY_PATTERN_scan_next (s : string) (skip : nat) (pos : Z)
    (i : nat) (m' m : Re.sku_qty_match) (k : nat) :
  Re.SKU_QTY_PATTERN_scan skip pos s !! i = Some m' ->
  Re.SKU_QTY_PATTERN_scan skip pos s !! S i = Some m ->
  Re.m_end m' <= pos + Z.of_nat k < Re.m_start m ->
  Re.SKU_QTY_PATTERN_at (drop k s) = None.
Proof.
  revert skip pos i k. induction s as [|c s IH]; intros skip pos i k;
    cbn [Re.SKU_QTY_PATTERN_scan]; [done|].
  assert (forall sk j (l := Re.SKU_QTY_PATTERN_scan sk (pos + 1) s),
             l !! j = Some m' -> l !! S j = Some m ->
             Re.m_end m' <= pos + Z.of_nat k < Re.m_start m ->
             Re.SKU_QTY_PATTERN_at (drop k (String c s)) = None) as Hshift.
  { intros sk j l Hi HSi Hk.
    destruct (SKU_QTY_PATTERN_scan_bounds s sk (pos + 1) m')
      as [Hlo Hlt]; [by eapply list_elem_of_lookup_2|].
    destruct k as [|k]; [lia|]. simpl.
    apply (IH sk (pos + 1) j k Hi HSi). lia. }
  destruct skip as [|k0]; [|apply Hshift].
  destruct (Re.SKU_QTY_PATTERN_at (String c s)) as [[[g1 g2] len]|] eqn:Hm;
    [|apply Hshift].
  destruct i as [|i].
  - intros [= <-] HSi Hk. simpl in HSi, Hk.
    destruct k as [|k]; [|simpl].
    + assert (0 < len)%nat; [|lia].
      unfold Re.SKU_QTY_PATTERN_at in Hm.
      destruct (Ascii.eqb_spec c "T") as [->|Hc].
      2:{ destruct c as [[] [] [] [] [] [] [] []]; try done. }
      destruct (span isdigit s) as [d1 s2].
      destruct (span isspace s2) as [w s3].
      destruct (span isdigit s3) as [d2 s4].
      destruct (_ && _); [|done]. injection Hm as _ _ <-. lia.
    + apply (SKU_QTY_PATTERN_scan_first s (Nat.pred len) (pos + 1) m k HSi).
      lia.
  - intros Hi HSi. simpl in Hi, HSi. exact (Hshift (Nat.pred len) i Hi HSi).
Qed.

(** A match inside a slice is a match of the sliced text, at a place
    inside the bounds of the slice. *)
Lemma match_in_slice (s : string) (a b : Z) (x y : string) :
  0 <= b ->
  slice s a b = x +:+ y ->
  is_Some (Re.SKU_QTY_PATTERN_at y) ->
  exists k : nat,
    Z.of_nat k < b
    /\ (0 <= a -> a <= Z.of_nat k)
    /\ is_Some (Re.SKU_QTY_PATTERN_at (drop k s)).
Proof.
  intros Hb Hslice Hy. unfold slice in Hslice.
  set (a' := Z.to_nat (norm_index (zlen s) a)) in *.
  set (n := Z.to_nat (norm_index (zlen s) b - norm_index (zlen s) a)) in *.
  pose proof (SKU_QTY_PATTERN_at_nonempty y Hy) as Hyne.
  assert (0 < String.length y)%nat as Hylen by (destruct y; [done|simpl; lia]).
  pose proof (length_take_le n (drop a' s)) as Hn.
  rewrite Hslice, length_append_str in Hn.
  assert (norm_index (zlen s) b <= b) as Hb'.
  { unfold norm_index. destruct (b <? 0) eqn:Hneg; [lia|]. unfold zlen. lia. }
  assert (0 <= norm_index (zlen s) a <= zlen s) as Ha'.
  { unfold norm_index, zlen. lia. }
  exists (a' + String.length x)%nat. split; [unfold a', n in *; lia|]. split.
  - intros Ha. unfold a'.
    assert (norm_index (zlen s) a = a \/ norm_index (zlen s) a = zlen s)
      as [Heq|Heq].
    { unfold norm_index. destruct (a <? 0) eqn:Hneg; [lia|]. lia. }
    + lia.
    + exfalso. unfold n in Hn. rewrite Heq in Hn.
      assert (norm_index (zlen s) b <= zlen s)
        by (unfold norm_index, zlen; lia).
      lia.
  - assert (drop (a' + String.length x) s
            = y +:+ drop n (drop a' s)) as ->.
    { rewrite <- (take_drop_str a' s) at 1.
      rewrite <- (take_drop_str n (drop a' s)) at 1.
      rewrite Hslice, append_assoc, <- append_assoc.
      replace (a' + String.length x)%nat
        with (String.length (take a' s +:+ x)).
      - apply drop_append.
      - rewrite length_append_str, length_take_str; [done|].
        unfold a', zlen in *. lia. }
    by apply SKU_QTY_PATTERN_at_append.
Qed.

(** The name span of a match holds no match of the sku/qty pattern. *)
Lemma name_span_pattern_free (product_section : string) (i : nat)
    (m : Re.sku_qty_match) (product_text t : string) :
  Re.SKU_QTY_PATTERN_finditer product_section !! i = Some m ->
  name_span product_section (Re.SKU_QTY_PATTERN_finditer product_section) i m
  = Some product_text ->
  substring_of t product_text ->
  Re.SKU_QTY_PATTERN_search t = false.
Proof.
  intros Hm Hspan Ht. apply bool_decide_eq_false. intros Hfound.
  apply search_found in Hfound as (pre & suffix & -> & Hsuf).
  unfold name_span in Hspan.
  apply bind_Some in Hspan as (name_start & Hstart & Hspan).
  injection Hspan as <-.
  destruct (substring_of_trans _ _ _ Ht (strip_substring _)) as (p & q & Hslice).
  rewrite !append_assoc, <- append_assoc in Hslice.
  destruct (SKU_QTY_PATTERN_scan_bounds product_section 0 0 m)
    as [Hm0 _]; [by eapply list_elem_of_lookup_2|].
  destruct (match_in_slice product_section name_start (Re.m_start m)
              (p +:+ pre) (suffix +:+ q)) as (k & Hk & Hlo & Hat);
    [lia|done|by apply SKU_QTY_PATTERN_at_append|].
  assert (Re.SKU_QTY_PATTERN_at (drop k product_section) = None) as Hnone.
  { destruct i as [|i].
    - apply (SKU_QTY_PATTERN_scan_first product_section 0 0 m k Hm). lia.
    - destruct (Re.SKU_QTY_PATTERN_finditer product_section !! i)
        as [m'|] eqn:Hm'; [|done].
      simpl in Hstart. injection Hstart as <-.
      destruct (SKU_QTY_PATTERN_scan_bounds product_section 0 0 m')
        as [Hm0' Hlt']; [by eapply list_elem_of_lookup_2|].
      apply (SKU_QTY_PATTERN_scan_next product_section 0 0 i m' m k Hm' Hm).
      lia. }
  rewrite Hnone in Hat. by destruct Hat.
Qed.
End pattern_in_span.

(** C4, as amended.  Every item returned by [extract_items] is built from
    the name span of one match of the sku/qty pattern and follows the
    variation rule on it.  With "Default" anywhere in the span, be it as
    its trailing token, in its middle or inside a word, the recorded
    variation is empty and the name is made of the text before the last
    occurrence of "Default"; otherwise the variation is the last line of
    the span, trimmed.  The code also tests that line against the sku/qty
    pattern, to record an empty variation and the whole span as the name,
    but a name span lies between two matches and holds none, so the test
    never succeeds.  The scenario text yields T100 x 3 and T200 x 1, both
    with an empty variation. *)
Theorem extract_items_variation (page_content : string) :
  (forall it,
      it ∈ extract_items page_content ->
      exists product_section i m product_text,
        product_section_of page_content = Some product_section
        /\ Re.SKU_QTY_PATTERN_finditer product_section !! i = Some m
        /\ name_span product_section
                     (Re.SKU_QTY_PATTERN_finditer product_section) i m
           = Some product_text
        /\ it = make_item product_text m
        /\ variation_rule product_text it
        /\ (~ substring_of "Default" product_text ->
            variation it
            = PyStr.strip
                (List.last (PyStr.split_char newline product_text) EmptyString)))
  /\ sku_qty_variation
       <$> extract_items "Product Name ... Seller SKU Qty T100 3 Default T200 1"
     = [("T100", 3, EmptyString); ("T200", 1, EmptyString)].
Proof.
  split; [|reflexivity].
  intros it Hit. unfold extract_items in Hit.
  destruct (product_section_of page_content) as [product_section|];
    [|by apply not_elem_of_nil in Hit].
  apply list_elem_of_omap in Hit as (x & Hx & Hid). simpl in Hid. subst x.
  apply list_elem_of_lookup in Hx as [i Hi].
  rewrite list_lookup_imap in Hi.
  destruct (Re.SKU_QTY_PATTERN_finditer product_section !! i) as [m|] eqn:Hm;
    [|done].
  simpl in Hi. injection Hi as Hi.
  destruct (name_span product_section
              (Re.SKU_QTY_PATTERN_finditer product_section) i m)
    as [product_text|] eqn:Hspan; [|done].
  simpl in Hi. injection Hi as <-.
  exists product_section, i, m, product_text.
  do 4 (split; [done|]).
  pose proof (make_item_variation product_text m) as Hrule.
  split; [done|]. intros Hno.
  destruct Hrule as (_ & _ & Hlast). apply Hlast; [done|].
  apply (name_span_pattern_free product_section i m product_text); [done|done|].
  eapply substring_of_trans; [apply strip_substring|].
  apply last_line_substring.
Qed.

Lemma extract_items_variation_witness :
  exists product_section i m product_text,
    product_section_of "Product Name SKU Seller SKU Qty Mug Blue T7 2 Qty Total: 2"
    = Some product_section
    /\ Re.SKU_QTY_PATTERN_finditer product_section !! i = Some m
    /\ name_span product_section
                 (Re.SKU_QTY_PATTERN_finditer product_section) i m
       = Some product_text
    /\ {| product_name := "Mug Blue"; variation := "Mug Blue";
          sku := "T7"; qty := 2 |} = make_item product_text m
    /\ variation_rule product_text
         {| product_name := "Mug Blue"; variation := "Mug Blue";
            sku := "T7"; qty := 2 |}
    /\ (~ substring_of "Default" product_text ->
        variation {| product_name := "Mug Blue"; variation := "Mug Blue";
                     sku := "T7"; qty := 2 |}
        = PyStr.strip
            (List.last (PyStr.split_char newline product_text) EmptyString)).
Proof.
  apply (proj1 (extract_items_variation _)).
  vm_compute. apply list_elem_of_here.
Defined.

(** C4 as stated fails: in the name span made of the lines
    "Default Gift Box" and "Red" the trailing token is "Red", not
    "Default", and the last line does not match the sku/qty pattern, so the
    claim makes "Red" the variation; the item has an empty variation and an
    empty name, since "Default" is looked for anywhere in the span. *)
Lemma default_inside_span_suppresses_variation :
  let product_text := "Default Gift Box" +:+ String newline "Red" in
  let page_content :=
    "Product Name SKU Seller SKU Qty " +:+ product_text
    +:+ " T100 3 Qty Total: 3" in
  exists product_section m,
    product_section_of page_content = Some product_section
    /\ Re.SKU_QTY_PATTERN_finditer product_section = [m]
    /\ name_span product_section [m] 0 m = Some product_text
    /\ PyStr.endswith product_text "Default" = false
    /\ PyStr.strip (List.last (PyStr.split_char newline product_text) EmptyString)
       = "Red"
    /\ Re.SKU_QTY_PATTERN_search "Red" = false
    /\ extract_items page_content
       = [{| product_name := EmptyString; variation := EmptyString;
             sku := "T100"; qty := 3 |}].
Proof.
  eexists. eexists. split; [vm_compute; reflexivity|].
  split; [vm_compute; reflexivity|].
  repeat split; vm_compute; reflexivity.
Qed.

(** ** Sorting *)

Section py_sort_facts.
Context {A : Type} (ltb : A -> A -> bool).

Lemma insert_sorted_perm (x : A) (l : list A) :
  insert_sorted ltb x l ≡ₚ x :: l.
Proof.
  induction l as [|y l IH]; simpl; [done|].
  destruct (ltb y x); [|done]. rewrite IH. apply Permutation_swap.
Qed.

Lemma py_sorted_perm (l : list A) : py_sorted ltb l ≡ₚ l.
Proof.
  induction l as [|x l IH]; simpl; [done|].
  by rewrite insert_sorted_perm, IH.
Qed.

Lemma py_sorted_length (l : list A) : length (py_sorted ltb l) = length l.
Proof. by rewrite py_sorted_perm. Qed.
End py_sort_facts.

Section tuple_order.

Lemma string_compare_refl (s : string) : String.compare s s = Eq.
Proof.
  pose proof (String.compare_antisym s s) as H.
  destruct (String.compare s s); simpl in H; congruence.
Qed.

Lemma string_compare_lt (s1 s2 : string) :
  String.compare s1 s2 = Lt <-> (s1 ≤ s2)%string /\ s1 <> s2.
Proof.
  unfold String.le, String.leb. split.
  - intros H. rewrite H. split; [done|]. intros ->.
    rewrite string_compare_refl in H. congruence.
  - intros [Hle Hne]. destruct (String.compare s1 s2) eqn:Hc; [|done|done].
    by apply String.compare_eq_iff in Hc.
Qed.

Lemma string_compare_lt_trans (s1 s2 s3 : string) :
  String.compare s1 s2 = Lt -> String.compare s2 s3 = Lt ->
  String.compare s1 s3 = Lt.
Proof.
  rewrite !string_compare_lt. intros [H12 Hne12] [H23 Hne23]. split.
  - by etrans.
  - intros ->. apply Hne12. by apply (anti_symm String.le).
Qed.

Lemma string_compare_gt (s1 s2 : string) :
  String.compare s1 s2 = Gt <-> String.compare s2 s1 = Lt.
Proof.
  rewrite (String.compare_antisym s2 s1).
  destruct (String.compare s1 s2); simpl; split; congruence.
Qed.

(** [tuple_le a b] unfolded: smaller sku, or same sku and no larger qty. *)
Lemma tuple_le_cases (a b : string * Z) :
  tuple_le a b <->
  String.compare a.1 b.1 = Lt \/ (a.1 = b.1 /\ a.2 <= b.2).
Proof.
  unfold tuple_le, tuple_ltb.
  destruct (String.compare b.1 a.1) eqn:Hc.
  - apply String.compare_eq_iff in Hc. rewrite Z.ltb_ge. split.
    + intros H. right. by split.
    + intros [H|[_ H]]; [|done]. rewrite Hc in H.
      rewrite string_compare_refl in H. congruence.
  - split; [done|]. intros [H|[H _]].
    + apply string_compare_gt in Hc. congruence.
    + rewrite H in Hc. rewrite string_compare_refl in Hc. congruence.
  - split; [|done]. intros _. left. by apply string_compare_gt.
Qed.

Global Instance tuple_le_trans : Transitive tuple_le.
Proof.
  intros a b c. rewrite !tuple_le_cases.
  intros [H1|[E1 H1]] [H2|[E2 H2]].
  - left. by eapply string_compare_lt_trans.
  - left. by rewrite <- E2.
  - left. by rewrite E1.
  - right. split; [congruence|lia].
Qed.

Global Instance tuple_le_antisym : AntiSymm (=) tuple_le.
Proof.
  intros [a1 a2] [b1 b2]. rewrite !tuple_le_cases. simpl.
  intros [H1|[E1 H1]] [H2|[E2 H2]].
  - apply string_compare_gt in H2. congruence.
  - subst. rewrite string_compare_refl in H1. congruence.
  - subst. rewrite string_compare_refl in H2. congruence.
  - f_equal; [done|lia].
Qed.

Lemma tuple_ltb_le (a b : string * Z) : tuple_ltb a b = true -> tuple_le a b.
Proof.
  intros H. apply tuple_le_cases. unfold tuple_ltb in H.
  destruct (String.compare a.1 b.1) eqn:Hc; [|by left|done].
  right. apply String.compare_eq_iff in Hc. apply Z.ltb_lt in H. split; [done|lia].
Qed.

Lemma insert_sorted_tuple_sorted (x : string * Z) (l : list (string * Z)) :
  Sorted tuple_le l -> Sorted tuple_le (insert_sorted tuple_ltb x l).
Proof.
  induction 1 as [|y l Hl IH Hhd]; simpl; [by repeat constructor|].
  destruct (tuple_ltb y x) eqn:Hyx.
  - constructor; [done|].
    destruct l as [|z l]; simpl.
    + constructor. by apply tuple_ltb_le.
    + destruct (tuple_ltb z x); constructor.
      * by inversion Hhd.
      * by apply tuple_ltb_le.
  - constructor; [by constructor|]. by constructor.
Qed.

Lemma py_sorted_tuple_sorted (l : list (string * Z)) :
  Sorted tuple_le (py_sorted tuple_ltb l).
Proof.
  induction l as [|x l IH]; simpl; [constructor|].
  by apply insert_sorted_tuple_sorted.
Qed.

(** [sorted] is canonical: it sends permutations to the same list. *)
Lemma py_sorted_tuple_unique (l1 l2 : list (string * Z)) :
  l1 ≡ₚ l2 -> py_sorted tuple_ltb l1 = py_sorted tuple_ltb l2.
Proof.
  intros Hperm. apply (Sorted_unique tuple_le).
  - apply py_sorted_tuple_sorted.
  - apply py_sorted_tuple_sorted.
  - by rewrite !py_sorted_perm.
Qed.
End tuple_order.

(** C8.  Two orders whose items carry the same (sku, qty) pairs as
    multisets, in whatever order, have equal fingerprints. *)
Theorem fingerprint_order_independent (o1 o2 : order) :
  sku_qty <$> items o1 ≡ₚ sku_qty <$> items o2 ->
  fingerprint o1 = fingerprint o2.
Proof. intros Hperm. unfold fingerprint. by apply py_sorted_tuple_unique. Qed.

Lemma fingerprint_order_independent_witness :
  fingerprint (order_with_items [item_of "T1" 2; item_of "T2" 1] 3 false)
  = fingerprint (order_with_items [item_of "T2" 1; item_of "T1" 2] 3 false).
Proof.
  apply fingerprint_order_independent. simpl. apply Permutation_swap.
Defined.

(** ** The fingerprint dictionary *)

Section fingerprint_facts.
Context (orders : list order).

Lemma group_upto_S (k : nat) (fp : list (string * Z)) :
  group_upto orders (S k) fp
  = group_upto orders k fp
    ++ (if bool_decide (fp_of orders k = Some fp) then [k] else []).
Proof.
  unfold group_upto. rewrite seq_S, List.filter_app. simpl.
  by destruct (bool_decide (fp_of orders k = Some fp)).
Qed.

Lemma elem_of_group_upto (k j : nat) (fp : list (string * Z)) :
  j ∈ group_upto orders k fp <-> (j < k)%nat /\ fp_of orders j = Some fp.
Proof.
  unfold group_upto.
  rewrite list_elem_of_In, List.filter_In, List.in_seq, bool_decide_eq_true.
  intuition lia.
Qed.

Lemma elem_of_fingerprint_group (j : nat) (fp : list (string * Z)) :
  j ∈ fingerprint_group orders fp <-> fp_of orders j = Some fp.
Proof.
  unfold fingerprint_group. rewrite elem_of_group_upto. split; [tauto|].
  intros H. split; [|done]. unfold fp_of in H.
  destruct (orders !! j) eqn:Hj; [|done]. by eapply lookup_lt_Some.
Qed.

Lemma opt_nonempty_snoc {A} (l : list A) (x : A) :
  opt_nonempty (l ++ [x]) = Some (l ++ [x]).
Proof. by destruct l. Qed.

Lemma default_opt_nonempty {A} (l : list A) :
  default [] (opt_nonempty l) = l.
Proof. by destruct l. Qed.

Lemma drop_cons_inv {A} (l : list A) (k : nat) (x : A) (rest : list A) :
  drop k l = x :: rest ->
  l !! k = Some x /\ drop (S k) l = rest /\ (k < length l)%nat.
Proof.
  intros H.
  assert (l !! k = Some x) as Hk.
  { rewrite <- (Nat.add_0_r k), <- lookup_drop, H. done. }
  split; [done|]. split; [|by eapply lookup_lt_Some].
  replace (S k) with (k + 1)%nat by lia. by rewrite <- drop_drop, H.
Qed.

(** The dictionary after the orders below [k]. *)
Lemma fingerprints_loop_lookup (rest : list order) (k : nat)
    (m : gmap (list (string * Z)) (list nat)) :
  (k <= length orders)%nat ->
  drop k orders = rest ->
  (forall fp, m !! fp = opt_nonempty (group_upto orders k fp)) ->
  forall fp,
    fingerprints_loop k rest m !! fp
    = opt_nonempty (fingerprint_group orders fp).
Proof.
  revert k m. induction rest as [|o rest IH]; intros k m Hle Hdrop Hm fp.
  - simpl. rewrite Hm. unfold fingerprint_group.
    apply drop_nil_inv in Hdrop. by replace k with (length orders) by lia.
  - apply drop_cons_inv in Hdrop as (Hk & Hdrop & Hlt). simpl.
    apply IH; [lia|done|]. clear fp. intros fp.
    unfold add_fingerprint. rewrite group_upto_S.
    assert (fp_of orders k = Some (fingerprint o)) as Hfp
      by (unfold fp_of; by rewrite Hk).
    rewrite Hfp. destruct (decide (fingerprint o = fp)) as [<-|Hne].
    + rewrite lookup_insert_eq, bool_decide_eq_true_2 by done.
      by rewrite Hm, default_opt_nonempty, opt_nonempty_snoc.
    + rewrite lookup_insert_ne by done.
      rewrite bool_decide_eq_false_2 by congruence.
      by rewrite app_nil_r.
Qed.

Lemma order_fingerprints_lookup (fp : list (string * Z)) :
  order_fingerprints orders !! fp
  = opt_nonempty (fingerprint_group orders fp).
Proof.
  apply fingerprints_loop_lookup; [lia|done|]. intros fp'.
  by rewrite lookup_empty.
Qed.

(** The group of an order of the batch holds that order. *)
Lemma order_fingerprints_of_order (j : nat) (o : order) :
  orders !! j = Some o ->
  order_fingerprints orders !! fingerprint o
  = Some (fingerprint_group orders (fingerprint o))
  /\ j ∈ fingerprint_group orders (fingerprint o).
Proof.
  intros Hj.
  assert (j ∈ fingerprint_group orders (fingerprint o)) as Hin.
  { apply elem_of_fingerprint_group. unfold fp_of. by rewrite Hj. }
  split; [|done]. rewrite order_fingerprints_lookup.
  destruct (fingerprint_group orders (fingerprint o)); [|done].
  by apply not_elem_of_nil in Hin.
Qed.
End fingerprint_facts.

(** ** The categorisation loop *)

Section filter_facts.
Context {A : Type}.

Lemma head_filter_seq (f : nat -> bool) (a n r : nat) :
  head (List.filter f (seq a n)) = Some r ->
  f r = true /\ (a <= r < a + n)%nat
  /\ forall j, (a <= j < r)%nat -> f j = false.
Proof.
  revert a. induction n as [|n IH]; intros a; simpl; [done|].
  destruct (f a) eqn:Hfa; simpl.
  - intros [= <-]. repeat split; [done|lia|lia|]. intros j Hj. lia.
  - intros H. destruct (IH _ H) as (Hr & Hrange & Hbefore).
    repeat split; [done|lia|lia|]. intros j Hj.
    destruct (decide (j = a)) as [->|Hne]; [done|]. apply Hbefore. lia.
Qed.

Lemma filter_split (f g : A -> bool) (l : list A) :
  (forall x, In x l -> g x = true -> f x = false) ->
  List.filter (fun x => if g x then true else f x) l
  ≡ₚ List.filter f l ++ List.filter g l.
Proof.
  induction l as [|x l IH]; intros Hdisj; simpl; [done|].
  assert (forall y, In y l -> g y = true -> f y = false) as Hl
    by (intros y Hy; apply Hdisj; by right).
  destruct (g x) eqn:Hg.
  - rewrite (Hdisj x) by (done || by left).
    rewrite (IH Hl). apply Permutation_middle.
  - destruct (f x); simpl; by rewrite (IH Hl).
Qed.

Lemma filter_false (f : A -> bool) (l : list A) :
  (forall x, In x l -> f x = false) -> List.filter f l = [].
Proof.
  induction l as [|x l IH]; intros H; simpl; [done|].
  rewrite (H x) by (by left). apply IH. intros y Hy. apply H. by right.
Qed.

Lemma find_first (p : A -> bool) (l : list A) (r : nat) (x : A) :
  l !! r = Some x -> p x = true ->
  (forall j y, (j < r)%nat -> l !! j = Some y -> p y = false) ->
  List.find p l = Some x.
Proof.
  revert r. induction l as [|y l IH]; intros r Hr Hx Hbefore; [done|].
  destruct r as [|r]; simpl in *.
  - injection Hr as ->. by rewrite Hx.
  - rewrite (Hbefore 0%nat y) by (lia || done).
    apply (IH r); [done|done|]. intros j z Hj Hz.
    apply (Hbefore (S j)); [lia|done].
Qed.
End filter_facts.

Lemma occurrences_in_perm (x : nat) (l1 l2 : list nat) :
  l1 ≡ₚ l2 -> occurrences_in x l1 = occurrences_in x l2.
Proof.
  intros H. unfold occurrences_in. induction H; simpl; try congruence.
  - destruct (Nat.eqb x x0); simpl; congruence.
  - destruct (Nat.eqb x x0), (Nat.eqb x y); simpl; congruence.
Qed.

Lemma occurrences_in_filter_seq (f : nat -> bool) (x a n : nat) :
  occurrences_in x (List.filter f (seq a n))
  = if f x && bool_decide (a <= x < a + n)%nat then 1%nat else 0%nat.
Proof.
  unfold occurrences_in. revert a. induction n as [|n IH]; intros a; simpl.
  - rewrite bool_decide_eq_false_2 by lia. by rewrite andb_false_r.
  - destruct (f a) eqn:Hfa; simpl.
    + destruct (Nat.eqb_spec x a) as [->|Hne]; simpl.
      * rewrite IH, Hfa. rewrite bool_decide_eq_false_2 by lia.
        rewrite bool_decide_eq_true_2 by lia. by rewrite andb_false_r.
      * rewrite IH. destruct (f x); simpl; [|done].
        apply (f_equal (fun b : bool => if b then 1%nat else 0%nat)).
        apply bool_decide_ext. lia.
    + rewrite IH. destruct (f x) eqn:Hfx; simpl; [|done].
      apply (f_equal (fun b : bool => if b then 1%nat else 0%nat)).
      apply bool_decide_ext. split; [lia|]. intros H.
      destruct (decide (x = a)) as [->|]; [congruence|lia].
Qed.

Section placement_facts.
Context (orders : list order).
Let occ := sku_occurrences orders.
Let hq0 := initial_high_qty_skus orders occ.

Lemma head_fingerprint_group (fp : list (string * Z)) (r : nat) :
  head (fingerprint_group orders fp) = Some r ->
  fp_of orders r = Some fp
  /\ forall j, (j < r)%nat -> fp_of orders j <> Some fp.
Proof.
  intros H. apply head_filter_seq in H as (Hr & _ & Hbefore).
  apply bool_decide_eq_true in Hr. split; [done|]. intros j Hj.
  specialize (Hbefore j). rewrite bool_decide_eq_false in Hbefore.
  apply Hbefore. lia.
Qed.

(** Every order of the batch has a representative, which is an earlier
    order with the same fingerprint. *)
Lemma placement_total (j : nat) (o : order) :
  orders !! j = Some o ->
  exists r o',
    head (fingerprint_group orders (fingerprint o)) = Some r
    /\ orders !! r = Some o'
    /\ fingerprint o' = fingerprint o
    /\ (r <= j)%nat
    /\ placement orders j = Some (r, destination_of hq0 occ o').
Proof.
  intros Hj. destruct (order_fingerprints_of_order orders j o Hj) as [_ Hin].
  destruct (head (fingerprint_group orders (fingerprint o))) as [r|] eqn:Hr.
  2:{ apply head_None in Hr. rewrite Hr in Hin. by apply not_elem_of_nil in Hin. }
  destruct (head_fingerprint_group _ _ Hr) as [Hfr Hbefore].
  unfold fp_of in Hfr. destruct (orders !! r) as [o'|] eqn:Hor; [|done].
  injection Hfr as Hfr. exists r, o'. repeat split; [done|done| |].
  - destruct (decide (r <= j)%nat); [done|]. exfalso.
    apply (Hbefore j); [lia|]. unfold fp_of. by rewrite Hj.
  - unfold placement. rewrite Hj. simpl. rewrite Hr. simpl. by rewrite Hor.
Qed.

Lemma placement_Some (j r : nat) (d : destination) :
  placement orders j = Some (r, d) ->
  exists o o',
    orders !! j = Some o /\ orders !! r = Some o'
    /\ head (fingerprint_group orders (fingerprint o)) = Some r
    /\ fingerprint o' = fingerprint o
    /\ d = destination_of hq0 occ o'.
Proof.
  unfold placement. intros H.
  destruct (orders !! j) as [o|] eqn:Hj; [|done].
  destruct (placement_total j o Hj) as (r' & o' & Hr & Hor & Hfp & _ & Hp).
  unfold placement in Hp. rewrite Hj in Hp. rewrite Hp in H.
  injection H as <- <-. by exists o, o'.
Qed.

Lemma placed_before_S (k : nat) (o : order) (d : destination) (j : nat) :
  orders !! k = Some o ->
  placed_before orders (S k) d j
  = (if joins orders k o d j then true else placed_before orders k d j)
  /\ (joins orders k o d j = true -> placed_before orders k d j = false).
Proof.
  intros Hk. unfold placed_before.
  destruct (placement orders j) as [[r d']|] eqn:Hp.
  - apply placement_Some in Hp as (oj & o' & Hj & Hor & Hr & Hfp & ->).
    destruct (decide (r = k)) as [->|Hne].
    + assert (o' = o) as -> by congruence.
      unfold joins. rewrite Hfp in *. rewrite Hr.
      assert (fp_of orders j = Some (fingerprint oj)) as ->
        by (unfold fp_of; by rewrite Hj).
      rewrite (bool_decide_eq_true_2 (k < S k)%nat) by lia.
      rewrite (bool_decide_eq_false_2 (k < k)%nat) by lia.
      rewrite (bool_decide_eq_true_2 (Some k = Some k)) by done.
      rewrite (bool_decide_eq_true_2 (Some (fingerprint oj) = _)) by done.
      simpl. unfold hq0, occ.
      split; [by destruct (bool_decide _)|done].
    + assert (joins orders k o d j = false) as ->.
      { unfold joins. apply not_true_is_false. rewrite !andb_true_iff.
        rewrite !bool_decide_eq_true. intros [[Hhead _] Hsame].
        unfold fp_of in Hsame. rewrite Hj in Hsame. injection Hsame as Hsame.
        rewrite Hsame in Hr. congruence. }
      split; [|done]. f_equal. apply bool_decide_ext. lia.
  - split; [|done]. unfold joins.
    destruct (bool_decide (fp_of orders j = Some (fingerprint o))) eqn:Hsame;
      [|by rewrite andb_false_r].
    apply bool_decide_eq_true in Hsame. unfold fp_of in Hsame.
    destruct (orders !! j) as [oj|] eqn:Hj; [|done].
    destruct (placement_total j oj Hj) as (? & ? & _ & _ & _ & _ & Hp').
    congruence.
Qed.

Lemma placed_step (k : nat) (o : order) (d : destination) :
  orders !! k = Some o ->
  List.filter (placed_before orders (S k) d) (seq 0 (length orders))
  ≡ₚ List.filter (placed_before orders k d) (seq 0 (length orders))
     ++ (if bool_decide
              (head (fingerprint_group orders (fingerprint o)) = Some k)
            && bool_decide (destination_of hq0 occ o = d)
         then fingerprint_group orders (fingerprint o) else []).
Proof.
  intros Hk.
  rewrite (List.filter_ext _ (fun j => if joins orders k o d j then true
                                       else placed_before orders k d j))
    by (intros j; by apply placed_before_S).
  rewrite filter_split by (intros j _; by apply placed_before_S).
  apply Permutation_app_head. unfold joins.
  destruct (bool_decide _ && bool_decide _); simpl; [done|].
  by rewrite filter_false.
Qed.
End placement_facts.

Section categorize_facts.
Context (orders : list order).
Let occ := sku_occurrences orders.
Let hq0 := initial_high_qty_skus orders occ.
Let fps := order_fingerprints orders.

Lemma initial_high_qty_orders (s : string) (info : high_qty_info) :
  hq0 !! s = Some info -> hq_orders info = [].
Proof.
  unfold hq0, initial_high_qty_skus. rewrite map_lookup_imap.
  destruct (occ !! s) as [count|]; [|done]. simpl. unfold high_qty_entry.
  destruct (100 <=? count); [|done].
  destruct (first_order_of_sku orders s) as [o|]; [|done]. simpl.
  destruct (head (items o)); [|done]. simpl. by intros [= <-].
Qed.

Lemma categorize_inv_init :
  categorize_inv orders 0 {| bucket := fun _ => []; high_qty := hq0 |}.
Proof.
  assert (forall d, List.filter (placed_before orders 0 d)
                                (seq 0 (length orders)) = []) as Hnil.
  { intros d. apply filter_false. intros j _. unfold placed_before.
    destruct (placement orders j) as [[r d']|]; [|done].
    by rewrite bool_decide_eq_false_2 by lia. }
  split.
  - intros b. simpl. by rewrite Hnil.
  - intros s. simpl. fold occ. fold hq0.
    destruct (hq0 !! s) as [info|] eqn:Hs; [|done].
    split; [done|]. by rewrite Hnil, (initial_high_qty_orders s info).
Qed.

(** The loop tests membership in [high_qty_skus], whose keys never change. *)
Lemma high_qty_sku_of_inv (k : nat) (st : sort_state) (o : order) :
  categorize_inv orders k st ->
  high_qty_sku_of (high_qty st) o = high_qty_sku_of hq0 o.
Proof.
  intros [_ Hhq]. unfold high_qty_sku_of.
  destruct (single_unit_sku o) as [s|]; [|done].
  specialize (Hhq s). fold occ in Hhq. fold hq0 in Hhq.
  destruct (high_qty st !! s) as [info|].
  - destruct Hhq as [Hsome _].
    rewrite !decide_True; [done|done|by eexists].
  - rewrite Hhq. rewrite !decide_False; [done|by intros [? ?]..].
Qed.

(** What an iteration on a representative does. *)
Lemma categorize_representative (k : nat) (st : sort_state) (o : order) :
  categorize_inv orders k st ->
  orders !! k = Some o ->
  head (fingerprint_group orders (fingerprint o)) = Some k ->
  categorize occ fps st k o
  = Some match destination_of hq0 occ o with
         | to_high_qty s =>
             collect_high_qty s (fingerprint_group orders (fingerprint o)) st
         | to_leaf b =>
             extend b (fingerprint_group orders (fingerprint o)) st
         end.
Proof.
  intros Hinv Hk Hhead. unfold categorize, fps.
  rewrite (proj1 (order_fingerprints_of_order orders k o Hk)). simpl.
  rewrite Hhead. simpl. rewrite decide_False by (intros H; by apply H).
  rewrite (high_qty_sku_of_inv k st o Hinv). unfold destination_of.
  destruct (high_qty_sku_of hq0 o); [done|].
  destruct (warehouse_eligible occ o); [|done].
  by destruct (is_hazmat o).
Qed.

Lemma categorize_step (k : nat) (st : sort_state) (o : order) :
  categorize_inv orders k st ->
  orders !! k = Some o ->
  exists st',
    categorize occ fps st k o = Some st'
    /\ categorize_inv orders (S k) st'.
Proof.
  intros Hinv Hk.
  destruct (placement_total orders k o Hk) as (r & o' & Hr & Hor & Hfp & Hle & _).
  destruct (decide (k = r)) as [<-|Hne].
  - rewrite (categorize_representative k st o Hinv Hk Hr).
    eexists. split; [done|]. destruct Hinv as [Hb Hhq].
    assert (forall d, List.filter (placed_before orders (S k) d)
                        (seq 0 (length orders))
              ≡ₚ List.filter (placed_before orders k d) (seq 0 (length orders))
                 ++ (if bool_decide (destination_of hq0 occ o = d)
                     then fingerprint_group orders (fingerprint o) else []))
      as Hstep.
    { intros d. rewrite (placed_step orders k o d Hk).
      by rewrite (bool_decide_eq_true_2 _ Hr). }
    destruct (destination_of hq0 occ o) as [s|b0] eqn:Hd.
    + assert (is_Some (high_qty st !! s)) as [info Hinfo].
      { unfold destination_of in Hd.
        rewrite <- (high_qty_sku_of_inv k st o (conj Hb Hhq)) in Hd.
        unfold high_qty_sku_of in Hd.
        destruct (single_unit_sku o) as [s'|]; [|by repeat case_match].
        destruct (decide (is_Some (high_qty st !! s'))); [|by repeat case_match].
        by injection Hd as <-. }
      split.
      * intros b. simpl. rewrite Hb, Hstep.
        rewrite bool_decide_eq_false_2 by done. by rewrite app_nil_r.
      * intros s'. simpl. destruct (decide (s' = s)) as [->|Hs].
        -- rewrite lookup_alter_eq, Hinfo. simpl.
           specialize (Hhq s). rewrite Hinfo in Hhq. destruct Hhq as [? Hperm].
           split; [done|]. rewrite Hperm, Hstep.
           by rewrite bool_decide_eq_true_2.
        -- rewrite lookup_alter_ne by done. specialize (Hhq s').
           destruct (high_qty st !! s'); [|done].
           destruct Hhq as [? Hperm]. split; [done|].
           rewrite Hperm, Hstep. rewrite bool_decide_eq_false_2 by congruence.
           by rewrite app_nil_r.
    + split.
      * intros b. simpl. rewrite Hstep. destruct (decide (b = b0)) as [->|Hb0].
        -- rewrite bool_decide_eq_true_2 by done. by rewrite Hb.
        -- rewrite bool_decide_eq_false_2 by congruence.
           by rewrite app_nil_r, Hb.
      * intros s. simpl. specialize (Hhq s).
        destruct (high_qty st !! s); [|done].
        destruct Hhq as [? Hperm]. split; [done|].
        rewrite Hperm, Hstep. rewrite bool_decide_eq_false_2 by done.
        by rewrite app_nil_r.
  - exists st. split.
    + unfold categorize, fps.
      rewrite (proj1 (order_fingerprints_of_order orders k o Hk)). simpl.
      rewrite Hr. simpl. by rewrite decide_True.
    + assert (forall d, List.filter (placed_before orders (S k) d)
                          (seq 0 (length orders))
                ≡ₚ List.filter (placed_before orders k d)
                               (seq 0 (length orders))) as Hstep.
      { intros d. rewrite (placed_step orders k o d Hk).
        rewrite (bool_decide_eq_false_2 (head _ = Some k)) by congruence.
        by rewrite app_nil_r. }
      destruct Hinv as [Hb Hhq]. split.
      * intros b. by rewrite Hstep.
      * intros s. specialize (Hhq s). destruct (high_qty st !! s); [|done].
        destruct Hhq as [? Hperm]. split; [done|]. by rewrite Hstep.
Qed.

Lemma categorize_loop_inv (rest : list order) (k : nat) (st : sort_state) :
  drop k orders = rest ->
  categorize_inv orders k st ->
  exists st',
    categorize_loop occ fps k rest st = Some st'
    /\ categorize_inv orders (length orders) st'.
Proof.
  revert k st. induction rest as [|o rest IH]; intros k st Hdrop Hinv.
  - exists st. split; [done|]. apply drop_nil_inv in Hdrop.
    destruct Hinv as [Hb Hhq].
    assert (forall d j, placed_before orders (length orders) d j
                        = placed_before orders k d j) as Heq.
    { intros d j. unfold placed_before.
      destruct (placement orders j) as [[r d']|] eqn:Hp; [|done].
      apply placement_Some in Hp as (_ & o' & _ & Hor & _).
      apply lookup_lt_Some in Hor. f_equal. apply bool_decide_ext. lia. }
    split.
    + intros b. rewrite Hb. by rewrite (List.filter_ext _ _ (Heq _)).
    + intros s. specialize (Hhq s). destruct (high_qty st !! s); [|done].
      destruct Hhq as [? Hperm]. split; [done|].
      rewrite Hperm. by rewrite (List.filter_ext _ _ (Heq _)).
  - apply drop_cons_inv in Hdrop as (Hk & Hdrop & _). simpl.
    destruct (categorize_step k st o Hinv Hk) as (st' & -> & Hinv'). simpl.
    by apply IH.
Qed.
End categorize_facts.

(** ** The sorted result *)

Section sort_orders_facts.
Context (orders : list order).
Let occ := sku_occurrences orders.
Let hq0 := initial_high_qty_skus orders occ.
Let fps := order_fingerprints orders.

Lemma fingerprint_length (o : order) :
  length (fingerprint o) = length (items o).
Proof. unfold fingerprint. by rewrite py_sorted_length, length_fmap. Qed.

Lemma elem_of_placed (k : nat) (d : destination) (x : nat) :
  x ∈ List.filter (placed_before orders k d) (seq 0 (length orders)) ->
  exists r, placement orders x = Some (r, d).
Proof.
  rewrite list_elem_of_In, List.filter_In. intros [_ H].
  unfold placed_before in H.
  destruct (placement orders x) as [[r d']|]; [|done].
  apply andb_true_iff in H as [_ H]. apply bool_decide_eq_true in H.
  subst. by exists r.
Qed.

Lemma elem_of_placed_at (d : destination) (x : nat) :
  x ∈ placed_at orders d <-> exists r, placement orders x = Some (r, d).
Proof.
  split; [apply elem_of_placed|]. intros [r Hp]. unfold placed_at.
  rewrite list_elem_of_In, List.filter_In, List.in_seq.
  unfold placed_before. rewrite Hp.
  apply placement_Some in Hp as (o & o' & Hx & Hr & _).
  apply lookup_lt_Some in Hx. apply lookup_lt_Some in Hr.
  split; [lia|]. by rewrite !bool_decide_eq_true_2.
Qed.

(** A group sent to a warehouse bucket has a one-item representative. *)
Lemma destination_warehouse (hq : gmap string high_qty_info) (o : order)
    (b : leaf) :
  destination_of hq occ o = to_leaf b ->
  is_warehouse_leaf b = true ->
  exists it, items o = [it].
Proof.
  unfold destination_of. destruct (high_qty_sku_of hq o); [done|].
  destruct (warehouse_eligible occ o) eqn:Hw.
  - intros _ _. unfold warehouse_eligible, single_unit_sku in Hw.
    destruct (items o) as [|it [|]]; [done| |done]. by exists it.
  - intros [= <-]. unfold packingroom_leaf.
    by repeat case_match.
Qed.

(** Orders placed in a warehouse bucket have exactly one item. *)
Lemma placed_warehouse_one_item (b : leaf) (x r : nat) :
  is_warehouse_leaf b = true ->
  placement orders x = Some (r, to_leaf b) ->
  exists o it, orders !! x = Some o /\ items o = [it].
Proof.
  intros Hb Hp.
  apply placement_Some in Hp as (o & o' & Hx & Hr & _ & Hfp & Hd).
  symmetry in Hd. destruct (destination_warehouse _ _ _ Hd Hb) as [it' Hit].
  apply (f_equal length) in Hfp. rewrite !fingerprint_length, Hit in Hfp.
  destruct (items o) as [|it [|]] eqn:Ho; [done| |done]. by exists o, it.
Qed.

Lemma sort_by_key_total (key : nat -> option Z) (reverse : bool)
    (l : list nat) :
  (forall x, x ∈ l -> is_Some (key x)) ->
  exists l', sort_by_key key reverse l = Some l' /\ l' ≡ₚ l.
Proof.
  intros Hkey. unfold sort_by_key.
  destruct (mapM (fun x => (fun k => (x, k)) <$> key x) l) as [keyed|] eqn:Hm.
  - simpl. eexists. split; [done|]. rewrite py_sorted_perm.
    apply mapM_Some in Hm. clear Hkey.
    induction Hm as [|x y l k Hxy _ IH]; [done|].
    destruct (key x); [|done]. injection Hxy as <-. simpl. by rewrite IH.
  - apply mapM_None in Hm. apply Exists_exists in Hm as (x & Hx & Hnone).
    destruct (Hkey x Hx) as [k Hk]. by rewrite Hk in Hnone.
Qed.

Lemma get_order_frequency_total (x : nat) (o : order) :
  orders !! x = Some o ->
  is_Some (get_order_frequency orders
             ((fun indices => Z.of_nat (length indices)) <$> fps) x).
Proof.
  intros Hx. unfold get_order_frequency. rewrite Hx. simpl.
  rewrite lookup_fmap. unfold fps.
  rewrite (proj1 (order_fingerprints_of_order orders x o Hx)). by eexists.
Qed.

Lemma sort_leaf_total (st : sort_state) (b : leaf) :
  categorize_inv orders (length orders) st ->
  exists l,
    sort_leaf orders occ ((fun indices => Z.of_nat (length indices)) <$> fps)
              st b = Some l
    /\ l ≡ₚ placed_at orders (to_leaf b).
Proof.
  intros [Hb _]. unfold sort_leaf.
  assert (forall x, x ∈ bucket st b ->
                    exists r, placement orders x = Some (r, to_leaf b)) as Hin.
  { intros x Hx. rewrite Hb in Hx. by apply elem_of_placed in Hx. }
  destruct (is_warehouse_leaf b) eqn:Hw.
  - destruct (sort_by_key_total (warehouse_key orders occ) false (bucket st b))
      as (l & -> & Hperm).
    { intros x Hx. destruct (Hin x Hx) as [r Hp].
      destruct (placed_warehouse_one_item b x r Hw Hp) as (o & it & Ho & Hit).
      unfold warehouse_key. rewrite Ho. simpl. rewrite Hit. by eexists. }
    exists l. split; [done|]. by rewrite Hperm, Hb.
  - destruct (sort_by_key_total
                (get_order_frequency orders
                   ((fun indices => Z.of_nat (length indices)) <$> fps))
                true (bucket st b)) as (l & -> & Hperm).
    { intros x Hx. destruct (Hin x Hx) as [r Hp].
      apply placement_Some in Hp as (o & _ & Ho & _).
      by eapply get_order_frequency_total. }
    exists l. split; [done|]. by rewrite Hperm, Hb.
Qed.

(** [sort_orders] returns, and its containers hold the placed orders. *)
Lemma sort_orders_spec :
  exists r,
    sort_orders orders = Some r
    /\ (forall b, leaf_bucket r b ≡ₚ placed_at orders (to_leaf b))
    /\ (forall s info,
           high_qty_skus r !! s = Some info ->
           hq_orders info ≡ₚ placed_at orders (to_high_qty s))
    /\ (forall s, is_Some (hq0 !! s) -> is_Some (high_qty_skus r !! s)).
Proof.
  unfold sort_orders. fold occ. fold hq0. fold fps.
  destruct (categorize_loop_inv orders orders 0
              {| bucket := fun _ => []; high_qty := hq0 |})
    as (st & Hloop & Hinv); [done|apply categorize_inv_init|].
  fold occ in Hloop. fold fps in Hloop. rewrite Hloop. simpl.
  destruct (sort_leaf_total st warehouse_hazmat Hinv) as (wh & -> & Hwh).
  destruct (sort_leaf_total st warehouse_ground Hinv) as (wg & -> & Hwg).
  destruct (sort_leaf_total st packingroom_hazmat_single_item Hinv)
    as (phi & -> & Hphi).
  destruct (sort_leaf_total st packingroom_hazmat_single_sku Hinv)
    as (phs & -> & Hphs).
  destruct (sort_leaf_total st packingroom_hazmat_multi_sku Hinv)
    as (phm & -> & Hphm).
  destruct (sort_leaf_total st packingroom_ground_single_item Hinv)
    as (pgi & -> & Hpgi).
  destruct (sort_leaf_total st packingroom_ground_single_sku Hinv)
    as (pgs & -> & Hpgs).
  destruct (sort_leaf_total st packingroom_ground_multi_sku Hinv)
    as (pgm & -> & Hpgm).
  simpl. eexists. split; [done|]. simpl. destruct Hinv as [_ Hhq].
  split; [by intros []|]. split.
  - intros s info Hs. specialize (Hhq s). rewrite Hs in Hhq. by destruct Hhq.
  - intros s Hsome. specialize (Hhq s).
    destruct (high_qty st !! s); [by eexists|].
    fold occ in Hhq. fold hq0 in Hhq. rewrite Hhq in Hsome.
    by destruct Hsome.
Qed.

(** A group sent to the high-quantity output goes to a sku of
    [high_qty_skus]. *)
Lemma destination_high_qty (o : order) (s : string) :
  destination_of hq0 occ o = to_high_qty s -> is_Some (hq0 !! s).
Proof.
  unfold destination_of, high_qty_sku_of.
  destruct (single_unit_sku o) as [s'|]; [|by repeat case_match].
  destruct (decide (is_Some (hq0 !! s'))); [|by repeat case_match].
  by intros [= <-].
Qed.

Lemma occurrences_in_placed_at (x : nat) (d : destination) :
  occurrences_in x (placed_at orders d)
  = if bool_decide (snd <$> placement orders x = Some d)
    then 1%nat else 0%nat.
Proof.
  unfold placed_at. rewrite occurrences_in_filter_seq. unfold placed_before.
  destruct (placement orders x) as [[r d']|] eqn:Hp; simpl; [|done].
  apply placement_Some in Hp as (o & o' & Hx & Hr & _).
  apply lookup_lt_Some in Hx. apply lookup_lt_Some in Hr.
  rewrite (bool_decide_eq_true_2 (r < _)%nat) by lia.
  rewrite (bool_decide_eq_true_2 (0 <= x < _)%nat) by lia.
  rewrite andb_true_r. simpl.
  destruct (decide (d' = d)) as [->|Hne].
  - by rewrite !bool_decide_eq_true_2.
  - by rewrite !bool_decide_eq_false_2 by congruence.
Qed.
End sort_orders_facts.

(** C10.  [sort_orders] always returns: no lookup of the categorisation
    loop and no sort key raises.  Every order of the two warehouse buckets
    has exactly one item, so the key [order['items'][0]['sku']] of the
    warehouse sort is in bounds. *)
Theorem warehouse_orders_have_one_item (orders : list order) :
  exists r,
    sort_orders orders = Some r
    /\ forall x,
        x ∈ warehouse_all r ->
        exists o it, orders !! x = Some o /\ items o = [it].
Proof.
  destruct (sort_orders_spec orders) as (r & Hr & Hleaf & _).
  exists r. split; [done|]. intros x Hx. unfold warehouse_all in Hx.
  apply elem_of_app in Hx as [Hx|Hx]; rewrite Hleaf in Hx;
    apply elem_of_placed_at in Hx as [rep Hp];
    (eapply placed_warehouse_one_item; [|exact Hp]; reflexivity).
Qed.

(** C6.  Every order of the batch that is not extracted into a
    high-quantity group occurs exactly once in exactly one of the eight
    leaf buckets, and in no other. *)
Theorem leaf_buckets_partition (orders : list order) (i : nat) :
  (i < length orders)%nat ->
  exists r,
    sort_orders orders = Some r
    /\ (~ in_high_qty_group r i ->
        exists b, forall b',
            occurrences_in i (leaf_bucket r b')
            = if decide (b' = b) then 1%nat else 0%nat).
Proof.
  intros Hi. destruct (sort_orders_spec orders) as (r & Hr & Hleaf & Hhq & Hkeys).
  exists r. split; [done|]. intros Hnot.
  destruct (lookup_lt_is_Some_2 orders i Hi) as [o Ho].
  destruct (placement_total orders i o Ho) as (rep & o' & _ & _ & _ & _ & Hp).
  destruct (destination_of _ _ o') as [s|b] eqn:Hd.
  - exfalso. apply Hnot.
    destruct (Hkeys s (destination_high_qty orders o' s Hd)) as [info Hinfo].
    exists s, info. split; [done|]. rewrite (Hhq s info Hinfo).
    apply elem_of_placed_at. by exists rep.
  - exists b. intros b'.
    rewrite (occurrences_in_perm i _ _ (Hleaf b')), occurrences_in_placed_at.
    rewrite Hp. simpl. destruct (decide (b' = b)) as [->|Hne].
    + by rewrite bool_decide_eq_true_2.
    + by rewrite bool_decide_eq_false_2 by congruence.
Qed.

Lemma leaf_buckets_partition_witness :
  exists r,
    sort_orders [order_with_items [item_of "T1" 1] 1 false;
                 order_with_items [item_of "T2" 3] 3 true;
                 order_with_items [item_of "T1" 1] 1 false] = Some r
    /\ exists b, forall b',
        occurrences_in 2 (leaf_bucket r b')
        = if decide (b' = b) then 1%nat else 0%nat.
Proof.
  destruct (leaf_buckets_partition
              [order_with_items [item_of "T1" 1] 1 false;
               order_with_items [item_of "T2" 3] 3 true;
               order_with_items [item_of "T1" 1] 1 false] 2)
    as (r & Hr & Hpart); [simpl; lia|].
  exists r. split; [exact Hr|]. apply Hpart.
  intros (s & info & Hinfo & _).
  vm_compute in Hr. injection Hr as <-. vm_compute in Hinfo. discriminate.
Defined.

(** C3, as amended.  An order without items is never extracted into a
    high-quantity group and lands in a packing-room [multi_sku] bucket: the
    hazmat one when the first order of the batch without items is flagged
    hazmat, the ground one otherwise. *)
Theorem empty_order_bucket (orders : list order) (i : nat) (o : order) :
  orders !! i = Some o ->
  items o = [] ->
  exists r rep,
    sort_orders orders = Some r
    /\ first_empty_order orders = Some rep
    /\ i ∈ leaf_bucket r (if is_hazmat rep then packingroom_hazmat_multi_sku
                          else packingroom_ground_multi_sku)
    /\ ~ in_high_qty_group r i.
Proof.
  intros Ho Hempty.
  destruct (sort_orders_spec orders) as (r & Hr & Hleaf & Hhq & _).
  destruct (placement_total orders i o Ho)
    as (rep & o' & Hhead & Hrep & Hfp & _ & Hp).
  assert (items o' = []) as Hempty'.
  { apply (f_equal length) in Hfp. rewrite !fingerprint_length, Hempty in Hfp.
    by destruct (items o'). }
  assert (destination_of
            (initial_high_qty_skus orders (sku_occurrences orders))
            (sku_occurrences orders) o'
          = to_leaf (if is_hazmat o' then packingroom_hazmat_multi_sku
                     else packingroom_ground_multi_sku)) as Hd.
  { unfold destination_of, high_qty_sku_of, warehouse_eligible,
      single_unit_sku, packingroom_leaf.
    rewrite Hempty'. by destruct (is_hazmat o'). }
  rewrite Hd in Hp. exists r, o'. split; [done|]. split; [|split].
  - apply (find_first _ _ rep); [done|by rewrite Hempty'|].
    intros j y Hj Hy. apply bool_decide_eq_false. intros Hy'.
    destruct (head_fingerprint_group orders _ _ Hhead) as [_ Hbefore].
    apply (Hbefore j Hj). unfold fp_of. rewrite Hy. simpl. f_equal.
    unfold fingerprint. by rewrite Hy', Hempty.
  - rewrite Hleaf. apply elem_of_placed_at. by exists rep.
  - intros (s & info & Hinfo & Hin). rewrite (Hhq s info Hinfo) in Hin.
    apply elem_of_placed_at in Hin as [rep' Hp']. congruence.
Qed.

Lemma empty_order_bucket_witness :
  exists r rep,
    sort_orders [order_with_items [item_of "T1" 1] 1 false;
                 order_with_items [] 0 true;
                 order_with_items [] 0 false] = Some r
    /\ first_empty_order
         [order_with_items [item_of "T1" 1] 1 false;
          order_with_items [] 0 true;
          order_with_items [] 0 false] = Some rep
    /\ 2%nat ∈ leaf_bucket r (if is_hazmat rep then packingroom_hazmat_multi_sku
                              else packingroom_ground_multi_sku)
    /\ ~ in_high_qty_group r 2.
Proof.
  apply (empty_order_bucket _ 2%nat (order_with_items [] 0 false));
    reflexivity.
Defined.

(** C3 as stated fails: a single hazmat order without items is not
    extracted as high-quantity, and it is placed in the hazmat
    [multi_sku] bucket, not in the ground one. *)
Lemma empty_hazmat_order_not_ground :
  exists r,
    sort_orders [order_with_items [] 0 true] = Some r
    /\ ~ in_high_qty_group r 0
    /\ leaf_bucket r packingroom_ground_multi_sku = []
    /\ leaf_bucket r packingroom_hazmat_multi_sku = [0%nat].
Proof.
  eexists. split; [vm_compute; reflexivity|]. split; [|by split].
  intros (s & info & Hinfo & _). by vm_compute in Hinfo.
Qed.

(** ** The batch driver *)

Section batch_facts.
Context (hazmat_keywords : list string).

Lemma hazmat_in_spec (page_text : string) :
  hazmat_in hazmat_keywords page_text = true <->
  exists keyword, keyword ∈ hazmat_keywords /\ occurs_ci keyword page_text.
Proof.
  unfold hazmat_in, occurs_ci. rewrite existsb_exists. split.
  - intros (kw & Hin & H). exists kw. split; [by apply list_elem_of_In|].
    by apply contains_spec.
  - intros (kw & Hin & H). exists kw. split; [by apply list_elem_of_In|].
    by apply contains_spec.
Qed.

Lemma process_slips_hazmat (label_text : string) (slips : list string)
    (acc : slip_acc) :
  acc_is_hazmat (foldl (process_slip hazmat_keywords label_text) acc slips)
  = acc_is_hazmat acc || existsb (hazmat_in hazmat_keywords) slips.
Proof.
  revert acc. induction slips as [|p slips IH]; intros acc; simpl.
  - by rewrite orb_false_r.
  - rewrite IH. simpl.
    destruct (hazmat_in hazmat_keywords p), (acc_is_hazmat acc); done.
Qed.

Lemma order_of_group_hazmat (pdf_file : string) (g : label_group) :
  hazmat_rule hazmat_keywords (order_of_group hazmat_keywords pdf_file g).
Proof.
  unfold hazmat_rule, order_of_group. simpl.
  rewrite process_slips_hazmat. simpl. rewrite existsb_exists. split.
  - intros (p & Hin & H). apply hazmat_in_spec in H as (kw & Hkw & Hocc).
    exists kw, p. split; [done|]. split; [by apply list_elem_of_In|done].
  - intros (kw & p & Hkw & Hin & Hocc). exists p.
    split; [by apply list_elem_of_In|]. apply hazmat_in_spec. by exists kw.
Qed.

Lemma order_of_pair_hazmat (pdf_file : string) (i : nat)
    (label_text page_text : string) :
  hazmat_rule hazmat_keywords
    (order_of_pair hazmat_keywords pdf_file i label_text page_text).
Proof.
  unfold hazmat_rule, order_of_pair. simpl. rewrite hazmat_in_spec. split.
  - intros (kw & Hkw & Hocc). exists kw, page_text.
    split; [done|]. split; [apply list_elem_of_here|done].
  - intros (kw & p & Hkw & Hin & Hocc).
    apply list_elem_of_singleton in Hin as ->. by exists kw.
Qed.

Lemma check_duplicate_orders (tn oid : option string) (st : batch_state) :
  all_orders (check_duplicate tn oid st) = all_orders st.
Proof. unfold check_duplicate. by destruct (truthy tn). Qed.

Lemma note_slip_count_orders (n : nat) (st : batch_state) :
  all_orders (note_slip_count n st) = all_orders st.
Proof. unfold note_slip_count. by destruct (1 <? n)%nat. Qed.

Lemma process_groups_hazmat (pdf_file : string) (groups : list label_group)
    (st : batch_state) :
  Forall (hazmat_rule hazmat_keywords) (all_orders st) ->
  Forall (hazmat_rule hazmat_keywords)
         (all_orders (foldl (process_group hazmat_keywords pdf_file) st groups)).
Proof.
  revert st. induction groups as [|g groups IH]; intros st Hst; [done|].
  simpl. apply IH. unfold process_group. simpl.
  rewrite check_duplicate_orders, note_slip_count_orders.
  apply Forall_app. split; [done|]. constructor; [|constructor].
  apply order_of_group_hazmat.
Qed.

Lemma fallback_loop_hazmat (pdf_file : string) (rest : list string) :
  forall (i : nat) (st : batch_state),
    Forall (hazmat_rule hazmat_keywords) (all_orders st) ->
    Forall (hazmat_rule hazmat_keywords)
           (all_orders (fallback_loop hazmat_keywords pdf_file i rest st)).
Proof.
  assert (forall n rest, (length rest <= n)%nat ->
            forall (i : nat) (st : batch_state),
              Forall (hazmat_rule hazmat_keywords) (all_orders st) ->
              Forall (hazmat_rule hazmat_keywords)
                (all_orders (fallback_loop hazmat_keywords pdf_file i rest st)))
    as Hgen.
  { clear rest. induction n as [|n IH]; intros rest Hlen i st Hst.
    - destruct rest; [done|simpl in Hlen; lia].
    - destruct rest as [|a [|b rest]]; [done|done|]. simpl.
      apply IH; [simpl in Hlen; lia|]. simpl.
      rewrite check_duplicate_orders. apply Forall_app. split; [done|].
      constructor; [|constructor]. apply order_of_pair_hazmat. }
  by apply (Hgen (length rest)).
Qed.

Lemma process_document_hazmat (st : batch_state)
    (file : string * list string) :
  Forall (hazmat_rule hazmat_keywords) (all_orders st) ->
  exists st',
    process_document hazmat_keywords st file = Some st'
    /\ Forall (hazmat_rule hazmat_keywords) (all_orders st').
Proof.
  intros Hst. destruct file as [pdf_file pdf_document].
  unfold process_document.
  destruct (group_loop_spec pdf_document (length pdf_document) 0 [])
    as (gs & Hrun & _); [lia|].
  unfold group_label_with_packing_slips. rewrite Hrun. simpl.
  destruct gs as [|g gs]; eexists; (split; [done|]).
  - by apply fallback_loop_hazmat.
  - by apply (process_groups_hazmat pdf_file (g :: gs)).
Qed.

Lemma process_documents_hazmat (files : list (string * list string))
    (st : batch_state) :
  Forall (hazmat_rule hazmat_keywords) (all_orders st) ->
  exists st',
    process_documents hazmat_keywords files st = Some st'
    /\ Forall (hazmat_rule hazmat_keywords) (all_orders st').
Proof.
  revert st. induction files as [|file files IH]; intros st Hst; simpl.
  - by exists st.
  - destruct (process_document_hazmat st file Hst) as (st1 & -> & Hst1).
    simpl. by apply IH.
Qed.
End batch_facts.

(** C2, as amended.  Every order built from a batch, in the grouped mode
    and in the fallback pairing alike, is flagged hazmat exactly when some
    configured keyword occurs, ignoring case, in the text of one of its own
    packing slips; the text of the label page plays no part. *)
Theorem hazmat_flag_rule (hazmat_keywords : list string)
    (files : list (string * list string)) :
  exists st,
    process_documents hazmat_keywords files initial_batch_state = Some st
    /\ Forall (hazmat_rule hazmat_keywords) (all_orders st).
Proof. apply process_documents_hazmat. constructor. Qed.

(** C2 as stated fails: in the fallback pairing a keyword in the label
    text leaves the order unflagged. *)
Lemma fallback_label_keyword_ignored :
  exists st o,
    group_label_with_packing_slips ["SHIP FROM: perfume store"; "Carrier: UPS"]
    = Some []
    /\ process_documents HAZMAT_KEYWORDS
         [("a.pdf", ["SHIP FROM: perfume store"; "Carrier: UPS"])]
         initial_batch_state = Some st
    /\ all_orders st = [o]
    /\ pages o = ("SHIP FROM: perfume store", ["Carrier: UPS"])
    /\ "perfume" ∈ HAZMAT_KEYWORDS
    /\ occurs_ci "perfume" (pages o).1
    /\ is_hazmat o = false.
Proof.
  eexists. eexists. split; [reflexivity|]. split; [vm_compute; reflexivity|].
  split; [reflexivity|]. split; [reflexivity|].
  split; [by apply list_elem_of_In; vm_compute; tauto|].
  split; [|reflexivity]. apply contains_spec. reflexivity.
Qed.

(** C1, as amended.  An order with a non-empty tracking number is
    recorded in the set of seen numbers and adds one to [total_orders],
    whether or not the number was seen before; when it was not, the
    duplicate statistics are untouched; when it was, the number joins the
    duplicates set and the detail "Tracking: X, Order: Y" is appended to
    the log.  An order without tracking number changes nothing. *)
Theorem duplicate_tracking_rule (tracking_number order_id : option string)
    (st : batch_state) :
  (forall t,
      tracking_number = Some t -> t <> EmptyString ->
      let st' := check_duplicate tracking_number order_id st in
      t ∈ all_tracking_numbers st'
      /\ total_orders st' = total_orders st + 1
      /\ (t ∉ all_tracking_numbers st ->
          duplicate_tracking_numbers st' = duplicate_tracking_numbers st
          /\ duplicate_details st' = duplicate_details st)
      /\ (t ∈ all_tracking_numbers st ->
          t ∈ duplicate_tracking_numbers st'
          /\ duplicate_details st'
             = duplicate_details st
               ++ ["Tracking: " +:+ t +:+ ", Order: " +:+ str_of_option order_id]))
  /\ (truthy tracking_number = false ->
      check_duplicate tracking_number order_id st = st).
Proof.
  split.
  - intros t -> Ht. unfold check_duplicate.
    assert (truthy (Some t) = true) as -> by (by destruct t).
    simpl. split; [set_solver|]. split; [done|]. split.
    + intros Hnew. by rewrite bool_decide_eq_false_2.
    + intros Hseen. rewrite bool_decide_eq_true_2 by done.
      split; [set_solver|done].
  - intros Hfalse. unfold check_duplicate. by rewrite Hfalse.
Qed.

Lemma duplicate_tracking_rule_witness :
  let st1 := check_duplicate (Some "1Z999") (Some "41") initial_batch_state in
  let st2 := check_duplicate (Some "1Z999") (Some "42") st1 in
  (total_orders st1 = 1 /\ duplicate_details st1 = [])
  /\ (total_orders st2 = 2
      /\ duplicate_details st2 = ["Tracking: 1Z999, Order: 42"])
  /\ check_duplicate None (Some "43") st2 = st2.
Proof.
  intros st1 st2.
  destruct (duplicate_tracking_rule (Some "1Z999") (Some "41")
              initial_batch_state) as [H1 _].
  destruct (H1 "1Z999" eq_refl ltac:(discriminate)) as (Hin1 & Ht1 & Hnew & _).
  destruct (duplicate_tracking_rule (Some "1Z999") (Some "42") st1) as [H2 _].
  destruct (H2 "1Z999" eq_refl ltac:(discriminate)) as (_ & Ht2 & _ & Hdup).
  destruct (Hnew ltac:(apply not_elem_of_empty)) as [_ Hd1].
  destruct (Hdup Hin1) as [_ Hd2].
  split; [split; [exact Ht1|exact Hd1]|].
  split; [split|].
  - fold st1 in Ht1. fold st2 in Ht2. rewrite Ht2, Ht1. reflexivity.
  - fold st1 in Hd1. fold st2 in Hd2. rewrite Hd2, Hd1. reflexivity.
  - apply (proj2 (duplicate_tracking_rule None (Some "43") st2)). reflexivity.
Defined.

(** C1 as stated fails: of two clusters carrying the tracking number
    1Z999 the second is logged as a duplicate and still counted, so the
    batch reports two orders. *)
Lemma duplicate_order_is_counted :
  exists result effects,
    process_pdfs
      [("a.pdf", ["SHIP FROM: depot Tracking Number: 1Z999";
                  "Order ID: 41 Product Name SKU Seller SKU Qty Widget T100 1 Qty Total: 1"]);
       ("b.pdf", ["SHIP FROM: depot Tracking Number: 1Z999";
                  "Order ID: 42 Product Name SKU Seller SKU Qty Gadget T200 1 Qty Total: 1"])]
      HAZMAT_KEYWORDS "0.1 seconds"
    = Some (result, effects)
    /\ result !! "total_orders" = Some (VInt 2)
    /\ result !! "duplicate_orders" = Some (VInt 1)
    /\ result !! "duplicate_details"
       = Some (VList ["Tracking: 1Z999, Order: 42"]).
Proof.
  eexists. eexists. split; [vm_compute; reflexivity|].
  repeat split; vm_compute; reflexivity.
Qed.

(** C9, as amended.  With no entry of the input folder named [*.pdf]
    (in any letter case), [process_pdfs] returns without raising, creates
    no directory and writes no file, and its result is the dictionary
    [{'success': False}]: no other key is present. *)
Theorem no_input_documents (input_folder : list (string * list string))
    (hazmat_keywords : list string) (time_str : string) :
  (forall f, f ∈ input_folder ->
             PyStr.endswith (PyStr.lower f.1) ".pdf" = false) ->
  exists result,
    process_pdfs input_folder hazmat_keywords time_str = Some (result, [])
    /\ result !! "success" = Some (VBool false)
    /\ forall key, key <> "success" -> result !! key = None.
Proof.
  intros Hnone. exists {[ "success" := VBool false ]}. unfold process_pdfs.
  rewrite filter_false
    by (intros f Hf; apply Hnone; by apply list_elem_of_In).
  split; [done|]. split; [apply lookup_singleton_eq|].
  intros key Hkey. by apply lookup_singleton_ne.
Qed.

Lemma no_input_documents_witness :
  exists result,
    process_pdfs [("notes.txt", ["SHIP FROM: depot"]); ("scan.PDF.bak", [])]
                 HAZMAT_KEYWORDS "0.0 seconds" = Some (result, [])
    /\ result !! "success" = Some (VBool false)
    /\ forall key, key <> "success" -> result !! key = None.
Proof.
  apply no_input_documents. intros f Hf.
  apply list_elem_of_In in Hf. simpl in Hf.
  destruct Hf as [<-|[<-|[]]]; reflexivity.
Defined.

(** C9 as stated fails: the result for an empty folder carries none of
    the statistics of the result contract. *)
Lemma empty_folder_result_has_no_statistics :
  exists result,
    process_pdfs [] HAZMAT_KEYWORDS "0.0 seconds" = Some (result, [])
    /\ result !! "success" = Some (VBool false)
    /\ result !! "total_orders" = None
    /\ result !! "duplicate_orders" = None
    /\ result !! "duplicate_details" = None
    /\ result !! "processing_time" = None
    /\ result !! "multi_slip_orders" = None
    /\ result !! "max_slips_per_order" = None.
Proof.
  eexists. split; [reflexivity|]. repeat split; vm_compute; reflexivity.
Qed.

(** * Further properties *)

(** ** More on grouping *)

Section grouping_shape.

Lemma scan_clusters_shape (types : list page_type) (i : nat)
    (cs : list (nat * list nat)) :
  grouping_scan types i cs ->
  Forall (fun c : nat * list nat =>
            types !! c.1 = Some label
            /\ c.2 = seq (S c.1) (length c.2)
            /\ forall k, k ∈ c.2 -> types !! k = Some packing_slip) cs.
Proof.
  induction 1 as [i Hi|i j cs Hi Hj Hslips Hstop _ IH|i cs Hi Hnext _ IH
                  |i cs Hi _ IH]; try done.
  constructor; [|done]. simpl. split; [done|]. split.
  - by rewrite length_seq.
  - intros k Hk. apply elem_of_seq in Hk. apply Hslips. lia.
Qed.

Lemma scan_clusters_in_order (types : list page_type) (i : nat)
    (cs : list (nat * list nat)) :
  grouping_scan types i cs -> clusters_in_order i cs.
Proof.
  induction 1 as [i Hi|i j cs Hi Hj Hslips Hstop _ IH|i cs Hi Hnext _ IH
                  |i cs Hi _ IH]; try done.
  - cbn [clusters_in_order]. split; [lia|]. rewrite length_seq.
    by replace (S i + (j - S i))%nat with j by lia.
  - destruct cs as [|[l slips] cs]; [done|]. simpl in *. split; [lia|tauto].
  - destruct cs as [|[l slips] cs]; [done|]. simpl in *. split; [lia|tauto].
Qed.

Lemma scan_empty_iff (types : list page_type) (i : nat)
    (cs : list (nat * list nat)) :
  grouping_scan types i cs ->
  cs = [] <->
  forall k, (i <= k)%nat ->
            ~ (types !! k = Some label /\ types !! S k = Some packing_slip).
Proof.
  induction 1 as [i Hi|i j cs Hi Hj Hslips Hstop _ IH|i cs Hi Hnext _ IH
                  |i cs Hi _ IH].
  - split; [|done]. intros _ k Hk [Hl _].
    apply lookup_ge_None in Hi.
    assert (types !! k = None) by (apply lookup_ge_None; lia). congruence.
  - split; [done|]. intros Hnone. exfalso. apply (Hnone i); [lia|].
    split; [done|]. apply Hslips. lia.
  - rewrite IH. split.
    + intros Hafter k Hk. destruct (decide (k = i)) as [->|Hne].
      * by intros [_ Hs].
      * apply Hafter. lia.
    + intros Hfrom k Hk. apply Hfrom. lia.
  - rewrite IH. split.
    + intros Hafter k Hk. destruct (decide (k = i)) as [->|Hne].
      * intros [Hl _]. congruence.
      * apply Hafter. lia.
    + intros Hfrom k Hk. apply Hfrom. lia.
Qed.
End grouping_shape.

(** X1.  Every cluster returned for a document is a page classified as
    label followed by its packing slips: the slips are the pages at the
    indices right after the label, there is at least one, and each is
    classified as packing slip. *)
Theorem clusters_are_label_then_slips (pdf_document : list string) :
  exists groups,
    group_label_with_packing_slips pdf_document = Some groups
    /\ Forall (cluster_shape pdf_document) groups.
Proof.
  destruct (group_loop_spec pdf_document (length pdf_document) 0 [])
    as (gs & Hrun & Hscan & Hok); [lia|].
  exists gs. split; [done|].
  apply scan_clusters_shape in Hscan.
  rewrite Forall_fmap in Hscan.
  apply Forall_forall. intros g Hg.
  rewrite Forall_forall in Hscan. rewrite Forall_forall in Hok.
  destruct (Hscan g Hg) as (Hl & Hseq & Hslip). destruct (Hok g Hg) as (Hlp & Hne & Hf2).
  unfold cluster_indices in *. simpl in *.
  assert (length (packing_slip_indices g) = length (packing_slips g)) as Hlen
    by (by eapply Forall2_length).
  rewrite list_lookup_fmap, Hlp in Hl. injection Hl as Hl.
  split; [done|]. split; [done|]. split; [done|].
  split; [by rewrite <- Hlen|]. split; [|done].
  clear Hseq Hlen Hne. induction Hf2 as [|idx page idxs pages Hidx _ IH];
    [constructor|].
  constructor.
  - specialize (Hslip idx ltac:(apply list_elem_of_here)).
    rewrite list_lookup_fmap, Hidx in Hslip. by injection Hslip.
  - apply IH. intros k Hk. apply Hslip. by apply list_elem_of_further.
Qed.

(** X2.  The clusters come in page order and never share a page: each
    cluster starts after the last packing slip of the one before. *)
Theorem clusters_do_not_overlap (pdf_document : list string) :
  exists groups,
    group_label_with_packing_slips pdf_document = Some groups
    /\ clusters_in_order 0 (cluster_indices <$> groups)
    /\ Forall (fun g => length (packing_slip_indices g)
                        = length (packing_slips g)) groups.
Proof.
  destruct (group_loop_spec pdf_document (length pdf_document) 0 [])
    as (gs & Hrun & Hscan & Hok); [lia|].
  exists gs. split; [done|]. split; [by eapply scan_clusters_in_order|].
  eapply Forall_impl; [exact Hok|]. intros g (_ & _ & Hf2).
  by eapply Forall2_length.
Qed.

(** X3.  The grouping returns no cluster, which is what sends a document
    to the fixed two-page pairing, exactly when no page classified as label
    is immediately followed by a page classified as packing slip. *)
Theorem no_cluster_iff_no_label_then_slip (pdf_document : list string) :
  group_label_with_packing_slips pdf_document = Some []
  <-> forall k, ~ label_then_slip pdf_document k.
Proof.
  destruct (group_loop_spec pdf_document (length pdf_document) 0 [])
    as (gs & Hrun & Hscan & _); [lia|].
  unfold group_label_with_packing_slips. rewrite Hrun. simpl.
  pose proof (scan_empty_iff _ _ _ Hscan) as Hiff.
  unfold label_then_slip. split.
  - intros [= ->]. intros k Hk. apply (proj1 Hiff eq_refl k); [lia|].
    by rewrite !list_lookup_fmap.
  - intros Hnone. f_equal.
    assert (cluster_indices <$> gs = []) as Hnil.
    { apply Hiff. intros k _ Hk. apply (Hnone k).
      by rewrite !list_lookup_fmap in Hk. }
    by destruct gs.
Qed.

(** ** More on extraction *)

Section extraction_more.
Import PyStr.

Lemma span_spec (p : ascii -> bool) (s a b : string) :
  span p s = (a, b) -> all_chars p a = true /\ s = a +:+ b.
Proof.
  revert a b. induction s as [|c s IH]; intros a b; simpl.
  - by intros [= <- <-].
  - destruct (p c) eqn:Hc.
    + destruct (span p s) as [a' b'] eqn:Hs. intros [= <- <-].
      destruct (IH a' b' eq_refl) as [Ha ->]. simpl. by rewrite Hc, Ha.
    + by intros [= <- <-].
Qed.

Lemma search_Some {A} (match_at : string -> option A) (s : string) (r : A) :
  Re.search match_at s = Some r ->
  exists pre suffix, s = pre +:+ suffix /\ match_at suffix = Some r.
Proof.
  induction s as [|c s IH]; simpl.
  - destruct (match_at EmptyString) eqn:Hm; [|done].
    intros [= <-]. by exists EmptyString, EmptyString.
  - destruct (match_at (String c s)) eqn:Hm.
    + intros [= <-]. by exists EmptyString, (String c s).
    + intros H. destruct (IH H) as (pre & suffix & -> & Hs).
      by exists (String c pre), suffix.
Qed.

Lemma nonempty_spec (s : string) : Re.nonempty s = true <-> s <> EmptyString.
Proof. by destruct s. Qed.

Lemma isalnum_not_space (c : ascii) : isalnum c = true -> isspace c = false.
Proof.
  destruct c as [[] [] [] [] [] [] [] []]; vm_compute; congruence.
Qed.

Lemma lstrip_id (s : string) :
  all_chars (fun c => negb (isspace c)) s = true -> lstrip s = s.
Proof.
  destruct s as [|c s]; simpl; [done|].
  intros H. apply andb_true_iff in H as [Hc _].
  by destruct (isspace c).
Qed.

Lemma rstrip_id (s : string) :
  all_chars (fun c => negb (isspace c)) s = true -> rstrip s = s.
Proof.
  induction s as [|c s IH]; simpl; [done|].
  intros H. apply andb_true_iff in H as [Hc Hs]. rewrite (IH Hs).
  destruct s; [|done]. by destruct (isspace c).
Qed.

Lemma all_chars_impl (p q : ascii -> bool) (s : string) :
  (forall c, p c = true -> q c = true) ->
  all_chars p s = true -> all_chars q s = true.
Proof.
  intros Hpq. induction s as [|c s IH]; simpl; [done|].
  intros H. apply andb_true_iff in H as [Hc Hs].
  by rewrite (Hpq c Hc), (IH Hs).
Qed.

Lemma strip_alnum (s : string) :
  all_chars isalnum s = true -> strip s = s.
Proof.
  intros H.
  assert (all_chars (fun c => negb (isspace c)) s = true) as Hns.
  { eapply all_chars_impl; [|exact H].
    intros c Hc. by rewrite (isalnum_not_space c Hc). }
  unfold strip. by rewrite (lstrip_id s Hns), (rstrip_id s Hns).
Qed.

Lemma tracking_tail_wf (s g : string) :
  Re.tracking_tail s = Some g ->
  g <> EmptyString /\ all_chars isalnum g = true.
Proof.
  unfold Re.tracking_tail.
  destruct (span isspace (Re.eat_opt ":" s)) as [w s2].
  destruct (span isalnum s2) as [g' rest] eqn:Hg.
  destruct (Re.nonempty g') eqn:Hne; [|done]. intros [= <-].
  split; [by apply nonempty_spec|]. by apply span_spec in Hg as [Hg _].
Qed.

Lemma tracking_pattern_wf (pattern : string -> option string) (s g : string) :
  pattern ∈ Re.TRACKING_PATTERNS ->
  pattern s = Some g ->
  g <> EmptyString /\ all_chars isalnum g = true.
Proof.
  unfold Re.TRACKING_PATTERNS. rewrite !elem_of_cons, elem_of_nil.
  intros [->|[->|[->|[]]]];
    unfold Re.TRACKING_PATTERN_0_at, Re.TRACKING_PATTERN_1_at,
      Re.TRACKING_PATTERN_2_at; intros H.
  - apply bind_Some in H as (s1 & _ & H).
    destruct (span isspace s1) as [w s2]. cbv beta iota in H.
    apply bind_Some in H as (s3 & _ & H).
    by apply (tracking_tail_wf s3).
  - apply bind_Some in H as (s1 & _ & H).
    by apply (tracking_tail_wf s1).
  - apply bind_Some in H as (s1 & _ & H).
    destruct (span isspace s1) as [w s2]. cbv beta iota in H.
    apply bind_Some in H as (s3 & _ & H).
    by apply (tracking_tail_wf s3).
Qed.

Lemma first_tracking_match_wf (patterns : list (string -> option string))
    (page_text t : string) :
  (forall pattern, pattern ∈ patterns -> pattern ∈ Re.TRACKING_PATTERNS) ->
  first_tracking_match patterns page_text = Some t ->
  t <> EmptyString /\ all_chars isalnum t = true.
Proof.
  induction patterns as [|pattern rest IH]; intros Hsub; simpl; [done|].
  destruct (Re.search pattern page_text) as [g|] eqn:Hs.
  - intros [= <-]. apply search_Some in Hs as (pre & suffix & _ & Hm).
    destruct (tracking_pattern_wf pattern suffix g) as [Hne Hal];
      [apply Hsub, list_elem_of_here|done|].
    by rewrite (strip_alnum g Hal).
  - apply IH. intros p Hp. apply Hsub. by apply list_elem_of_further.
Qed.
End extraction_more.

(** X4.  A tracking number returned by [extract_tracking_number] is never
    empty and consists of letters and digits only; the test
    [if tracking_number:] of the batch therefore succeeds on every
    extracted number. *)
Theorem extracted_tracking_number_wellformed (page_text t : string) :
  extract_tracking_number page_text = Some t ->
  t <> EmptyString
  /\ all_chars PyStr.isalnum t = true
  /\ truthy (Some t) = true.
Proof.
  intros H. destruct (first_tracking_match_wf Re.TRACKING_PATTERNS page_text t)
    as [Hne Hal]; [done|done|].
  split; [done|]. split; [done|]. by apply nonempty_spec.
Qed.

Lemma extracted_tracking_number_wellformed_witness :
  "1Z999" <> EmptyString
  /\ all_chars PyStr.isalnum "1Z999" = true
  /\ truthy (Some "1Z999") = true.
Proof.
  apply (extracted_tracking_number_wellformed
           "SHIP FROM: depot TRK #: 1Z999 UPS GROUND").
  reflexivity.
Defined.

(** X5.  An order id returned by [extract_order_id] is a non-empty run of
    decimal digits, found after an occurrence of "Order ID:" in the text. *)
Theorem extracted_order_id_wellformed (page_text d : string) :
  extract_order_id page_text = Some d ->
  d <> EmptyString
  /\ all_chars PyStr.isdigit d = true
  /\ substring_of "Order ID:" page_text.
Proof.
  unfold extract_order_id. intros H.
  apply search_Some in H as (pre & suffix & -> & Hm).
  unfold Re.ORDER_ID_PATTERN_at in Hm.
  apply bind_Some in Hm as (s1 & Heat & Hm).
  destruct (PyStr.span PyStr.isspace s1) as [w s2].
  destruct (PyStr.span PyStr.isdigit s2) as [d' rest] eqn:Hd.
  destruct (Re.nonempty d') eqn:Hne; [|done]. injection Hm as <-.
  split; [by apply nonempty_spec|]. split; [by apply span_spec in Hd as [Hd _]|].
  assert (forall lit s r, Re.eat lit s = Some r -> s = lit +:+ r) as Heat_spec.
  { clear. induction lit as [|a lit IH]; intros s r; simpl.
    - by intros [= ->].
    - destruct s as [|b s]; [done|].
      destruct (Ascii.eqb_spec a b) as [->|]; [|done].
      intros H. by rewrite (IH s r H). }
  exists pre, s1. by rewrite (Heat_spec _ _ _ Heat).
Qed.

Lemma extracted_order_id_wellformed_witness :
  "5771" <> EmptyString
  /\ all_chars PyStr.isdigit "5771" = true
  /\ substring_of "Order ID:" "Packing Slip Order ID: 5771 Ship To: X".
Proof.
  apply extracted_order_id_wellformed. reflexivity.
Defined.

Section items_more.
Import PyStr.

Lemma find_at_spec (sub s : string) (pos : Z) :
  (contains sub s = false -> find_at sub s pos = -1)
  /\ (contains sub s = true -> pos <= find_at sub s pos).
Proof.
  revert pos. induction s as [|c s IH]; intros pos; simpl.
  - rewrite orb_false_r. destruct (startswith sub EmptyString); split; (done || lia).
  - destruct (startswith sub (String c s)); simpl; [split; (done || lia)|].
    destruct (IH (pos + 1)) as [Hnone Hsome]. split; [done|].
    intros H. specialize (Hsome H). lia.
Qed.

Lemma find_missing (s sub : string) :
  ~ substring_of sub s -> find s sub = -1.
Proof.
  rewrite <- contains_spec. intros H. unfold find, find_from.
  change (0 <? 0) with false. cbv beta iota zeta.
  assert ((zlen s <? 0) = false) as -> by (apply Z.ltb_ge; unfold zlen; lia).
  change (drop (Z.to_nat 0) s) with s.
  apply find_at_spec. by destruct (contains sub s).
Qed.

Lemma pystr_drop_length (n : nat) (s : string) :
  String.length (drop n s) = (String.length s - n)%nat.
Proof.
  revert s. induction n as [|n IH]; intros [|c s]; simpl; try done.
Qed.

Lemma find_qty_short (s : string) (pos : Z) :
  (String.length s <= 1)%nat -> find_at "Qty" s pos = -1.
Proof.
  destruct s as [|c [|c' s]]; [done| |simpl; lia]. intros _.
  cbn [find_at startswith]. by destruct (Ascii.eqb _ c).
Qed.

(** Without the "Seller SKU" header the search of "Qty" starts at index
    [-1], the last character, and finds nothing. *)
Lemma header_end_missing (product_section : string) :
  ~ substring_of "Seller SKU" product_section ->
  header_end_of product_section = -1.
Proof.
  intros H. unfold header_end_of. rewrite (find_missing _ _ H).
  unfold find_from. change (-1 <? 0) with true. cbv beta iota zeta.
  assert ((zlen product_section <? Z.max 0 (-1 + zlen product_section)) = false)
    as -> by (apply Z.ltb_ge; unfold zlen; lia).
  apply find_qty_short. rewrite pystr_drop_length. unfold zlen. lia.
Qed.

Lemma sku_qty_at_wf (s g1 g2 : string) (len : nat) :
  Re.SKU_QTY_PATTERN_at s = Some (g1, g2, len) ->
  (exists digits,
      g1 = String "T" digits /\ digits <> EmptyString
      /\ all_chars isdigit digits = true)
  /\ g2 <> EmptyString /\ all_chars isdigit g2 = true /\ (0 < len)%nat.
Proof.
  unfold Re.SKU_QTY_PATTERN_at. destruct s as [|c s1]; [done|].
  destruct (Ascii.eqb_spec c "T") as [->|Hc].
  2:{ destruct c as [[] [] [] [] [] [] [] []]; try done. }
  destruct (span isdigit s1) as [d1 s2] eqn:H1.
  destruct (span isspace s2) as [w s3] eqn:H2.
  destruct (span isdigit s3) as [d2 s4] eqn:H3.
  destruct (Re.nonempty d1) eqn:N1; [|done].
  destruct (Re.nonempty w) eqn:N2; [|done].
  destruct (Re.nonempty d2) eqn:N3; [|done]. simpl.
  intros [= <- <- <-]. apply span_spec in H1 as [H1 _].
  apply span_spec in H3 as [H3 _]. apply nonempty_spec in N1, N3.
  split; [by exists d1|]. split; [done|]. split; [done|lia].
Qed.

Lemma sku_qty_scan_wf (s : string) (skip : nat) (pos : Z) :
  Forall match_wf (Re.SKU_QTY_PATTERN_scan skip pos s).
Proof.
  revert skip pos.
  induction s as [|c s IH]; intros skip pos; cbn [Re.SKU_QTY_PATTERN_scan];
    [constructor|].
  destruct skip as [|k]; [|apply IH].
  destruct (Re.SKU_QTY_PATTERN_at (String c s)) as [[[g1 g2] len]|] eqn:Hm;
    [|apply IH].
  constructor; [|apply IH].
  destruct (sku_qty_at_wf _ _ _ _ Hm) as (Hsku & Hne & Hd & Hlen).
  unfold match_wf. simpl. split; [done|]. split; [done|]. split; [done|lia].
Qed.

Lemma int_of_digits_acc_nonneg (s : string) (acc : Z) :
  0 <= acc -> all_chars isdigit s = true -> 0 <= int_of_digits_acc acc s.
Proof.
  revert acc. induction s as [|c s IH]; intros acc Hacc; simpl; [done|].
  intros H. apply andb_true_iff in H as [Hc Hs]. apply IH; [|done].
  unfold isdigit in Hc. apply andb_true_iff in Hc as [Hlo _].
  apply N.leb_le in Hlo. lia.
Qed.

Lemma make_item_sku_qty (product_text : string) (m : Re.sku_qty_match) :
  sku_qty (make_item product_text m) = match_sku_qty m.
Proof. unfold make_item. by destruct (split_variation product_text). Qed.

(** Each item comes from one match and its name span. *)
Lemma extract_items_elem (page_content : string) (it : item) :
  it ∈ extract_items page_content ->
  exists product_section i m product_text,
    product_section_of page_content = Some product_section
    /\ Re.SKU_QTY_PATTERN_finditer product_section !! i = Some m
    /\ it = make_item product_text m.
Proof.
  intros Hit. unfold extract_items in Hit.
  destruct (product_section_of page_content) as [product_section|];
    [|by apply not_elem_of_nil in Hit].
  apply list_elem_of_omap in Hit as (x & Hx & Hid). simpl in Hid. subst x.
  apply list_elem_of_lookup in Hx as [i Hi].
  rewrite list_lookup_imap in Hi.
  destruct (Re.SKU_QTY_PATTERN_finditer product_section !! i) as [m|] eqn:Hm;
    [|done].
  simpl in Hi. injection Hi as Hi.
  destruct (name_span product_section
              (Re.SKU_QTY_PATTERN_finditer product_section) i m)
    as [product_text|]; [|done].
  simpl in Hi. injection Hi as <-.
  by exists product_section, i, m, product_text.
Qed.

Lemma omap_imap_Some {A B} (f : nat -> A -> option B) (g : nat -> A -> B)
    (l : list A) :
  (forall i x, l !! i = Some x -> f i x = Some (g i x)) ->
  omap id (imap f l) = imap g l.
Proof.
  revert f g. induction l as [|x l IH]; intros f g Hfg; [done|]. simpl.
  rewrite (Hfg 0%nat x eq_refl). simpl. f_equal.
  apply (IH (f ∘ S) (g ∘ S)). intros i y Hi. by apply (Hfg (S i)).
Qed.

Lemma fmap_imap_const {A B} (f : nat -> A -> B) (h : A -> B) (l : list A) :
  (forall i x, f i x = h x) -> imap f l = h <$> l.
Proof.
  revert f. induction l as [|x l IH]; intros f Hf; [done|]. simpl.
  rewrite Hf. f_equal. apply IH. intros i y. apply Hf.
Qed.
End items_more.

(** X6.  A page whose text has no "Product Name" has no product section
    and yields no item. *)
Theorem no_product_section_no_items (page_content : string) :
  ~ substring_of "Product Name" page_content ->
  extract_items page_content = [].
Proof.
  intros H. unfold extract_items, product_section_of.
  by rewrite (find_missing _ _ H).
Qed.

Lemma no_product_section_no_items_witness :
  extract_items "SHIP FROM: depot T100 3 Tracking Number: 1Z999" = [].
Proof.
  apply no_product_section_no_items.
  intros H. apply contains_spec in H. discriminate H.
Defined.

(** X7.  Every extracted item has a sku made of "T" and at least one
    decimal digit, and a quantity that is not negative. *)
Theorem extracted_items_wellformed (page_content : string) (it : item) :
  it ∈ extract_items page_content ->
  (exists digits,
      sku it = String "T"%char digits
      /\ digits <> EmptyString
      /\ all_chars PyStr.isdigit digits = true)
  /\ 0 <= qty it.
Proof.
  intros Hit.
  apply extract_items_elem in Hit as (section & i & m & span & _ & Hm & ->).
  pose proof (sku_qty_scan_wf section 0 0) as Hwf.
  rewrite Forall_lookup in Hwf. specialize (Hwf i m Hm).
  destruct Hwf as (Hsku & _ & Hd & _).
  pose proof (make_item_sku_qty span m) as Heq.
  unfold sku_qty, match_sku_qty in Heq. injection Heq as -> ->.
  split; [done|]. by apply int_of_digits_acc_nonneg.
Qed.

Lemma extracted_items_wellformed_witness :
  (exists digits,
      "T7" = String "T"%char digits
      /\ digits <> EmptyString
      /\ all_chars PyStr.isdigit digits = true)
  /\ 0 <= 0.
Proof.
  apply (extracted_items_wellformed
           "Product Name SKU Seller SKU Qty Mug Blue T7 0 Qty Total: 0"
           {| product_name := "Mug Blue"; variation := "Mug Blue";
              sku := "T7"; qty := 0 |}).
  vm_compute. apply list_elem_of_here.
Defined.

(** X8.  When "Qty" is found from the "Seller SKU" header on, every match
    of the sku/qty pattern in the product section yields one item, in
    order of appearance, with the sku and the quantity of the match. *)
Theorem every_match_yields_an_item (page_content product_section : string) :
  product_section_of page_content = Some product_section ->
  header_end_of product_section <> -1 ->
  sku_qty <$> extract_items page_content
  = match_sku_qty <$> Re.SKU_QTY_PATTERN_finditer product_section.
Proof.
  intros Hsec Hhead. unfold extract_items. rewrite Hsec.
  set (ms := Re.SKU_QTY_PATTERN_finditer product_section).
  rewrite (omap_imap_Some _
             (fun i m => make_item
                           (default EmptyString (name_span product_section ms i m))
                           m)).
  - rewrite <- (fmap_imap_const
                  (fun i m => sku_qty
                     (make_item
                        (default EmptyString (name_span product_section ms i m)) m))
                  match_sku_qty ms)
      by (intros; apply make_item_sku_qty).
    by rewrite fmap_imap.
  - intros i m Hi.
    assert (is_Some (name_span product_section ms i m)) as [span Hspan].
    { unfold name_span. destruct i as [|i'].
      - fold (header_end_of product_section).
        apply Z.eqb_neq in Hhead. rewrite Hhead. by eexists.
      - assert (is_Some (ms !! i')) as [m' Hm'].
        { apply lookup_lt_is_Some. apply lookup_lt_Some in Hi. lia. }
        rewrite Hm'. by eexists. }
    by rewrite Hspan.
Qed.

Lemma every_match_yields_an_item_witness :
  sku_qty <$> extract_items
                "Product Name SKU Seller SKU Qty Mug T7 2 Cup Red T8 1 Qty Total: 3"
  = match_sku_qty <$> Re.SKU_QTY_PATTERN_finditer
                        "Product Name SKU Seller SKU Qty Mug T7 2 Cup Red T8 1 ".
Proof.
  apply every_match_yields_an_item; [reflexivity|].
  vm_compute. discriminate.
Defined.

(** X9.  When the product section lacks the "Seller SKU" header, the first
    match of the sku/qty pattern is dropped without an item, and every
    later match yields one. *)
Theorem missing_header_drops_first_match (page_content product_section : string) :
  product_section_of page_content = Some product_section ->
  ~ substring_of "Seller SKU" product_section ->
  sku_qty <$> extract_items page_content
  = match_sku_qty <$> drop 1 (Re.SKU_QTY_PATTERN_finditer product_section).
Proof.
  intros Hsec Hhead. unfold extract_items. rewrite Hsec.
  set (ms := Re.SKU_QTY_PATTERN_finditer product_section).
  destruct ms as [|m0 rest] eqn:Hms; [done|]. simpl.
  assert (name_span product_section (m0 :: rest) 0 m0 = None) as ->.
  { unfold name_span. fold (header_end_of product_section).
    by rewrite (header_end_missing _ Hhead). }
  simpl. rewrite drop_0.
  rewrite (omap_imap_Some _
             (fun i m => make_item
                           (default EmptyString
                              (name_span product_section (m0 :: rest) (S i) m))
                           m)).
  - rewrite <- (fmap_imap_const
                  (fun i m => sku_qty
                     (make_item
                        (default EmptyString
                           (name_span product_section (m0 :: rest) (S i) m)) m))
                  match_sku_qty rest)
      by (intros; apply make_item_sku_qty).
    by rewrite fmap_imap.
  - intros i m Hi. simpl.
    assert (is_Some ((m0 :: rest) !! i)) as [m' Hm'].
    { apply lookup_lt_is_Some. apply lookup_lt_Some in Hi. simpl. lia. }
    unfold name_span. by rewrite Hm'.
Qed.

Lemma missing_header_drops_first_match_witness :
  sku_qty <$> extract_items "Product Name Mug T7 2 Cup Red T8 1 Qty Total: 3"
  = match_sku_qty <$> drop 1 (Re.SKU_QTY_PATTERN_finditer
                                "Product Name Mug T7 2 Cup Red T8 1 ").
Proof.
  apply missing_header_drops_first_match; [reflexivity|].
  intros H. apply contains_spec in H. discriminate H.
Defined.

(** ** Batch statistics *)

Section batch_statistics.
Context (hazmat_keywords : list string).

Lemma carrying_snoc (t : string) (orders : list order) (o : order) :
  carrying t (orders ++ [o])
  = (carrying t orders
     + if bool_decide (tracking_number o = Some t) then 1 else 0)%nat.
Proof.
  unfold carrying. rewrite List.filter_app, length_app. simpl.
  by destruct (bool_decide (tracking_number o = Some t)).
Qed.

Lemma tracked_snoc (orders : list order) (o : order) :
  tracked (orders ++ [o])
  = (tracked orders + if truthy (tracking_number o) then 1 else 0)%nat.
Proof.
  unfold tracked. rewrite List.filter_app, length_app. simpl.
  by destruct (truthy (tracking_number o)).
Qed.

Lemma truthy_Some (x : option string) :
  truthy x = true <-> exists t, x = Some t /\ t <> EmptyString.
Proof.
  destruct x as [[|c t]|]; simpl; split; try done.
  - by intros (t & [= <-] & Ht).
  - intros _. by eexists.
  - by intros (t & [=] & _).
Qed.

(** Adding an order, after the duplicate check on its tracking number. *)
Lemma tracking_inv_step (st : batch_state) (o : order) :
  tracking_inv st ->
  tracking_inv
    (add_order o (check_duplicate (tracking_number o) (order_id o) st)).
Proof.
  intros (Htot & Hsize & Hempty & Hsub & Hsets).
  unfold tracking_inv, check_duplicate.
  destruct (truthy (tracking_number o)) eqn:Htr; simpl.
  - apply truthy_Some in Htr as (t0 & Ht0 & Hne). rewrite Ht0. simpl.
    rewrite tracked_snoc, Ht0.
    assert (truthy (Some t0) = true) as -> by (by destruct t0).
    split; [lia|]. split; [|split; [set_solver|split]].
    + destruct (decide (t0 ∈ all_tracking_numbers st)) as [Hin|Hnew].
      * rewrite bool_decide_eq_true_2 by done.
        replace (all_tracking_numbers st ∪ {[t0]})
          with (all_tracking_numbers st) by set_solver.
        rewrite length_app. simpl. lia.
      * rewrite bool_decide_eq_false_2 by done.
        rewrite size_union by set_solver. rewrite size_singleton. lia.
    + destruct (bool_decide (t0 ∈ all_tracking_numbers st)); set_solver.
    + intros t Ht. rewrite carrying_snoc, Ht0.
      destruct (Hsets t Ht) as [Hall Hdup].
      destruct (decide (t0 = t)) as [->|Hdiff].
      * rewrite (bool_decide_eq_true_2 (Some t = Some t)) by done.
        split; [split; [lia|set_solver]|].
        destruct (decide (t ∈ all_tracking_numbers st)) as [Hin|Hnew].
        -- rewrite bool_decide_eq_true_2 by done.
           apply Hall in Hin. split; [lia|set_solver].
        -- rewrite bool_decide_eq_false_2 by done.
           split; [intros H; apply Hdup in H; lia|].
           intros H. exfalso. apply Hnew, Hall. lia.
      * rewrite (bool_decide_eq_false_2 (Some t0 = Some t)) by congruence.
        rewrite Nat.add_0_r. split.
        -- rewrite elem_of_union, elem_of_singleton, Hall. naive_solver.
        -- destruct (bool_decide (t0 ∈ all_tracking_numbers st));
             [|done]. rewrite elem_of_union, elem_of_singleton, Hdup.
           naive_solver.
  - rewrite tracked_snoc, Htr, Nat.add_0_r.
    split; [done|]. split; [done|]. split; [done|]. split; [done|].
    intros t Ht. rewrite carrying_snoc.
    rewrite bool_decide_eq_false_2; [rewrite Nat.add_0_r; by apply Hsets|].
    intros Heq. rewrite Heq in Htr. by destruct t.
Qed.

Lemma tracking_inv_note (n : nat) (st : batch_state) :
  tracking_inv st -> tracking_inv (note_slip_count n st).
Proof. unfold note_slip_count. by destruct (1 <? n)%nat. Qed.

Lemma foldr_max_from (l : list Z) (a : Z) :
  1 <= a -> foldr Z.max a l = Z.max a (foldr Z.max 1 l).
Proof.
  induction l as [|x l IH]; intros Ha; simpl; [lia|]. rewrite (IH Ha). lia.
Qed.

Lemma check_duplicate_slips (tn oid : option string) (st : batch_state) :
  all_orders (check_duplicate tn oid st) = all_orders st
  /\ multi_slip_orders (check_duplicate tn oid st) = multi_slip_orders st
  /\ max_slips_per_order (check_duplicate tn oid st) = max_slips_per_order st.
Proof. unfold check_duplicate. by destruct (truthy tn). Qed.

Lemma slip_inv_snoc (orders : list order) (o : order) :
  multi_slip (orders ++ [o])
  = (multi_slip orders + if (1 <? num_packing_slips o)%nat then 1 else 0)%nat
  /\ most_slips (orders ++ [o])
     = Z.max (most_slips orders) (Z.max (Z.of_nat (num_packing_slips o)) 1).
Proof.
  unfold multi_slip, most_slips.
  rewrite List.filter_app, length_app, fmap_app, foldr_app. simpl.
  rewrite (foldr_max_from _ (Z.max (Z.of_nat (num_packing_slips o)) 1)) by lia.
  split; [by destruct (1 <? num_packing_slips o)%nat|lia].
Qed.

Lemma most_slips_ge_1 (orders : list order) : 1 <= most_slips orders.
Proof.
  unfold most_slips.
  generalize ((fun o => Z.of_nat (num_packing_slips o)) <$> orders).
  intros l. induction l; simpl; lia.
Qed.

Lemma slip_inv_group (st : batch_state) (o : order) (tn oid : option string) :
  slip_inv st ->
  num_packing_slips o = length (pages o).2 ->
  (1 <= num_packing_slips o)%nat ->
  slip_inv
    (add_order o
       (check_duplicate tn oid (note_slip_count (num_packing_slips o) st))).
Proof.
  intros (Hmulti & Hmax & Hall) Hnum Hpos. unfold slip_inv. simpl.
  destruct (check_duplicate_slips tn oid
              (note_slip_count (num_packing_slips o) st)) as (-> & -> & ->).
  destruct (slip_inv_snoc (all_orders st) o) as [Hm Hx].
  pose proof (most_slips_ge_1 (all_orders st)) as Hone.
  rewrite note_slip_count_orders, Hm, Hx. unfold note_slip_count.
  destruct (1 <? num_packing_slips o)%nat eqn:Hgt; simpl;
    [apply Nat.ltb_lt in Hgt|apply Nat.ltb_ge in Hgt];
    (split; [lia|]); (split; [lia|]);
    (apply Forall_app; split; [done|]; by repeat constructor).
Qed.

Lemma slip_inv_pair (st : batch_state) (o : order) (tn oid : option string) :
  slip_inv st ->
  num_packing_slips o = 1%nat ->
  length (pages o).2 = 1%nat ->
  slip_inv (add_order o (check_duplicate tn oid st)).
Proof.
  intros (Hmulti & Hmax & Hall) Hnum Hlen. unfold slip_inv. simpl.
  destruct (check_duplicate_slips tn oid st) as (-> & -> & ->).
  destruct (slip_inv_snoc (all_orders st) o) as [Hm Hx].
  rewrite Hm, Hx, Hnum. simpl.
  pose proof (most_slips_ge_1 (all_orders st)) as Hone.
  split; [lia|]. split; [lia|].
  apply Forall_app. split; [done|]. repeat constructor; lia.
Qed.
End batch_statistics.

Section batch_runs.
Context (hazmat_keywords : list string).

Lemma process_group_inv (pdf_file : string) (st : batch_state) (g : label_group) :
  packing_slips g <> [] ->
  tracking_inv st /\ slip_inv st ->
  tracking_inv (process_group hazmat_keywords pdf_file st g)
  /\ slip_inv (process_group hazmat_keywords pdf_file st g).
Proof.
  intros Hne [Htr Hsl]. unfold process_group. split.
  - apply tracking_inv_step. by apply tracking_inv_note.
  - apply (slip_inv_group st (order_of_group hazmat_keywords pdf_file g));
      [done|done|]. simpl. destruct (packing_slips g); [done|simpl; lia].
Qed.

Lemma process_groups_inv (pdf_file : string) (groups : list label_group)
    (st : batch_state) :
  Forall (fun g => packing_slips g <> []) groups ->
  tracking_inv st /\ slip_inv st ->
  tracking_inv (foldl (process_group hazmat_keywords pdf_file) st groups)
  /\ slip_inv (foldl (process_group hazmat_keywords pdf_file) st groups).
Proof.
  revert st. induction groups as [|g groups IH]; intros st Hne Hinv; [done|].
  simpl. inversion Hne; subst. apply IH; [done|]. by apply process_group_inv.
Qed.

Lemma fallback_loop_inv (pdf_file : string) (n : nat) :
  forall (rest : list string) (i : nat) (st : batch_state),
    (length rest <= n)%nat ->
    tracking_inv st /\ slip_inv st ->
    tracking_inv (fallback_loop hazmat_keywords pdf_file i rest st)
    /\ slip_inv (fallback_loop hazmat_keywords pdf_file i rest st).
Proof.
  induction n as [|n IH]; intros rest i st Hlen [Htr Hsl].
  - destruct rest; [done|simpl in Hlen; lia].
  - destruct rest as [|a [|b rest]]; [done|done|]. simpl.
    apply IH; [simpl in Hlen; lia|]. split.
    + by apply (tracking_inv_step st
                  (order_of_pair hazmat_keywords pdf_file i a b)).
    + by apply (slip_inv_pair st
                  (order_of_pair hazmat_keywords pdf_file i a b)).
Qed.

Lemma process_document_inv (st : batch_state) (file : string * list string) :
  tracking_inv st /\ slip_inv st ->
  exists st',
    process_document hazmat_keywords st file = Some st'
    /\ tracking_inv st' /\ slip_inv st'.
Proof.
  intros Hinv. destruct file as [pdf_file pdf_document].
  unfold process_document.
  destruct (group_loop_spec pdf_document (length pdf_document) 0 [])
    as (gs & Hrun & _ & Hok); [lia|].
  unfold group_label_with_packing_slips. rewrite Hrun. simpl.
  destruct gs as [|g gs]; eexists; (split; [done|]).
  - by apply (fallback_loop_inv pdf_file (length pdf_document)).
  - apply (process_groups_inv pdf_file (g :: gs)); [|done].
    eapply Forall_impl; [exact Hok|]. by intros g' (_ & Hne & _).
Qed.

Lemma process_documents_inv (files : list (string * list string))
    (st : batch_state) :
  tracking_inv st /\ slip_inv st ->
  exists st',
    process_documents hazmat_keywords files st = Some st'
    /\ tracking_inv st' /\ slip_inv st'.
Proof.
  revert st. induction files as [|file files IH]; intros st Hinv; simpl.
  - by exists st.
  - destruct (process_document_inv st file Hinv) as (st1 & -> & Hinv1).
    simpl. by apply IH.
Qed.

Lemma initial_batch_inv :
  tracking_inv initial_batch_state /\ slip_inv initial_batch_state.
Proof.
  split.
  - unfold tracking_inv. simpl. split; [done|]. split; [done|].
    split; [set_solver|]. split; [done|]. intros t _.
    unfold carrying. simpl. split; split; (set_solver || lia).
  - unfold slip_inv. simpl. by repeat split.
Qed.
End batch_runs.

(** X10.  After any batch, [total_orders] is the number of orders that
    carry a non-empty tracking number, and it is the number of distinct
    tracking numbers seen plus the number of duplicate details logged. *)
Theorem total_orders_counts_tracked_orders (hazmat_keywords : list string)
    (files : list (string * list string)) :
  exists st,
    process_documents hazmat_keywords files initial_batch_state = Some st
    /\ total_orders st = Z.of_nat (tracked (all_orders st))
    /\ total_orders st
       = Z.of_nat (size (all_tracking_numbers st))
         + Z.of_nat (length (duplicate_details st)).
Proof.
  destruct (process_documents_inv hazmat_keywords files initial_batch_state
              initial_batch_inv) as (st & Hrun & (Htot & Hsize & _) & _).
  by exists st.
Qed.

(** X11.  After any batch, a non-empty tracking number is in the set of
    seen numbers exactly when at least one order carries it, and in the
    duplicates set exactly when at least two orders carry it. *)
Theorem duplicates_are_numbers_carried_twice (hazmat_keywords : list string)
    (files : list (string * list string)) :
  exists st,
    process_documents hazmat_keywords files initial_batch_state = Some st
    /\ duplicate_tracking_numbers st ⊆ all_tracking_numbers st
    /\ forall t,
        t <> EmptyString ->
        (t ∈ all_tracking_numbers st
         <-> (1 <= carrying t (all_orders st))%nat)
        /\ (t ∈ duplicate_tracking_numbers st
            <-> (2 <= carrying t (all_orders st))%nat).
Proof.
  destruct (process_documents_inv hazmat_keywords files initial_batch_state
              initial_batch_inv) as (st & Hrun & (_ & _ & _ & Hsub & Hsets) & _).
  by exists st.
Qed.

(** X12.  After any batch, every order has at least one packing slip and
    [num_packing_slips] is the number of its slip pages;
    [multi_slip_orders] is the number of orders with more than one slip
    and [max_slips_per_order] is the largest slip count, or 1 when no
    order has more. *)
Theorem slip_statistics (hazmat_keywords : list string)
    (files : list (string * list string)) :
  exists st,
    process_documents hazmat_keywords files initial_batch_state = Some st
    /\ multi_slip_orders st = Z.of_nat (multi_slip (all_orders st))
    /\ max_slips_per_order st = most_slips (all_orders st)
    /\ Forall (fun o => num_packing_slips o = length (pages o).2
                        /\ (1 <= num_packing_slips o)%nat)
              (all_orders st).
Proof.
  destruct (process_documents_inv hazmat_keywords files initial_batch_state
              initial_batch_inv) as (st & Hrun & _ & Hslip).
  by exists st.
Qed.

Section fallback_pairs.
Context (hazmat_keywords : list string).

Lemma fallback_loop_orders (pdf_file : string) (n : nat) :
  forall (rest : list string) (i : nat) (st : batch_state),
    (length rest <= n)%nat ->
    exists new,
      all_orders (fallback_loop hazmat_keywords pdf_file i rest st)
      = all_orders st ++ new
      /\ length new = Nat.div2 (length rest)
      /\ forall k a b,
          rest !! (2 * k)%nat = Some a ->
          rest !! (2 * k + 1)%nat = Some b ->
          new !! k
          = Some (order_of_pair hazmat_keywords pdf_file (i + 2 * k) a b).
Proof.
  induction n as [|n IH]; intros rest i st Hlen.
  - destruct rest; [|simpl in Hlen; lia]. exists [].
    split; [by rewrite app_nil_r|]. split; [done|]. intros k a b H.
    by rewrite lookup_nil in H.
  - destruct rest as [|a [|b rest]].
    + exists []. split; [by rewrite app_nil_r|]. split; [done|].
      intros k a b H. by rewrite lookup_nil in H.
    + exists []. split; [by rewrite app_nil_r|]. split; [done|].
      intros k a' b' _ H. replace (2 * k + 1)%nat with (S (2 * k)) in H by lia.
      by rewrite lookup_cons in H.
    + cbn [fallback_loop].
      set (o := order_of_pair hazmat_keywords pdf_file i a b).
      destruct (IH rest (S (S i))
                  (add_order o (check_duplicate (tracking_number o)
                                                (order_id o) st)))
        as (new & Hnew & Hlen' & Hk); [simpl in Hlen; lia|].
      exists (o :: new). rewrite Hnew. cbn [all_orders add_order].
      rewrite check_duplicate_orders, <- app_assoc. split; [done|].
      split; [simpl; by rewrite Hlen'|]. intros k a' b' Ha Hb.
      destruct k as [|k].
      * simpl in Ha, Hb. assert (a' = a) as -> by congruence.
        assert (b' = b) as -> by congruence.
        simpl. by rewrite Nat.add_0_r.
      * replace (2 * S k)%nat with (S (S (2 * k))) in Ha by lia.
        replace (2 * S k + 1)%nat with (S (S (2 * k + 1))) in Hb by lia.
        change (rest !! (2 * k)%nat = Some a') in Ha.
        change (rest !! (2 * k + 1)%nat = Some b') in Hb.
        change ((o :: new) !! S k) with (new !! k).
        rewrite (Hk k a' b' Ha Hb). do 2 f_equal. lia.
Qed.
End fallback_pairs.

(** X13.  A document in which no label page is immediately followed by a
    packing-slip page is processed by fixed pairing: it contributes one
    order per full pair of pages, the order [k] being built from page [2k]
    as label and page [2k + 1] as its only packing slip; a last page
    without partner is ignored. *)
Theorem fallback_pairs_pages (hazmat_keywords : list string)
    (st : batch_state) (pdf_file : string) (pdf_document : list string) :
  (forall k, ~ label_then_slip pdf_document k) ->
  exists st' new,
    process_document hazmat_keywords st (pdf_file, pdf_document) = Some st'
    /\ all_orders st' = all_orders st ++ new
    /\ length new = Nat.div2 (length pdf_document)
    /\ forall k a b,
        pdf_document !! (2 * k)%nat = Some a ->
        pdf_document !! (2 * k + 1)%nat = Some b ->
        new !! k
        = Some (order_of_pair hazmat_keywords pdf_file (2 * k) a b).
Proof.
  intros Hnone. unfold process_document.
  destruct (group_loop_spec pdf_document (length pdf_document) 0 [])
    as (gs & Hrun & Hscan & _); [lia|].
  unfold group_label_with_packing_slips. rewrite Hrun. simpl.
  assert (gs = []) as ->.
  { assert (cluster_indices <$> gs = []) as Hnil.
    { apply (scan_empty_iff _ _ _ Hscan). intros k _ Hk. apply (Hnone k).
      unfold label_then_slip. by rewrite !list_lookup_fmap in Hk. }
    by destruct gs. }
  destruct (fallback_loop_orders hazmat_keywords pdf_file
              (length pdf_document) pdf_document 0 st)
    as (new & Hnew & Hlen & Hk); [done|].
  eexists. exists new. split; [done|]. split; [done|]. split; [done|].
  intros k a b Ha Hb. by rewrite (Hk k a b Ha Hb).
Qed.

Lemma fallback_pairs_pages_witness :
  exists st' new,
    process_document HAZMAT_KEYWORDS initial_batch_state
      ("a.pdf", ["SHIP FROM: one"; "Carrier: UPS"; "SHIP FROM: two";
                 "Carrier: DHL"; "SHIP FROM: three"])
    = Some st'
    /\ all_orders st' = all_orders initial_batch_state ++ new
    /\ length new = Nat.div2 5
    /\ forall k a b,
        ["SHIP FROM: one"; "Carrier: UPS"; "SHIP FROM: two";
         "Carrier: DHL"; "SHIP FROM: three"] !! (2 * k)%nat = Some a ->
        ["SHIP FROM: one"; "Carrier: UPS"; "SHIP FROM: two";
         "Carrier: DHL"; "SHIP FROM: three"] !! (2 * k + 1)%nat = Some b ->
        new !! k = Some (order_of_pair HAZMAT_KEYWORDS "a.pdf" (2 * k) a b).
Proof.
  apply fallback_pairs_pages. intros k [Hl Hs].
  do 5 (destruct k as [|k]; [vm_compute in Hl, Hs; congruence|]).
  vm_compute in Hl. congruence.
Defined.

(** ** More on the sorter *)

Section occurrence_facts.

Lemma sku_occurrences_snoc (orders : list order) (o : order) :
  sku_occurrences (orders ++ [o]) = count_order (sku_occurrences orders) o.
Proof. unfold sku_occurrences. by rewrite foldl_snoc. Qed.

Lemma single_unit_count_snoc (s : string) (orders : list order) (o : order) :
  single_unit_count s (orders ++ [o])
  = (single_unit_count s orders
     + if bool_decide (single_unit_sku o = Some s) then 1 else 0)%nat.
Proof.
  unfold single_unit_count. rewrite List.filter_app, length_app. simpl.
  by destruct (bool_decide (single_unit_sku o = Some s)).
Qed.

(** The dictionary holds a sku once an order counted for it, and the
    count. *)
Lemma sku_occurrences_lookup (orders : list order) (s : string) :
  sku_occurrences orders !! s
  = if decide (single_unit_count s orders = 0%nat) then None
    else Some (Z.of_nat (single_unit_count s orders)).
Proof.
  induction orders as [|o orders IH] using rev_ind; [done|].
  rewrite sku_occurrences_snoc, single_unit_count_snoc. unfold count_order.
  destruct (single_unit_sku o) as [s'|] eqn:Hs'.
  - destruct (decide (s' = s)) as [->|Hne].
    + rewrite lookup_insert_eq, bool_decide_eq_true_2 by done.
      unfold occurrences. rewrite IH.
      destruct (decide (single_unit_count s orders = 0%nat)) as [Hz|Hpos];
        destruct (decide ((single_unit_count s orders + 1)%nat = 0%nat))
          as [Hz'|_]; try lia; simpl; f_equal; lia.
    + rewrite lookup_insert_ne by done.
      rewrite bool_decide_eq_false_2 by congruence.
      by rewrite Nat.add_0_r.
  - rewrite bool_decide_eq_false_2 by done. by rewrite Nat.add_0_r.
Qed.

Lemma occurrences_count (orders : list order) (s : string) :
  occurrences (sku_occurrences orders) s
  = Z.of_nat (single_unit_count s orders).
Proof.
  unfold occurrences. rewrite sku_occurrences_lookup.
  by destruct (decide (single_unit_count s orders = 0%nat)) as [->|].
Qed.

Lemma single_unit_sku_items (o : order) (s : string) :
  single_unit_sku o = Some s ->
  exists it, items o = [it] /\ sku it = s /\ qty_total o = 1.
Proof.
  unfold single_unit_sku. destruct (items o) as [|it [|]]; [done| |done].
  destruct (qty_total o =? 1) eqn:Hq; [|done]. intros [= <-].
  exists it. by apply Z.eqb_eq in Hq.
Qed.

Lemma single_unit_count_pos (orders : list order) (s : string) :
  (0 < single_unit_count s orders)%nat ->
  exists o, o ∈ orders /\ single_unit_sku o = Some s.
Proof.
  unfold single_unit_count. intros H.
  destruct (List.filter _ orders) as [|o l] eqn:Hf; [simpl in H; lia|].
  assert (In o (List.filter
                  (fun o => bool_decide (single_unit_sku o = Some s)) orders))
    as Hin by (rewrite Hf; by left).
  apply List.filter_In in Hin as [Hin Ho]. exists o.
  split; [by apply list_elem_of_In|]. by apply bool_decide_eq_true in Ho.
Qed.

(** [high_qty_skus] has an entry exactly for the skus counted at least
    100 times, and the entry records that count. *)
Lemma initial_high_qty_lookup (orders : list order) (s : string) :
  (is_Some (initial_high_qty_skus orders (sku_occurrences orders) !! s)
   <-> 100 <= occurrences (sku_occurrences orders) s)
  /\ forall info,
      initial_high_qty_skus orders (sku_occurrences orders) !! s = Some info ->
      hq_count info = occurrences (sku_occurrences orders) s
      /\ hq_orders info = [].
Proof.
  unfold initial_high_qty_skus. rewrite map_lookup_imap.
  pose proof (occurrences_count orders s) as Hocc.
  unfold occurrences in *. rewrite sku_occurrences_lookup in *.
  destruct (decide (single_unit_count s orders = 0%nat)) as [Hz|Hpos]; simpl in *.
  - split; [|done]. split; [by intros [? ?]|lia].
  - unfold high_qty_entry.
    destruct (100 <=? Z.of_nat (single_unit_count s orders)) eqn:Hc.
    + apply Z.leb_le in Hc.
      destruct (single_unit_count_pos orders s) as (o & Hin & Ho); [lia|].
      apply single_unit_sku_items in Ho as (it & Hit & Hsku & _).
      destruct (first_order_of_sku orders s) as [o'|] eqn:Hfind.
      * apply List.find_some in Hfind as [_ Hp]. simpl.
        destruct (items o') as [|it' [|]] eqn:Hit'; try done. simpl.
        split; [split; [lia|intros _; by eexists]|]. by intros info [= <-].
      * exfalso. unfold first_order_of_sku in Hfind.
        apply list_elem_of_In in Hin.
        pose proof (List.find_none _ _ Hfind o Hin) as Hp. simpl in Hp.
        rewrite Hit in Hp. by rewrite bool_decide_eq_true_2 in Hp.
    + apply Z.leb_gt in Hc. split; [|done]. split; [by intros [? ?]|lia].
Qed.
End occurrence_facts.

(** X14.  [sku_occurrences] counts, for every sku, the orders of the batch
    that have exactly one item, with that sku, and [qty_total = 1]; a sku
    never counted reads as 0. *)
Theorem sku_occurrences_counts_single_unit_orders (orders : list order)
    (s : string) :
  occurrences (sku_occurrences orders) s
  = Z.of_nat (single_unit_count s orders).
Proof. apply occurrences_count. Qed.

Section keyed_sort.
Context {A : Type} (ltb : A -> A -> bool).
Hypothesis ltb_asym : forall a b, ltb a b = true -> ltb b a = false.

Lemma insert_sorted_sorted (x : A) (l : list A) :
  Sorted (fun a b => ltb b a = false) l ->
  Sorted (fun a b => ltb b a = false) (insert_sorted ltb x l).
Proof.
  induction 1 as [|y l Hl IH Hhd]; simpl; [by repeat constructor|].
  destruct (ltb y x) eqn:Hyx.
  - constructor; [done|]. destruct l as [|z l]; simpl.
    + constructor. by apply ltb_asym.
    + destruct (ltb z x); constructor.
      * by inversion Hhd.
      * by apply ltb_asym.
  - constructor; [by constructor|]. by constructor.
Qed.

Lemma py_sorted_sorted (l : list A) :
  Sorted (fun a b => ltb b a = false) (py_sorted ltb l).
Proof.
  induction l as [|x l IH]; simpl; [constructor|].
  by apply insert_sorted_sorted.
Qed.
End keyed_sort.

Lemma Sorted_weaken {A} (R R' : A -> A -> Prop) (P : A -> Prop) (l : list A) :
  (forall x y, P x -> P y -> R x y -> R' x y) ->
  Forall P l -> Sorted R l -> Sorted R' l.
Proof.
  intros Himpl HP Hs. induction Hs as [|x l Hs IH Hhd]; [constructor|].
  inversion HP as [|? ? Hx Hl]; subst. constructor; [by apply IH|].
  destruct Hhd as [|y l Hxy]; constructor.
  inversion Hl; subst. by apply Himpl.
Qed.

Lemma Sorted_fmap_fst {A B} (R : A * B -> A * B -> Prop) (R' : A -> A -> Prop)
    (l : list (A * B)) :
  (forall p q, p ∈ l -> q ∈ l -> R p q -> R' p.1 q.1) ->
  Sorted R l -> Sorted R' (fst <$> l).
Proof.
  intros Himpl Hs. induction Hs as [|p l Hs IH Hhd]; [constructor|].
  simpl. constructor.
  - apply IH. intros q q' Hq Hq' Hqq.
    apply Himpl; [by apply list_elem_of_further..|done].
  - destruct Hhd as [|q l Hpq]; simpl; constructor.
    apply Himpl; [apply list_elem_of_here| |done].
    apply list_elem_of_further, list_elem_of_here.
Qed.

(** A keyed sort leaves its list ordered by the key. *)
Lemma sort_by_key_sorted (key : nat -> option Z) (reverse : bool)
    (l l' : list nat) :
  sort_by_key key reverse l = Some l' ->
  Sorted (key_order key reverse) l'.
Proof.
  unfold sort_by_key. intros H.
  apply bind_Some in H as (keyed & Hm & [= <-]).
  apply mapM_Some in Hm.
  assert (Forall (fun p : nat * Z => key p.1 = Some p.2) keyed) as Hkeys.
  { clear -Hm. induction Hm as [|x p l k Hxp _ IH]; constructor; [|done].
    destruct (key x) as [kx|] eqn:Hk; simpl in Hxp; [|done].
    by injection Hxp as <-. }
  set (ltb := fun a b : nat * Z => if reverse then b.2 <? a.2 else a.2 <? b.2).
  assert (Forall (fun p : nat * Z => key p.1 = Some p.2) (py_sorted ltb keyed))
    as Hkeys' by (by rewrite py_sorted_perm).
  eapply Sorted_fmap_fst; [|apply (py_sorted_sorted ltb)].
  - intros p q Hp Hq Hle. rewrite Forall_forall in Hkeys'.
    unfold key_order. rewrite (Hkeys' p Hp), (Hkeys' q Hq).
    unfold ltb in Hle. destruct reverse; apply Z.ltb_ge in Hle; lia.
  - intros a b. unfold ltb. destruct reverse; rewrite !Z.ltb_lt, Z.ltb_ge; lia.
Qed.

Section sorter_runs.
Context (orders : list order).
Let occ := sku_occurrences orders.
Let hq0 := initial_high_qty_skus orders occ.
Let fps := order_fingerprints orders.
Let counts := (fun indices : list nat => Z.of_nat (length indices)) <$> fps.

(** A run of [sort_orders], with the state the categorisation ends in. *)
Lemma sort_orders_run :
  exists r st,
    sort_orders orders = Some r
    /\ categorize_inv orders (length orders) st
    /\ categorize_loop occ fps 0 orders
         {| bucket := fun _ => []; high_qty := hq0 |} = Some st
    /\ high_qty_skus r = high_qty st
    /\ (forall b, sort_leaf orders occ counts st b = Some (leaf_bucket r b))
    /\ (forall b, leaf_bucket r b ≡ₚ placed_at orders (to_leaf b)).
Proof.
  unfold sort_orders. fold occ. fold hq0. fold fps. fold counts.
  destruct (categorize_loop_inv orders orders 0
              {| bucket := fun _ => []; high_qty := hq0 |})
    as (st & Hloop & Hinv); [done|apply categorize_inv_init|].
  fold occ in Hloop. fold fps in Hloop. rewrite Hloop. simpl.
  destruct (sort_leaf_total orders st warehouse_hazmat Hinv) as (wh & Ewh & Hwh).
  destruct (sort_leaf_total orders st warehouse_ground Hinv) as (wg & Ewg & Hwg).
  destruct (sort_leaf_total orders st packingroom_hazmat_single_item Hinv)
    as (phi & Ephi & Hphi).
  destruct (sort_leaf_total orders st packingroom_hazmat_single_sku Hinv)
    as (phs & Ephs & Hphs).
  destruct (sort_leaf_total orders st packingroom_hazmat_multi_sku Hinv)
    as (phm & Ephm & Hphm).
  destruct (sort_leaf_total orders st packingroom_ground_single_item Hinv)
    as (pgi & Epgi & Hpgi).
  destruct (sort_leaf_total orders st packingroom_ground_single_sku Hinv)
    as (pgs & Epgs & Hpgs).
  destruct (sort_leaf_total orders st packingroom_ground_multi_sku Hinv)
    as (pgm & Epgm & Hpgm).
  fold occ in Ewh, Ewg, Ephi, Ephs, Ephm, Epgi, Epgs, Epgm.
  fold fps in Ewh, Ewg, Ephi, Ephs, Ephm, Epgi, Epgs, Epgm.
  fold counts in Ewh, Ewg, Ephi, Ephs, Ephm, Epgi, Epgs, Epgm.
  rewrite Ewh, Ewg, Ephi, Ephs, Ephm, Epgi, Epgs, Epgm. simpl.
  eexists. exists st. split; [done|]. simpl.
  split; [done|]. split; [done|]. split; [done|].
  split; by intros [].
Qed.

Lemma warehouse_key_frequency (x : nat) (k : Z) :
  warehouse_key orders occ x = Some k -> k = - sku_frequency orders x.
Proof.
  unfold warehouse_key, sku_frequency. destruct (orders !! x) as [o|]; [|done].
  simpl. destruct (items o) as [|it its]; [done|]. simpl. by intros [= <-].
Qed.

Lemma get_order_frequency_count (x : nat) (k : Z) :
  get_order_frequency orders counts x = Some k -> k = order_frequency orders x.
Proof.
  unfold get_order_frequency, order_frequency.
  destruct (orders !! x) as [o|] eqn:Hx; [|done]. simpl.
  unfold counts, fps. rewrite lookup_fmap.
  rewrite (proj1 (order_fingerprints_of_order orders x o Hx)). simpl.
  by intros [= <-].
Qed.

Lemma leaf_bucket_sorted (r : sorted_orders) (st : sort_state) (b : leaf) :
  sort_leaf orders occ counts st b = Some (leaf_bucket r b) ->
  if is_warehouse_leaf b
  then Sorted (fun x y => sku_frequency orders y <= sku_frequency orders x)
              (leaf_bucket r b)
  else Sorted (fun x y => order_frequency orders y <= order_frequency orders x)
              (leaf_bucket r b).
Proof.
  unfold sort_leaf. destruct (is_warehouse_leaf b); intros Hsort.
  - pose proof (sort_by_key_sorted _ _ _ _ Hsort) as Hs.
    eapply (Sorted_weaken _ _ (fun _ => True)); [|by apply Forall_true|exact Hs].
    intros x y _ _. unfold key_order.
    destruct (warehouse_key orders occ x) as [kx|] eqn:Hx; [|done].
    destruct (warehouse_key orders occ y) as [ky|] eqn:Hy; [|done].
    apply warehouse_key_frequency in Hx, Hy. lia.
  - pose proof (sort_by_key_sorted _ _ _ _ Hsort) as Hs.
    eapply (Sorted_weaken _ _ (fun _ => True)); [|by apply Forall_true|exact Hs].
    intros x y _ _. unfold key_order.
    destruct (get_order_frequency orders counts x) as [kx|] eqn:Hx; [|done].
    destruct (get_order_frequency orders counts y) as [ky|] eqn:Hy; [|done].
    apply get_order_frequency_count in Hx, Hy. lia.
Qed.
End sorter_runs.

(** X15.  Each warehouse bucket comes out ordered by decreasing occurrence
    count of the order's sku. *)
Theorem warehouse_buckets_sorted_by_sku_frequency (orders : list order) :
  exists r,
    sort_orders orders = Some r
    /\ forall b,
        is_warehouse_leaf b = true ->
        Sorted (fun x y => sku_frequency orders y <= sku_frequency orders x)
               (leaf_bucket r b).
Proof.
  destruct (sort_orders_run orders) as (r & st & Hr & _ & _ & _ & Hsort & _).
  exists r. split; [done|]. intros b Hb.
  pose proof (leaf_bucket_sorted orders r st b (Hsort b)) as Hs.
  by rewrite Hb in Hs.
Qed.

(** X16.  Each packing-room bucket comes out ordered by decreasing number
    of orders of the batch that share the order's fingerprint. *)
Theorem packingroom_buckets_sorted_by_order_frequency (orders : list order) :
  exists r,
    sort_orders orders = Some r
    /\ forall b,
        is_warehouse_leaf b = false ->
        Sorted (fun x y => order_frequency orders y <= order_frequency orders x)
               (leaf_bucket r b).
Proof.
  destruct (sort_orders_run orders) as (r & st & Hr & _ & _ & _ & Hsort & _).
  exists r. split; [done|]. intros b Hb.
  pose proof (leaf_bucket_sorted orders r st b (Hsort b)) as Hs.
  by rewrite Hb in Hs.
Qed.

Section destination_facts.
Context (orders : list order).
Let occ := sku_occurrences orders.
Let hq0 := initial_high_qty_skus orders occ.
Let fps := order_fingerprints orders.

Lemma fingerprint_singleton (o : order) (it : item) :
  items o = [it] -> fingerprint o = [sku_qty it].
Proof. unfold fingerprint. by intros ->. Qed.

Lemma same_fingerprint_single (o o' : order) (it' : item) :
  fingerprint o = fingerprint o' ->
  items o' = [it'] ->
  exists it, items o = [it] /\ sku_qty it = sku_qty it'.
Proof.
  intros Hfp Hit'. pose proof (f_equal length Hfp) as Hlen.
  rewrite !fingerprint_length, Hit' in Hlen.
  destruct (items o) as [|it [|]] eqn:Hit; try done. exists it. split; [done|].
  rewrite (fingerprint_singleton o it Hit),
    (fingerprint_singleton o' it' Hit') in Hfp.
  congruence.
Qed.

(** The destination computed by the loop is the one of the rule. *)
Lemma destination_of_ruled (o : order) :
  destination_of hq0 occ o = ruled_destination orders o.
Proof.
  unfold destination_of, ruled_destination, high_qty_sku_of, warehouse_eligible.
  destruct (single_unit_sku o) as [s|]; [|done].
  destruct (initial_high_qty_lookup orders s) as [Hkey _].
  fold occ in Hkey. fold hq0 in Hkey. fold occ.
  destruct (decide (is_Some (hq0 !! s))) as [Hs|Hs].
  - apply Hkey in Hs. by apply Z.leb_le in Hs as ->.
  - assert ((100 <=? occurrences occ s) = false) as ->; [|done].
    apply Z.leb_gt. destruct (decide (100 <= occurrences occ s)); [|lia].
    exfalso. by apply Hs, Hkey.
Qed.

Lemma ruled_warehouse (o : order) (b : leaf) :
  ruled_destination orders o = to_leaf b ->
  is_warehouse_leaf b = true ->
  exists it,
    items o = [it]
    /\ 5 <= occurrences occ (sku it) < 100.
Proof.
  unfold ruled_destination. fold occ.
  destruct (single_unit_sku o) as [s|] eqn:Hs.
  - apply single_unit_sku_items in Hs as (it & Hit & <- & _).
    destruct (100 <=? occurrences occ (sku it)) eqn:H100; [done|].
    destruct (5 <=? occurrences occ (sku it)) eqn:H5.
    + intros _ _. exists it. apply Z.leb_gt in H100. apply Z.leb_le in H5.
      split; [done|lia].
    + intros [= <-]. unfold packingroom_leaf. by repeat case_match.
  - intros [= <-]. unfold packingroom_leaf. by repeat case_match.
Qed.

Lemma ruled_high_qty (o : order) (s : string) :
  ruled_destination orders o = to_high_qty s ->
  exists it, items o = [it] /\ sku it = s /\ 100 <= occurrences occ s.
Proof.
  unfold ruled_destination. fold occ.
  destruct (single_unit_sku o) as [s'|] eqn:Hs; [|done].
  apply single_unit_sku_items in Hs as (it & Hit & <- & _).
  destruct (100 <=? occurrences occ (sku it)) eqn:H100.
  - intros [= <-]. exists it. by apply Z.leb_le in H100.
  - by destruct (5 <=? occurrences occ (sku it)).
Qed.

(** The representative found by [placement] is the first order with the
    fingerprint. *)
Lemma placement_representative (j r : nat) (d : destination) (o : order) :
  orders !! j = Some o ->
  placement orders j = Some (r, d) ->
  exists rep,
    representative orders o = Some rep
    /\ fingerprint rep = fingerprint o
    /\ d = ruled_destination orders rep.
Proof.
  intros Hj Hp.
  apply placement_Some in Hp as (o1 & rep & Hj' & Hr & Hhead & Hfp & ->).
  assert (o1 = o) as -> by congruence.
  exists rep. split; [|split; [done|apply destination_of_ruled]].
  apply (find_first _ _ r); [done|by apply bool_decide_eq_true|].
  intros k y Hk Hy. apply bool_decide_eq_false. intros Hy'.
  destruct (head_fingerprint_group orders _ _ Hhead) as [_ Hbefore].
  apply (Hbefore k Hk). unfold fp_of. rewrite Hy. simpl. by rewrite Hy'.
Qed.

Lemma categorize_fields (st st' : sort_state) (i : nat) (o : order) :
  categorize occ fps st i o = Some st' ->
  forall s, hq_fields <$> high_qty st' !! s = hq_fields <$> high_qty st !! s.
Proof.
  unfold categorize. intros H s.
  apply bind_Some in H as (indices & _ & H).
  apply bind_Some in H as (first & _ & H).
  destruct (decide (i ≠ first)); [by injection H as <-|].
  destruct (high_qty_sku_of (high_qty st) o) as [s'|].
  - injection H as <-. simpl.
    destruct (decide (s' = s)) as [->|Hne].
    + rewrite lookup_alter_eq. by destruct (high_qty st !! s).
    + by rewrite lookup_alter_ne.
  - destruct (warehouse_eligible occ o); [destruct (is_hazmat o)|];
      by injection H as <-.
Qed.

Lemma categorize_loop_fields (rest : list order) (k : nat)
    (st st' : sort_state) :
  categorize_loop occ fps k rest st = Some st' ->
  forall s, hq_fields <$> high_qty st' !! s = hq_fields <$> high_qty st !! s.
Proof.
  revert k st. induction rest as [|o rest IH]; intros k st; simpl.
  - by intros [= <-].
  - intros H s. apply bind_Some in H as (st1 & H1 & H).
    rewrite (IH _ _ H s). by apply (categorize_fields st st1 k o).
Qed.

Lemma filter_true_id {A : Type} (p : A -> bool) (l : list A) :
  (forall x, x ∈ l -> p x = true) -> List.filter p l = l.
Proof.
  induction l as [|y l IH]; intros H; [done|]. simpl.
  rewrite (H y) by apply list_elem_of_here. f_equal. apply IH.
  intros x Hx. apply H. by apply list_elem_of_further.
Qed.

(** The orders of the warehouse buckets of the result. *)
Lemma warehouse_bucket_elem (r : sorted_orders) (b : leaf) (x : nat) :
  sort_orders orders = Some r ->
  is_warehouse_leaf b = true ->
  x ∈ leaf_bucket r b ->
  exists o it,
    orders !! x = Some o
    /\ items o = [it]
    /\ 5 <= occurrences occ (sku it) < 100.
Proof.
  intros Hr Hb Hxb.
  destruct (sort_orders_spec orders) as (r' & Hr' & Hleaf & _).
  assert (r' = r) as -> by congruence.
  rewrite Hleaf in Hxb. apply elem_of_placed_at in Hxb as [rep Hp].
  pose proof Hp as Hp'.
  apply placement_Some in Hp' as (o & _ & Hx' & _).
  destruct (placement_representative x rep _ o Hx' Hp)
    as (orep & _ & Hfp & Hd).
  symmetry in Hd.
  destruct (ruled_warehouse orep b Hd Hb) as (it' & Hit' & Hocc).
  destruct (same_fingerprint_single o orep it' (eq_sym Hfp) Hit')
    as (it & Hit & Hsq).
  exists o, it. split; [done|]. split; [done|].
  unfold sku_qty in Hsq. injection Hsq as -> _. done.
Qed.

(** The entries of [high_qty_skus] in the result. *)
Lemma high_qty_entry_count (r : sorted_orders) (s : string)
    (info : high_qty_info) :
  sort_orders orders = Some r ->
  high_qty_skus r !! s = Some info ->
  hq_count info = occurrences occ s /\ 100 <= occurrences occ s.
Proof.
  intros Hr Hinfo.
  destruct (sort_orders_run orders)
    as (r' & st & Hr' & [_ Hhq] & Hloop & Hsame & _ & _).
  assert (r' = r) as -> by congruence.
  pose proof (categorize_loop_fields orders _ _ _ Hloop s) as Hfields.
  simpl in Hfields. rewrite Hsame in Hinfo. rewrite Hinfo in Hfields.
  destruct (initial_high_qty_lookup orders s) as [Hkey Hcount].
  fold occ in Hkey, Hcount, Hfields.
  destruct (initial_high_qty_skus orders occ !! s) as [info0|] eqn:H0; [|done].
  destruct (Hcount info0 eq_refl) as [Hc _].
  simpl in Hfields. unfold hq_fields in Hfields.
  injection Hfields as Hc' _ _. split; [congruence|].
  apply Hkey. by eexists.
Qed.

Lemma high_qty_entry_exists (r : sorted_orders) (s : string) :
  sort_orders orders = Some r ->
  100 <= occurrences occ s ->
  is_Some (high_qty_skus r !! s).
Proof.
  intros Hr Hs.
  destruct (sort_orders_spec orders) as (r' & Hr' & _ & _ & Hkeys).
  assert (r' = r) as -> by congruence.
  apply Hkeys. by apply (initial_high_qty_lookup orders s).
Qed.

Lemma high_qty_entry_elem (r : sorted_orders) (s : string)
    (info : high_qty_info) (x : nat) :
  sort_orders orders = Some r ->
  high_qty_skus r !! s = Some info ->
  x ∈ hq_orders info ->
  exists o it, orders !! x = Some o /\ items o = [it] /\ sku it = s.
Proof.
  intros Hr Hinfo Hx.
  destruct (sort_orders_spec orders) as (r' & Hr' & _ & Hgroups & _).
  assert (r' = r) as -> by congruence.
  rewrite (Hgroups s info Hinfo) in Hx.
  apply elem_of_placed_at in Hx as [rep Hp]. pose proof Hp as Hp'.
  apply placement_Some in Hp' as (o & _ & Hx' & _).
  destruct (placement_representative x rep _ o Hx' Hp)
    as (orep & _ & Hfp & Hd).
  symmetry in Hd.
  destruct (ruled_high_qty orep s Hd) as (it' & Hit' & Hsku & _).
  destruct (same_fingerprint_single o orep it' (eq_sym Hfp) Hit')
    as (it & Hit & Hsq).
  exists o, it. split; [done|]. split; [done|].
  unfold sku_qty in Hsq. injection Hsq as -> _. done.
Qed.

(** One step of the removal in [process_pdfs] leaves the buckets of the
    result of [sort_orders] as they are. *)
Lemma remove_high_qty_same (r r' : sorted_orders)
    (entry : string * high_qty_info) :
  sort_orders orders = Some r ->
  (forall b, leaf_bucket r' b = leaf_bucket r b) ->
  100 <= occurrences occ entry.1 ->
  forall b, leaf_bucket (remove_high_qty orders r' entry) b = leaf_bucket r b.
Proof.
  intros Hr Hsame Hs b. destruct entry as [s info]. simpl in Hs.
  unfold remove_high_qty. destruct (100 <=? hq_count info); [|apply Hsame].
  simpl. destruct (decide (b = _)) as [Hb|]; [|apply Hsame].
  rewrite Hsame. apply filter_true_id. intros x Hx.
  assert (is_warehouse_leaf b = true) as Hw
    by (rewrite Hb; by destruct (hq_is_hazmat info)).
  destruct (warehouse_bucket_elem r b x Hr Hw Hx) as (o & it & Ho & Hit & Hocc).
  unfold keeps. rewrite Ho, Hit. apply negb_true_iff, bool_decide_eq_false.
  intros <-. lia.
Qed.

Lemma remove_high_qty_all (r : sorted_orders)
    (entries : list (string * high_qty_info)) :
  sort_orders orders = Some r ->
  (forall e, e ∈ entries -> 100 <= occurrences occ e.1) ->
  forall r',
    (forall b, leaf_bucket r' b = leaf_bucket r b) ->
    forall b,
      leaf_bucket (foldl (remove_high_qty orders) r' entries) b
      = leaf_bucket r b.
Proof.
  intros Hr. induction entries as [|e entries IH]; intros He r' Hsame; [done|].
  simpl. apply IH.
  - intros e' He'. apply He. by apply list_elem_of_further.
  - apply remove_high_qty_same; [done|done|]. apply He, list_elem_of_here.
Qed.
Lemma sku_keys_spec (keys : list string) (rest : list order) :
  NoDup keys ->
  NoDup (sku_keys keys rest)
  /\ forall s,
      s ∈ sku_keys keys rest
      <-> s ∈ keys \/ exists o, o ∈ rest /\ single_unit_sku o = Some s.
Proof.
  revert keys. induction rest as [|o rest IH]; intros keys Hnd; simpl.
  - split; [done|]. intros s. split; [by left|].
    intros [H|(o & Ho & _)]; [done|]. by apply not_elem_of_nil in Ho.
  - destruct (single_unit_sku o) as [s0|] eqn:Hs0.
    + assert (NoDup (if decide (s0 ∈ keys) then keys else keys ++ [s0]))
        as Hnd'.
      { destruct (decide (s0 ∈ keys)) as [Hin|Hin]; [done|].
        apply NoDup_app. split; [done|]. split; [|apply NoDup_singleton].
        intros x Hx Hx'. apply list_elem_of_singleton in Hx' as ->. done. }
      destruct (IH _ Hnd') as [IHnd IHin]. split; [done|]. intros s.
      rewrite IHin. split.
      * intros [H|(o' & Ho' & Hs)].
        -- destruct (decide (s0 ∈ keys)) as [Hin|Hin]; [by left|].
           apply elem_of_app in H as [H|H]; [by left|].
           apply list_elem_of_singleton in H as ->. right. exists o.
           split; [apply list_elem_of_here|done].
        -- right. exists o'. split; [by apply list_elem_of_further|done].
      * intros [H|(o' & Ho' & Hs)].
        -- left. destruct (decide (s0 ∈ keys)); [done|].
           apply elem_of_app. by left.
        -- apply elem_of_cons in Ho' as [->|Ho'].
           ++ left. assert (s = s0) as -> by congruence.
              destruct (decide (s0 ∈ keys)); [done|].
              apply elem_of_app. right. apply list_elem_of_here.
           ++ right. by exists o'.
    + destruct (IH _ Hnd) as [IHnd IHin]. split; [done|]. intros s.
      rewrite IHin. split.
      * intros [H|(o' & Ho' & Hs)]; [by left|]. right. exists o'.
        split; [by apply list_elem_of_further|done].
      * intros [H|(o' & Ho' & Hs)]; [by left|].
        apply elem_of_cons in Ho' as [->|Ho']; [congruence|].
        right. by exists o'.
Qed.

(** The skus in [sku_order] are the counted ones, each once. *)
Lemma sku_order_spec :
  NoDup (sku_order orders)
  /\ forall s, s ∈ sku_order orders <-> 1 <= occurrences occ s.
Proof.
  destruct (sku_keys_spec [] orders) as [Hnd Hin]; [constructor|].
  split; [done|]. intros s. unfold sku_order. rewrite Hin.
  unfold occ. rewrite occurrences_count. split.
  - intros [H|(o & Ho & Hs)]; [by apply not_elem_of_nil in H|].
    unfold single_unit_count.
    assert (o ∈ List.filter
                  (fun o => bool_decide (single_unit_sku o = Some s)) orders)
      as Hf.
    { apply list_elem_of_In, List.filter_In. split; [by apply list_elem_of_In|].
      by apply bool_decide_eq_true. }
    destruct (List.filter _ orders); [by apply not_elem_of_nil in Hf|].
    simpl. lia.
  - intros H. right. apply single_unit_count_pos. lia.
Qed.

(** The entries enumerated by the loop over [high_qty_skus.items()] are
    the entries of the dictionary, each once. *)
Lemma high_qty_items_spec (r : sorted_orders) :
  sort_orders orders = Some r ->
  NoDup (high_qty_items orders r).*1
  /\ forall s info,
      (s, info) ∈ high_qty_items orders r <-> high_qty_skus r !! s = Some info.
Proof.
  intros Hr. destruct sku_order_spec as [Hnd Hin]. split.
  - unfold high_qty_items. revert Hnd.
    generalize (sku_order orders). intros l Hl.
    induction Hl as [|s l Hs Hl IH]; simpl; [constructor|].
    destruct (high_qty_skus r !! s) as [info|]; simpl; [|done].
    constructor; [|done]. intros Hin'. apply Hs.
    apply list_elem_of_fmap in Hin' as ([s' info'] & -> & He).
    apply list_elem_of_omap in He as (s'' & Hs'' & He).
    destruct (high_qty_skus r !! s''); [|done]. simpl in He.
    by injection He as -> _.
  - intros s info. unfold high_qty_items. rewrite list_elem_of_omap. split.
    + intros (s' & _ & He). destruct (high_qty_skus r !! s') eqn:Hl; [|done].
      simpl in He. by injection He as -> ->.
    + intros Hl. exists s. split; [|by rewrite Hl].
      apply Hin. destruct (high_qty_entry_count r s info Hr Hl) as [_ H100].
      fold occ. lia.
Qed.



End destination_facts.

(** X17.  Every order of a warehouse bucket has exactly one item, and the
    occurrence count of its sku is at least 5 and below 100. *)
Theorem warehouse_orders_within_thresholds (orders : list order) :
  exists r,
    sort_orders orders = Some r
    /\ forall x,
        x ∈ warehouse_all r ->
        exists o it,
          orders !! x = Some o
          /\ items o = [it]
          /\ 5 <= occurrences (sku_occurrences orders) (sku it) < 100.
Proof.
  destruct (sort_orders_spec orders) as (r & Hr & _).
  exists r. split; [done|]. intros x Hx. unfold warehouse_all in Hx.
  apply elem_of_app in Hx as [Hx|Hx];
    by eapply (warehouse_bucket_elem orders r _ x Hr); [|exact Hx].
Qed.

(** X18.  [high_qty_skus] has an entry exactly for the skus whose
    occurrence count is at least 100; the entry records that count, and
    every order collected under it has exactly one item, with that sku. *)
Theorem high_qty_groups (orders : list order) :
  exists r,
    sort_orders orders = Some r
    /\ (forall s,
           is_Some (high_qty_skus r !! s)
           <-> 100 <= occurrences (sku_occurrences orders) s)
    /\ forall s info,
        high_qty_skus r !! s = Some info ->
        hq_count info = occurrences (sku_occurrences orders) s
        /\ forall x,
            x ∈ hq_orders info ->
            exists o it, orders !! x = Some o /\ items o = [it] /\ sku it = s.
Proof.
  destruct (sort_orders_spec orders) as (r & Hr & _).
  exists r. split; [done|]. split.
  - intros s. split.
    + intros [info Hinfo]. by apply (high_qty_entry_count orders r s info).
    + by apply (high_qty_entry_exists orders r).
  - intros s info Hinfo. split.
    + by apply (high_qty_entry_count orders r s info).
    + intros x. by apply (high_qty_entry_elem orders r s info).
Qed.

(** X19.  The classification rule: an order is held by the container that
    the rule assigns to the first order of the batch with its fingerprint
    (the per-sku group from 100 occurrences on, a warehouse bucket from 5
    on, a packing-room bucket otherwise), and by no other container. *)
Theorem classification_rule (orders : list order) (j : nat) (o : order) :
  orders !! j = Some o ->
  exists r rep,
    sort_orders orders = Some r
    /\ representative orders o = Some rep
    /\ held_at r (ruled_destination orders rep) j
    /\ forall d, held_at r d j -> d = ruled_destination orders rep.
Proof.
  intros Hj.
  destruct (sort_orders_spec orders) as (r & Hr & Hleaf & Hgroups & Hkeys).
  destruct (placement_total orders j o Hj) as (i & o' & _ & _ & _ & _ & Hp).
  destruct (placement_representative orders j i _ o Hj Hp)
    as (rep & Hrep & _ & Hd).
  exists r, rep. split; [done|]. split; [done|]. rewrite <- Hd. split.
  - destruct (destination_of _ _ o') as [s|b] eqn:Hdest; simpl.
    + destruct (Hkeys s (destination_high_qty orders o' s Hdest))
        as [info Hinfo].
      exists info. split; [done|]. rewrite (Hgroups s info Hinfo).
      apply elem_of_placed_at. by exists i.
    + rewrite Hleaf. apply elem_of_placed_at. by exists i.
  - intros [s|b]; simpl.
    + intros (info & Hinfo & Hx). rewrite (Hgroups s info Hinfo) in Hx.
      apply elem_of_placed_at in Hx as [i' Hp']. congruence.
    + intros Hx. rewrite Hleaf in Hx.
      apply elem_of_placed_at in Hx as [i' Hp']. congruence.
Qed.

Lemma classification_rule_witness :
  exists r rep,
    sort_orders [order_with_items [item_of "T1" 1] 1 false] = Some r
    /\ representative [order_with_items [item_of "T1" 1] 1 false]
         (order_with_items [item_of "T1" 1] 1 false) = Some rep
    /\ held_at r
         (ruled_destination [order_with_items [item_of "T1" 1] 1 false] rep)
         0%nat
    /\ forall d,
        held_at r d 0%nat ->
        d = ruled_destination [order_with_items [item_of "T1" 1] 1 false] rep.
Proof.
  apply (classification_rule [order_with_items [item_of "T1" 1] 1 false] 0%nat
           (order_with_items [item_of "T1" 1] 1 false)).
  reflexivity.
Defined.

(** X20.  The removal of the high-quantity orders from the warehouse
    buckets in [process_pdfs] removes nothing: after it every bucket of
    the result of [sort_orders] is what it was, in whatever order the
    entries of [high_qty_skus] are gone through, and so in the order of
    the loop. *)
Theorem high_qty_removal_removes_nothing (orders : list order) :
  exists r,
    sort_orders orders = Some r
    /\ (forall b,
           leaf_bucket
             (foldl (remove_high_qty orders) r (map_to_list (high_qty_skus r)))
             b
           = leaf_bucket r b)
    /\ forall b,
        leaf_bucket
          (foldl (remove_high_qty orders) r (high_qty_items orders r)) b
        = leaf_bucket r b.
Proof.
  destruct (sort_orders_spec orders) as (r & Hr & _).
  exists r. split; [done|]. split.
  - apply (remove_high_qty_all orders r); [done| |done].
    intros [s info] He. apply elem_of_map_to_list in He. simpl.
    by apply (high_qty_entry_count orders r s info).
  - apply (remove_high_qty_all orders r); [done| |done].
    intros [s info] He.
    apply (high_qty_items_spec orders r Hr) in He. simpl.
    by apply (high_qty_entry_count orders r s info).
Qed.


(** The loop raises on a batch of 101 orders for one T1 each, of which
    the first one only has a [qty_total] other than 1: T1 is counted 100
    times, and its group stays empty. *)
Example empty_high_qty_group_raises :
  let orders :=
    order_with_items [item_of "T1" 1] 2 false
    :: replicate 100 (order_with_items [item_of "T1" 1] 1 false) in
  exists r info,
    sort_orders orders = Some r
    /\ high_qty_skus r !! "T1" = Some info
    /\ hq_count info = 100
    /\ hq_orders info = []
    /\ write_outputs orders r = None.
Proof.
  eexists. eexists. split; [vm_compute; reflexivity|].
  repeat split; vm_compute; reflexivity.
Qed.

Section page_range_facts.

Lemma pages_of_range_snoc (start prev : Z) :
  start <= prev ->
  pages_of_range (start, prev + 1) = pages_of_range (start, prev) ++ [prev + 1].
Proof.
  intros H. unfold pages_of_range.
  replace (Z.to_nat (prev + 1 - start + 1))
    with (Z.to_nat (prev - start + 1) + 1)%nat by lia.
  rewrite seq_app, fmap_app. simpl. do 2 f_equal. lia.
Qed.

Lemma pages_of_range_single (p : Z) : pages_of_range (p, p) = [p].
Proof.
  unfold pages_of_range. replace (p - p + 1) with 1 by lia. simpl.
  f_equal. lia.
Qed.

Lemma page_ranges_loop_head (start prev : Z) (rest : list Z) :
  exists e ranges, page_ranges_loop start prev rest = (start, e) :: ranges.
Proof.
  revert start prev. induction rest as [|p rest IH]; intros start prev; simpl.
  - by eexists _, _.
  - destruct (decide (p ≠ prev + 1)); [by eexists _, _|apply IH].
Qed.

Lemma page_ranges_loop_spec (start prev : Z) (rest : list Z) :
  start <= prev ->
  (page_ranges_loop start prev rest ≫= pages_of_range)
  = pages_of_range (start, prev) ++ rest
  /\ Forall (fun range => range.1 <= range.2) (page_ranges_loop start prev rest)
  /\ ranges_apart (page_ranges_loop start prev rest).
Proof.
  revert start prev. induction rest as [|p rest IH]; intros start prev Hle.
  - simpl. rewrite app_nil_r. split; [done|]. split; [|done].
    by repeat constructor.
  - cbn [page_ranges_loop]. destruct (decide (p ≠ prev + 1)) as [Hp|Hp].
    + destruct (IH p p) as (Hcat & Hall & Hapart); [lia|].
      rewrite bind_cons, Hcat, pages_of_range_single. split; [done|].
      split; [by constructor|].
      destruct (page_ranges_loop_head p p rest) as (e & ranges & Heq).
      rewrite Heq in Hapart |- *. by split.
    + assert (p = prev + 1) as -> by (destruct (decide (p = prev + 1)); done).
      destruct (IH start (prev + 1)) as (Hcat & Hall & Hapart); [lia|].
      rewrite Hcat, pages_of_range_snoc, <- app_assoc by done. done.
Qed.

Lemma page_ranges_spec (pages : list Z) :
  (page_ranges pages ≫= pages_of_range) = pages
  /\ Forall (fun range => range.1 <= range.2) (page_ranges pages)
  /\ ranges_apart (page_ranges pages).
Proof.
  destruct pages as [|p rest]; [done|]. simpl.
  destruct (page_ranges_loop_spec p p rest) as (Hcat & Hall & Hapart); [lia|].
  by rewrite Hcat, pages_of_range_single.
Qed.
End page_range_facts.

(** X22.  The ranges of the cell [Pages] stand for exactly the sorted page
    numbers of the row: expanding them gives that list back, no range is
    empty, and no range continues the one before it. *)
Theorem page_ranges_round_trip (pages : list Z) :
  (page_ranges (py_sorted Z.ltb pages) ≫= pages_of_range)
  = py_sorted Z.ltb pages
  /\ py_sorted Z.ltb pages ≡ₚ pages
  /\ Forall (fun range => range.1 <= range.2)
            (page_ranges (py_sorted Z.ltb pages))
  /\ ranges_apart (page_ranges (py_sorted Z.ltb pages)).
Proof.
  destruct (page_ranges_spec (py_sorted Z.ltb pages)) as (Hcat & Hall & Hapart).
  split; [done|]. split; [apply py_sorted_perm|]. by split.
Qed.

Section picklist_facts.
Context {V : Type}.

Lemma entry_of_None (s : string) (d : list (string * V)) :
  entry_of s d = None <-> s ∉ d.*1.
Proof.
  induction d as [|[k v] d IH]; simpl.
  - split; [intros _; apply not_elem_of_nil|done].
  - rewrite not_elem_of_cons. destruct (decide (k = s)) as [->|Hne].
    + split; [done|]. by intros [? _].
    + rewrite IH. split; [by split|]. by intros [_ ?].
Qed.

Lemma entry_of_snoc (s k : string) (v : V) (d : list (string * V)) :
  entry_of s (d ++ [(k, v)])
  = match entry_of s d with
    | Some v' => Some v'
    | None => if decide (k = s) then Some v else None
    end.
Proof.
  induction d as [|[k' v'] d IH]; simpl; [done|].
  by destruct (decide (k' = s)).
Qed.

Lemma entry_of_update (s k : string) (f : V -> V) (d : list (string * V)) :
  entry_of s (update_entry k f d)
  = if decide (k = s) then f <$> entry_of s d else entry_of s d.
Proof.
  induction d as [|[k' v'] d IH]; simpl; [by destruct (decide (k = s))|].
  destruct (decide (k' = k)) as [Hk|Hk]; simpl;
    destruct (decide (k' = s)) as [Hs|Hs]; simpl;
    destruct (decide (k = s)) as [Hks|Hks]; simpl;
    try congruence; try done.
Qed.

Lemma update_entry_keys (k : string) (f : V -> V) (d : list (string * V)) :
  (update_entry k f d).*1 = d.*1.
Proof.
  induction d as [|[k' v'] d IH]; simpl; [done|].
  destruct (decide (k' = k)); simpl; [done|]. f_equal. exact IH.
Qed.
End picklist_facts.

Section picklist_rows.
Context (orders : list order) (pages : gmap nat Z).

Lemma foldl_picklist_items (page : option Z) (its : list item)
    (acc : list (string * picklist_entry)) :
  foldl (picklist_item page) acc its
  = foldl (fun acc p => picklist_item p.1 acc p.2) acc
          ((fun it => (page, it)) <$> its).
Proof.
  revert acc. induction its as [|it its IH]; intros acc; simpl; [done|].
  apply IH.
Qed.

Lemma items_by_sku_flat (bucket : list nat)
    (acc : list (string * picklist_entry)) :
  foldl (picklist_order orders pages) acc bucket
  = foldl (fun acc p => picklist_item p.1 acc p.2) acc
          ((fun p : nat * item => (pages !! p.1, p.2))
             <$> bucket_items orders bucket).
Proof.
  revert acc. induction bucket as [|x bucket IH]; intros acc; [done|].
  unfold bucket_items. rewrite bind_cons. fold (bucket_items orders bucket).
  rewrite fmap_app, foldl_app. simpl. rewrite IH. f_equal.
  unfold picklist_order. destruct (orders !! x) as [o|]; [|done].
  rewrite foldl_picklist_items. f_equal. rewrite <- list_fmap_compose.
  done.
Qed.

Lemma row_of_snoc (its : list (option Z * item)) (page : option Z)
    (it : item) :
  row_of (its ++ [(page, it)])
  = Some {| pl_product_name :=
              default (picklist_name it) (pl_product_name <$> row_of its);
            pl_quantity := default 0 (pl_quantity <$> row_of its) + qty it;
            pl_pages := default [] (pl_pages <$> row_of its)
                        ++ match page with
                           | Some p => [p]
                           | None => []
                           end |}.
Proof.
  assert (forall l : list (option Z * item),
             foldr Z.add 0 ((fun p => qty p.2) <$> l ++ [(page, it)])
             = foldr Z.add 0 ((fun p => qty p.2) <$> l) + qty it) as Hsum.
  { intros l. rewrite fmap_app. simpl.
    generalize ((fun p : option Z * item => qty p.2) <$> l). intros zs.
    induction zs as [|z zs IH]; simpl; lia. }
  assert (forall l : list (option Z * item),
             omap fst (l ++ [(page, it)])
             = omap fst l ++ match page with Some p => [p] | None => [] end)
    as Hpages.
  { intros l. rewrite omap_app. simpl. by destruct page. }
  destruct its as [|[page0 it0] its].
  - simpl. f_equal. f_equal; lia.
  - set (l := (page0, it0) :: its).
    assert (row_of (l ++ [(page, it)])
            = Some {| pl_product_name := picklist_name it0;
                      pl_quantity :=
                        foldr Z.add 0 ((fun p => qty p.2) <$> l ++ [(page, it)]);
                      pl_pages := omap fst (l ++ [(page, it)]) |}) as ->
      by done.
    by rewrite Hsum, Hpages.
Qed.

(** The dictionary built from a list of items holds, for every sku, the
    row of the items of that sku. *)
Lemma picklist_rows (its : list (option Z * item)) :
  let d := foldl (fun acc p => picklist_item p.1 acc p.2) [] its in
  NoDup d.*1
  /\ forall s,
      entry_of s d
      = row_of (List.filter (fun p => bool_decide (sku p.2 = s)) its).
Proof.
  induction its as [|[page it] its IH] using rev_ind; simpl.
  - split; [constructor|done].
  - destruct IH as [Hnd Hrows]. rewrite foldl_snoc. simpl.
    set (d := foldl (fun acc p => picklist_item p.1 acc p.2) [] its) in *.
    unfold picklist_item. split.
    + rewrite update_entry_keys.
      destruct (entry_of (sku it) d) eqn:He; [done|].
      rewrite fmap_app. simpl. apply NoDup_app. split; [done|].
      split; [|by apply NoDup_singleton].
      intros s Hs Hin. apply list_elem_of_singleton in Hin as ->.
      by apply entry_of_None in He.
    + intros s. rewrite entry_of_update, List.filter_app. simpl.
      destruct (decide (sku it = s)) as [Hs|Hs].
      * rewrite bool_decide_eq_true_2 by done. rewrite row_of_snoc.
        rewrite <- Hrows, <- Hs.
        destruct (entry_of (sku it) d) as [e|] eqn:He.
        { rewrite ?He. destruct page; simpl; by rewrite ?app_nil_r. }
        rewrite entry_of_snoc, He, decide_True by done. simpl.
        unfold picklist_name. by destruct page.
      * rewrite bool_decide_eq_false_2 by done. rewrite app_nil_r, <- Hrows.
        destruct (entry_of (sku it) d) eqn:He; [done|].
        rewrite entry_of_snoc. destruct (entry_of s d); [done|].
        by rewrite decide_False.
Qed.
End picklist_rows.

(** X23.  The pick list has one row for each sku that occurs in the
    bucket; the row carries the name of the first item of that sku, the
    sum of the quantities of its items, and the page number of the order
    of each of them, in the order of the bucket. *)
Theorem picklist_row_aggregates (orders : list order) (pages : gmap nat Z)
    (bucket : list nat) (s : string) :
  NoDup (items_by_sku orders pages bucket).*1
  /\ entry_of s (items_by_sku orders pages bucket)
     = row_of (sku_items orders pages bucket s).
Proof.
  unfold items_by_sku, sku_items. rewrite items_by_sku_flat.
  destruct (picklist_rows
              ((fun p : nat * item => (pages !! p.1, p.2))
                 <$> bucket_items orders bucket)) as [Hnd Hrows].
  split; [done|apply Hrows].
Qed.

Section label_count_facts.
Context (orders : list order).

Lemma occurrences_insert (m : gmap string Z) (k s : string) (v : Z) :
  occurrences (<[k := v]> m) s = if decide (k = s) then v else occurrences m s.
Proof.
  unfold occurrences. destruct (decide (k = s)) as [->|Hne].
  - by rewrite lookup_insert_eq.
  - by rewrite lookup_insert_ne.
Qed.

Lemma sku_counts_count (all : list nat) (s : string) :
  occurrences (sku_counts orders all) s
  = Z.of_nat (length (List.filter (one_item_of orders s) all)).
Proof.
  unfold sku_counts.
  induction all as [|x all IH] using rev_ind; [done|].
  rewrite foldl_snoc, List.filter_app, length_app, Nat2Z.inj_add, <- IH.
  clear IH. simpl. unfold count_sku, one_item_of.
  destruct (orders !! x) as [o|]; [|simpl; lia].
  destruct (items o) as [|it [|]]; [simpl; lia| |simpl; lia].
  rewrite occurrences_insert. destruct (decide (sku it = s)) as [->|Hne].
  - rewrite bool_decide_eq_true_2 by done. simpl. lia.
  - rewrite bool_decide_eq_false_2 by done. simpl. lia.
Qed.

Lemma label_counts_app (s : string) (out1 out2 : list (nat * nat * stamp)) :
  label_counts s (out1 ++ out2) = label_counts s out1 ++ label_counts s out2.
Proof. apply omap_app. Qed.

Context (sku_counts : gmap string Z).

(** The slips after the first one receive their page number only. *)
Lemma stamp_slip_later (x : nat) (o : order) (n : Z) (g : nat -> nat)
    (rest : list nat) (counters : gmap string Z)
    (out : list (nat * nat * stamp)) :
  (forall j, g j <> 0%nat) ->
  exists out',
    foldl (stamp_slip sku_counts x o n) (counters, out)
          (imap (fun j slip_index => (g j, slip_index)) rest)
    = (counters, out')
    /\ forall s, label_counts s out' = label_counts s out.
Proof.
  revert g out. induction rest as [|slip_index rest IH]; intros g out Hg.
  - by exists out.
  - cbn [imap foldl].
    set (out1 := out ++ [(x, slip_index,
                          if (1 <? length (page_numbers o).2)%nat
                          then PageNumberWithSlipCount n (Z.of_nat (g 0%nat) + 1)
                                 (Z.of_nat (length (page_numbers o).2))
                          else PageNumber n)]).
    assert (stamp_slip sku_counts x o n (counters, out) (g 0%nat, slip_index)
            = (counters, out1)) as ->.
    { unfold stamp_slip. specialize (Hg 0%nat).
      destruct (g 0%nat); [done|]. by destruct (items o) as [|? [|]]. }
    destruct (IH (fun j => g (S j)) out1) as (out' & Hfold & Hlabels).
    { intros j. apply Hg. }
    exists out'. split; [exact Hfold|]. intros s. rewrite Hlabels.
    unfold out1. rewrite label_counts_app. simpl.
    destruct (1 <? length (page_numbers o).2)%nat; simpl; apply app_nil_r.
Qed.

(** One order: its first slip receives the label count where the order
    has exactly one item whose sku is counted at least 5 times. *)
Lemma stamp_order_labels (st : label_state) (x : nat) (s : string) :
  let st' := stamp_order orders sku_counts st x in
  let labels := labelled orders s x && (5 <=? occurrences sku_counts s) in
  occurrences (sku_counters st') s
  = occurrences (sku_counters st) s + (if labels then 1 else 0)
  /\ label_counts s (stamps st')
     = label_counts s (stamps st)
       ++ if labels
          then [(occurrences (sku_counters st) s + 1, occurrences sku_counts s)]
          else [].
Proof.
  unfold stamp_order, labelled.
  destruct (orders !! x) as [o|]; [|simpl; split; [lia|by rewrite app_nil_r]].
  destruct ((page_numbers o).2) as [|slip_index rest] eqn:Hslips.
  { simpl. replace (match items o with [_] => false | _ => false end)
      with false by (by destruct (items o) as [|? [|]]).
    simpl. split; [lia|by rewrite app_nil_r]. }
  cbn [imap foldl].
  set (out1 := stamps st ++ [(x, slip_index,
                 if (1 <? length (slip_index :: rest))%nat
                 then PageNumberWithSlipCount (page_number st) (Z.of_nat 0 + 1)
                        (Z.of_nat (length (slip_index :: rest)))
                 else PageNumber (page_number st))]).
  assert (forall s', label_counts s' out1 = label_counts s' (stamps st))
    as Hout1.
  { intros s'. unfold out1. rewrite label_counts_app. simpl.
    destruct (1 <? _)%nat; simpl; apply app_nil_r. }
  set (first := stamp_slip sku_counts x o (page_number st)
                  (sku_counters st, stamps st) (0%nat, slip_index)).
  assert (exists counters1 out2,
             first = (counters1, out2)
             /\ occurrences counters1 s
                = occurrences (sku_counters st) s
                  + (if match items o with
                        | [it] => bool_decide (sku it = s)
                        | _ => false
                        end && (5 <=? occurrences sku_counts s)
                     then 1 else 0)
             /\ label_counts s out2
                = label_counts s (stamps st)
                  ++ if match items o with
                        | [it] => bool_decide (sku it = s)
                        | _ => false
                        end && (5 <=? occurrences sku_counts s)
                     then [(occurrences (sku_counters st) s + 1,
                            occurrences sku_counts s)]
                     else [])
    as (counters1 & out2 & Hfirst & Hcount & Hlabel).
  { unfold first, stamp_slip. rewrite Hslips. fold out1.
    destruct (items o) as [|it [|]].
    - eexists _, _. split; [done|]. simpl. rewrite Hout1, app_nil_r.
      split; [lia|done].
    - destruct (5 <=? occurrences sku_counts (sku it)) eqn:H5.
      + eexists _, _. split; [done|]. rewrite occurrences_insert.
        rewrite label_counts_app, Hout1. simpl.
        destruct (decide (sku it = s)) as [<-|Hne].
        * rewrite bool_decide_eq_true_2 by done. rewrite H5. simpl.
          split; [lia|done].
        * rewrite bool_decide_eq_false_2 by done. simpl.
          split; [lia|done].
      + eexists _, _. split; [done|]. rewrite Hout1.
        destruct (decide (sku it = s)) as [<-|Hne].
        * rewrite bool_decide_eq_true_2 by done. rewrite H5. simpl.
          rewrite app_nil_r. split; [lia|done].
        * rewrite bool_decide_eq_false_2 by done. simpl.
          rewrite app_nil_r. split; [lia|done].
    - eexists _, _. split; [done|]. simpl. rewrite Hout1, app_nil_r.
      split; [lia|done]. }
  rewrite Hfirst.
  destruct (stamp_slip_later x o (page_number st) S rest counters1 out2)
    as (out' & Hfold & Hlabels); [done|].
  change (imap ((fun j slip_index => (j, slip_index)) ∘ S) rest)
    with (imap (fun j slip_index => (S j, slip_index)) rest).
  rewrite Hfold. simpl. rewrite Hlabels. by split.
Qed.

Lemma stamp_orders_labels (all : list nat) (s : string) :
  let st :=
    foldl (stamp_order orders sku_counts)
          {| page_number := 1; sku_counters := ∅; order_page_number := ∅;
             stamps := [] |}
          all in
  let m := length (List.filter (labelled orders s) all) in
  occurrences (sku_counters st) s
  = (if 5 <=? occurrences sku_counts s then Z.of_nat m else 0)
  /\ label_counts s (stamps st)
     = if 5 <=? occurrences sku_counts s
       then (fun k => (Z.of_nat k, occurrences sku_counts s)) <$> seq 1 m
       else [].
Proof.
  induction all as [|x all IH] using rev_ind.
  - simpl. by destruct (5 <=? occurrences sku_counts s).
  - cbv zeta in *. rewrite foldl_snoc, List.filter_app, length_app.
    destruct IH as [IHc IHl].
    destruct (stamp_order_labels
                (foldl (stamp_order orders sku_counts)
                   {| page_number := 1; sku_counters := ∅;
                      order_page_number := ∅; stamps := [] |} all) x s)
      as [Hc Hl].
    rewrite Hc, Hl, IHc, IHl. simpl.
    destruct (labelled orders s x); simpl;
      destruct (5 <=? occurrences sku_counts s); simpl;
      rewrite ?app_nil_r, ?Nat.add_0_r; try (split; [lia|done]).
    split; [lia|]. rewrite seq_app, fmap_app. simpl. do 3 f_equal. lia.
Qed.
End label_count_facts.

(** X24.  The total on the labels of a sku is the number of one-item
    orders of that sku in the warehouse file; where it is at least 5, the
    labels of the sku read 1 of n, 2 of n, ... in the order of the file,
    one for each such order that has a packing slip, and there is no
    label otherwise. *)
Theorem label_counts_in_sequence (orders : list order) (all : list nat)
    (s : string) :
  occurrences (sku_counts orders all) s
  = Z.of_nat (length (List.filter (one_item_of orders s) all))
  /\ label_counts s (stamps (stamp_warehouse orders all))
     = if 5 <=? occurrences (sku_counts orders all) s
       then (fun k => (Z.of_nat k, occurrences (sku_counts orders all) s))
              <$> seq 1 (length (List.filter (labelled orders s) all))
       else [].
Proof.
  split; [apply sku_counts_count|].
  apply (stamp_orders_labels orders (sku_counts orders all) all s).
Qed.

Section page_number_facts.
Context (orders : list order) (sku_counts : gmap string Z).

Lemma stamp_order_pages (st : label_state) (x : nat) (o : order) :
  orders !! x = Some o ->
  page_number (stamp_order orders sku_counts st x) = page_number st + 1
  /\ order_page_number (stamp_order orders sku_counts st x)
     = <[x := page_number st]> (order_page_number st).
Proof.
  intros Hx. unfold stamp_order. rewrite Hx.
  by destruct (foldl _ _ _).
Qed.

Lemma stamp_orders_pages (all : list nat) :
  NoDup all ->
  Forall (fun x => is_Some (orders !! x)) all ->
  let st :=
    foldl (stamp_order orders sku_counts)
          {| page_number := 1; sku_counters := ∅; order_page_number := ∅;
             stamps := [] |}
          all in
  page_number st = Z.of_nat (length all) + 1
  /\ forall k x,
      all !! k = Some x ->
      order_page_number st !! x = Some (Z.of_nat k + 1).
Proof.
  induction all as [|x all IH] using rev_ind; intros Hnd Hall; [done|].
  apply NoDup_app in Hnd as (Hnd & Hx & _).
  apply Forall_app in Hall as [Hall Hox].
  apply Forall_singleton in Hox as [o Hox].
  destruct (IH Hnd Hall) as [IHn IHp]. cbv zeta. rewrite foldl_snoc.
  destruct (stamp_order_pages
              (foldl (stamp_order orders sku_counts)
                 {| page_number := 1; sku_counters := ∅;
                    order_page_number := ∅; stamps := [] |} all) x o Hox)
    as [-> ->].
  rewrite IHn, length_app. simpl. split; [lia|]. intros k y Hk.
  apply lookup_app_Some in Hk as [Hk|[Hlen Hk]].
  - rewrite lookup_insert_ne; [by apply IHp|]. intros <-.
    apply (Hx x); [by eapply list_elem_of_lookup_2|apply list_elem_of_here].
  - apply list_lookup_singleton_Some in Hk as [Hk <-].
    rewrite lookup_insert_eq. f_equal. lia.
Qed.

Lemma placed_at_NoDup (d : destination) : NoDup (placed_at orders d).
Proof.
  unfold placed_at. apply NoDup_ListNoDup, List.NoDup_filter, List.seq_NoDup.
Qed.
End page_number_facts.

(** X25.  In the warehouse file the orders are numbered by their place:
    the order at place [k] of [sorted_orders['warehouse']['all']], counted
    from 0, carries the page number [k + 1] afterwards. *)
Theorem warehouse_page_numbers (orders : list order) :
  exists r,
    sort_orders orders = Some r
    /\ forall k x,
        warehouse_all r !! k = Some x ->
        order_page_number (stamp_warehouse orders (warehouse_all r)) !! x
        = Some (Z.of_nat k + 1).
Proof.
  destruct (sort_orders_spec orders) as (r & Hr & Hleaf & _).
  exists r. split; [done|].
  apply (stamp_orders_pages orders (sku_counts orders (warehouse_all r))).
  - unfold warehouse_all. apply NoDup_app. repeat split.
    + rewrite Hleaf. apply placed_at_NoDup.
    + intros x Hh Hg. rewrite Hleaf in Hh, Hg.
      apply elem_of_placed_at in Hh as [i Hi].
      apply elem_of_placed_at in Hg as [i' Hi']. congruence.
    + rewrite Hleaf. apply placed_at_NoDup.
  - apply Forall_forall. intros x Hx. unfold warehouse_all in Hx.
    assert (exists b, x ∈ placed_at orders (to_leaf b)) as [b Hb].
    { apply elem_of_app in Hx as [Hx|Hx]; rewrite Hleaf in Hx; by eexists. }
    apply elem_of_placed_at in Hb as [i Hi].
    apply placement_Some in Hi as (o & _ & Hx' & _). by eexists.
Qed.

